(** * holland.core.spool: the spool / backupset / backup hierarchy

    A shallow embedding of [holland/core/spool.py].  The Python code is a
    set of stateless facades over directory paths, so the embedding has
    three layers:

    - byte strings and the string functions the code calls
      ([str.split("/")], [str.strip()], [os.path.join]);
    - a POSIX-like file-system tree with symbolic links, and the [os],
      [os.path] and [shutil] calls of the module as functions on it;
    - the classes [Spool], [Backupset] and [Backup], written in a small
      state-and-exception monad over the file system.

    Python strings are modelled as [string] (byte strings); comparing
    UTF-8 byte strings agrees with comparing code points. *)

From stdpp Require Import base list strings sorting.
From Stdlib Require Import Ascii String ZArith Lia.

Local Open Scope string_scope.
Local Open Scope list_scope.
#[local] Set Warnings "-register-all".

(** ** Strings *)

Definition is_sep (c : ascii) : bool := Ascii.eqb c "/".

(** [s.split("/")]: never empty, ["a/".split("/") = ["a"; ""]]. *)
Fixpoint split_sep (s : string) : list string :=
  match s with
  | "" => [""]
  | String c s' =>
      if is_sep c then "" :: split_sep s'
      else match split_sep s' with
           | [] => [String c ""]
           | w :: ws => String c w :: ws
           end
  end.

Definition startswith_sep (s : string) : bool :=
  match s with
  | String c _ => is_sep c
  | "" => false
  end.

Fixpoint endswith_sep (s : string) : bool :=
  match s with
  | "" => false
  | String c "" => is_sep c
  | String _ s' => endswith_sep s'
  end.

(** [os.path.join(a, b)] of [posixpath], for two arguments. *)
Definition path_join (a b : string) : string :=
  if startswith_sep b then b
  else if String.eqb a "" || endswith_sep a then a +:+ b
  else a +:+ "/" +:+ b.

Fixpoint has_sep (s : string) : bool :=
  match s with
  | "" => false
  | String c s' => is_sep c || has_sep s'
  end.

(** A name that a directory entry can have. *)
Definition valid_name (c : string) : bool :=
  negb (has_sep c) && negb (String.eqb c "") && negb (String.eqb c ".")
  && negb (String.eqb c "..").

(** The ASCII characters for which [str.isspace] holds. *)
Definition is_space (c : ascii) : bool :=
  let n := N_of_ascii c in
  ((9 <=? n) && (n <=? 13) || (28 <=? n) && (n <=? 32))%N.

Fixpoint lstrip (s : string) : string :=
  match s with
  | "" => ""
  | String c s' => if is_space c then lstrip s' else s
  end.

Fixpoint rstrip (s : string) : string :=
  match s with
  | "" => ""
  | String c s' =>
      match rstrip s' with
      | "" => if is_space c then "" else String c ""
      | r => String c r
      end
  end.

(** [s.strip()] *)
Definition strip (s : string) : string := rstrip (lstrip s).

(** [s.rstrip("/")] *)
Fixpoint rstrip_sep (s : string) : string :=
  match s with
  | "" => ""
  | String c s' =>
      match rstrip_sep s' with
      | "" => if is_sep c then "" else String c ""
      | r => String c r
      end
  end.

(** [s == "/" * len(s)] *)
Fixpoint all_sep (s : string) : bool :=
  match s with
  | "" => true
  | String c s' => is_sep c && all_sep s'
  end.

(** [(p[:i], p[i:])] for [i = p.rfind("/") + 1]. *)
Fixpoint rpartition_sep (p : string) : string * string :=
  match p with
  | "" => ("", "")
  | String c p' =>
      let (head, tail) := rpartition_sep p' in
      if negb (String.eqb head "") then (String c head, tail)
      else if is_sep c then (String c "", tail)
      else ("", String c tail)
  end.

(** [os.path.split] of [posixpath]. *)
Definition path_split (p : string) : string * string :=
  let (head, tail) := rpartition_sep p in
  (if negb (String.eqb head "") && negb (all_sep head) then rstrip_sep head else head,
   tail).

(** [name or ""] for an optional string argument. *)
Definition or_empty (name : option string) : string := default "" name.

(** Python truthiness of an optional string. *)
Definition truthy (s : string) : bool := negb (String.eqb s "").

(** ** The file system *)

Inductive errno :=
  ENOENT | ENOTDIR | ELOOP | EISDIR | EEXIST | EBUSY | EINVAL | ENOTEMPTY.

Inductive node :=
  | File
  | Dir (entries : list (string * node))
  | Link (target : string).

Inductive kind := KFile | KDir | KLink (target : string).

Definition kind_of (x : node) : kind :=
  match x with
  | File => KFile
  | Dir _ => KDir
  | Link tgt => KLink tgt
  end.

(** A location is the list of names from the root to an entry. *)
Definition loc := list string.

Fixpoint lookup_entry (c : string) (es : list (string * node)) : option node :=
  match es with
  | [] => None
  | (n, x) :: es' => if String.eqb n c then Some x else lookup_entry c es'
  end.

Fixpoint get (t : node) (l : loc) : option node :=
  match l with
  | [] => Some t
  | c :: l' =>
      match t with
      | Dir es =>
          match lookup_entry c es with
          | Some t' => get t' l'
          | None => None
          end
      | _ => None
      end
  end.

Definition kind_at (t : node) (l : loc) : option kind := kind_of <$> get t l.

Definition map_entry (c : string) (g : node -> node)
    (es : list (string * node)) : list (string * node) :=
  map (fun e => if String.eqb (fst e) c then (fst e, g (snd e)) else e) es.

(** Rewrite the entry list of the directory at a location. *)
Fixpoint update_dir (f : list (string * node) -> list (string * node))
    (t : node) (l : loc) : node :=
  match l with
  | [] => match t with Dir es => Dir (f es) | _ => t end
  | c :: l' =>
      match t with
      | Dir es => Dir (map_entry c (fun x => update_dir f x l') es)
      | _ => t
      end
  end.

Definition drop_entry (c : string) (es : list (string * node)) :=
  List.filter (fun e => negb (String.eqb (fst e) c)) es.

Definition add_entry (c : string) (x : node) (es : list (string * node)) :=
  es ++ [(c, x)].

(** Remove the entry at a location (with everything below it). *)
Definition remove_at (t : node) (l : loc) : node :=
  match last l with
  | Some c => update_dir (drop_entry c) t (removelast l)
  | None => t
  end.

(** *** Path resolution

    [walk] resolves the components of a path from a starting directory.
    Empty components and ["."] are skipped, [".."] goes to the parent (the
    root is its own parent), a symbolic link is followed when it is not
    the last component or when [follow_last] is set.  Following a link
    is delegated to [on_link], which [walk_fuel] instantiates with a
    bounded number of link traversals (the kernel gives up with [ELOOP]). *)

Section Walk.
Variable t : node.
Variable follow_last : bool.
Variable on_link : loc -> string -> list string -> errno + loc.

Fixpoint walk (cur : loc) (cs : list string) : errno + loc :=
  match cs with
  | [] => inr cur
  | c :: rest =>
      if String.eqb c "" || String.eqb c "." then walk cur rest
      else if String.eqb c ".." then walk (removelast cur) rest
      else match kind_at t (cur ++ [c]) with
           | None => inl ENOENT
           | Some KDir => walk (cur ++ [c]) rest
           | Some KFile =>
               match rest with
               | [] => inr (cur ++ [c])
               | _ => inl ENOTDIR
               end
           | Some (KLink tgt) =>
               match rest, follow_last with
               | [], false => inr (cur ++ [c])
               | _, _ => on_link cur tgt rest
               end
           end
  end.
End Walk.

Fixpoint walk_fuel (fuel : nat) (t : node) (follow_last : bool)
    (cur : loc) (cs : list string) : errno + loc :=
  match fuel with
  | O => inl ELOOP
  | S fuel' =>
      walk t follow_last
        (fun cur tgt rest =>
           if String.eqb tgt "" then inl ENOENT
           else walk_fuel fuel' t follow_last
                  (if startswith_sep tgt then [] else cur)
                  (split_sep tgt ++ rest))
        cur cs
  end.

(** At most 40 symbolic links are followed in one resolution. *)
Definition max_links : nat := 40.

Record world := World {
  tree : node;              (* the directory tree, from the root *)
  cwd : loc;                (* the working directory of the process *)
  warnings : list string    (* arguments of the LOG.warning calls so far *)
}.

Definition resolve (follow_last : bool) (w : world) (p : string) : errno + loc :=
  if String.eqb p "" then inl ENOENT
  else if startswith_sep p then
    walk_fuel (S max_links) (tree w) follow_last [] (split_sep p)
  else match kind_at (tree w) (cwd w) with
       | Some KDir => walk_fuel (S max_links) (tree w) follow_last (cwd w) (split_sep p)
       | _ => inl ENOENT
       end.

Definition stat_at (w : world) (r : errno + loc) : errno + kind :=
  match r with
  | inl e => inl e
  | inr l => match kind_at (tree w) l with
             | Some k => inr k
             | None => inl ENOENT
             end
  end.

(** [os.stat] and [os.lstat], reduced to the kind of the entry. *)
Definition stat (w : world) (p : string) : errno + kind := stat_at w (resolve true w p).
Definition lstat (w : world) (p : string) : errno + kind := stat_at w (resolve false w p).

(** [os.path.exists], [os.path.isdir], [os.path.islink]: any error is False. *)
Definition path_exists (w : world) (p : string) : bool :=
  match stat w p with inr _ => true | inl _ => false end.

Definition path_isdir (w : world) (p : string) : bool :=
  match stat w p with inr KDir => true | _ => false end.

Definition path_islink (w : world) (p : string) : bool :=
  match lstat w p with inr (KLink _) => true | _ => false end.

(** [os.readlink], used to state where a link points. *)
Definition readlink (w : world) (p : string) : option string :=
  match lstat w p with inr (KLink tgt) => Some tgt | _ => None end.

(** [os.listdir]: the names of a directory, in directory order. *)
Definition listdir (w : world) (p : string) : errno + list string :=
  match resolve true w p with
  | inl e => inl e
  | inr l => match get (tree w) l with
             | Some (Dir es) => inr (map fst es)
             | Some _ => inl ENOTDIR
             | None => inl ENOENT
             end
  end.

Definition set_tree (w : world) (t : node) : world :=
  World t (cwd w) (warnings w).

(** [os.remove]: unlink a file or a link; a directory is refused. *)
Definition os_remove (w : world) (p : string) : errno + world :=
  match resolve false w p with
  | inl e => inl e
  | inr l => match kind_at (tree w) l with
             | None => inl ENOENT
             | Some KDir => inl EISDIR
             | Some _ => inr (set_tree w (remove_at (tree w) l))
             end
  end.

(** [os.rmdir]: trailing separators are ignored and the root is busy.
    The path to the parent is walked first, from the working directory
    also when that has been removed; then a last component ["."] or [".."]
    is refused, and so is an entry that is not an empty directory. *)
Definition os_rmdir (w : world) (p : string) : errno + world :=
  if String.eqb p "" then inl ENOENT
  else if all_sep p then inl EBUSY
  else
    let cs := split_sep (rstrip_sep p) in
    let start := if startswith_sep p then [] else cwd w in
    match walk_fuel (S max_links) (tree w) true start (removelast cs) with
    | inl e => inl e
    | inr lp =>
        match kind_at (tree w) lp with
        | Some KFile | Some (KLink _) => inl ENOTDIR
        | _ =>
            match last cs with
            | None => inl ENOENT
            | Some c =>
                if String.eqb c "." then inl EINVAL
                else if String.eqb c ".." then inl ENOTEMPTY
                else match get (tree w) (lp ++ [c]) with
                     | None => inl ENOENT
                     | Some (Dir []) =>
                         inr (set_tree w (remove_at (tree w) (lp ++ [c])))
                     | Some (Dir _) => inl ENOTEMPTY
                     | Some _ => inl ENOTDIR
                     end
            end
        end
    end.

(** The directory that is to hold the last component of a path. *)
Definition resolve_parent (w : world) (p : string) : errno + (loc * string) :=
  match last (split_sep p) with
  | None => inl ENOENT
  | Some c =>
      if String.eqb c "" || String.eqb c "." || String.eqb c ".." then
        match resolve false w p with inl e => inl e | inr _ => inl EEXIST end
      else if String.eqb p c then
        match kind_at (tree w) (cwd w) with
        | Some KDir => inr (cwd w, c)
        | _ => inl ENOENT
        end
      else
        let start := if startswith_sep p then [] else cwd w in
        match kind_at (tree w) start with
        | Some KDir =>
            match walk_fuel (S max_links) (tree w) true start
                    (removelast (split_sep p)) with
            | inl e => inl e
            | inr l => match kind_at (tree w) l with
                       | Some KDir => inr (l, c)
                       | Some _ => inl ENOTDIR
                       | None => inl ENOENT
                       end
            end
        | _ => inl ENOENT
        end
  end.

(** [os.symlink(src, dst)]: create the link [dst] with target [src]. *)
Definition os_symlink (w : world) (src dst : string) : errno + world :=
  match resolve_parent w dst with
  | inl e => inl e
  | inr (l, c) =>
      match kind_at (tree w) (l ++ [c]) with
      | Some _ => inl EEXIST
      | None => inr (set_tree w (update_dir (add_entry c (Link src)) (tree w) l))
      end
  end.

(** [os.mkdir]: trailing separators are ignored. *)
Definition os_mkdir (w : world) (p : string) : errno + world :=
  match resolve_parent w (if all_sep p then p else rstrip_sep p) with
  | inl e => inl e
  | inr (l, c) =>
      match kind_at (tree w) (l ++ [c]) with
      | Some _ => inl EEXIST
      | None => inr (set_tree w (update_dir (add_entry c (Dir [])) (tree w) l))
      end
  end.

(** ** Exceptions and the monad of the embedding *)

Inductive exn :=
  | ValueError
  | TypeError
  | AssertionError
  | IOError
  | OSError (code : option errno).

(** [exc.errno == errno.ENOENT] *)
Definition is_ENOENT (code : option errno) : bool :=
  match code with
  | Some ENOENT => true
  | _ => false
  end.

Inductive res (A : Type) :=
  | Ok (a : A)
  | Raise (e : exn).
Arguments Ok {A} a.
Arguments Raise {A} e.

(** A computation reads and changes the world and returns or raises; the
    changes made before an exception stay. *)
Definition io (A : Type) : Type := world -> res A * world.

Definition raise {A} (e : exn) : io A := fun w => (Raise e, w).

#[global] Instance io_ret : MRet io := fun A a w => (Ok a, w).

#[global] Instance io_bind : MBind io := fun A B f m w =>
  match m w with
  | (Ok a, w') => f a w'
  | (Raise e, w') => (Raise e, w')
  end.

(** [try: m  except ...: h]; the handler declines with [None]. *)
Definition try_except {A} (m : io A) (h : exn -> option (io A)) : io A :=
  fun w => match m w with
           | (Ok a, w') => (Ok a, w')
           | (Raise e, w') =>
               match h e with
               | Some k => k w'
               | None => (Raise e, w')
               end
           end.

(** Reading the file system. *)
Definition query {A} (f : world -> A) : io A := fun w => (Ok (f w), w).

(** A system call that fails with an [errno] raises [OSError]. *)
Definition syscall (f : world -> errno + world) : io unit :=
  fun w => match f w with
           | inl e => (Raise (OSError (Some e)), w)
           | inr w' => (Ok tt, w')
           end.

Definition os_path_exists (p : string) : io bool := query (fun w => path_exists w p).

Definition os_listdir (p : string) : io (list string) :=
  fun w => match listdir w p with
           | inl e => (Raise (OSError (Some e)), w)
           | inr names => (Ok names, w)
           end.

(** [shutil.rmtree(path)], as CPython 3.11 does it where directory
    descriptors are available: [os.lstat(path)], then [os.open(path)],
    which follows a link in the last place; when the two are not the same
    file the path is a symbolic link, which is refused without an [errno].
    A file fails in [os.scandir].  A directory is emptied, with all below
    it, and then [os.rmdir(path)] is called, on the path as it was given:
    that call fails when the path ends in ["."] or [".."], when it names a
    link to the directory, and on the root. *)
Definition shutil_rmtree (p : string) : io unit :=
  fun w =>
    match resolve false w p with
    | inl e => (Raise (OSError (Some e)), w)
    | inr l0 =>
        match kind_at (tree w) l0 with
        | None => (Raise (OSError (Some ENOENT)), w)
        | Some _ =>
            match resolve true w p with
            | inl e => (Raise (OSError (Some e)), w)
            | inr l =>
                if negb (bool_decide (l = l0)) then (Raise (OSError None), w)
                else
                  match get (tree w) l with
                  | Some (Dir _) =>
                      let w1 := set_tree w (update_dir (fun _ => []) (tree w) l) in
                      match os_rmdir w1 p with
                      | inl e => (Raise (OSError (Some e)), w1)
                      | inr w2 => (Ok tt, w2)
                      end
                  | Some File => (Raise (OSError (Some ENOTDIR)), w)
                  | _ => (Raise (OSError (Some ENOENT)), w)
                  end
            end
        end
    end.

(** [os.makedirs(name)], with [exist_ok=False]: the missing parents are
    made first, a parent that shows up in between ([FileExistsError]) is
    accepted, and the final [os.mkdir] fails on a path that exists.  Each
    recursive call is on a proper prefix of the name, so the length of the
    name bounds the depth; the bound is never reached. *)
Fixpoint os_makedirs_fuel (fuel : nat) (name : string) : io unit :=
  match fuel with
  | O => raise (OSError None)
  | S fuel' =>
      let (head, tail) := path_split name in
      let (head, tail) :=
        if String.eqb tail "" then path_split head else (head, tail) in
      let mkdir := syscall (fun w => os_mkdir w name) in
      if negb (String.eqb head "") && negb (String.eqb tail "") then
        present ← os_path_exists head;
        if negb present then
          try_except (os_makedirs_fuel fuel' head)
            (fun exc => match exc with
                        | OSError (Some EEXIST) => Some (mret tt)
                        | _ => None
                        end) ;;
          if String.eqb tail "." then mret tt else mkdir
        else mkdir
      else mkdir
  end.

Definition os_makedirs (name : string) : io unit :=
  os_makedirs_fuel (S (String.length name)) name.

(** [LOG.warning("Invalid backup name: %s, Error: %s", name, ex)] *)
Definition log_warning (arg : string) : io unit :=
  fun w => (Ok tt, World (tree w) (cwd w) (warnings w ++ [arg])).

(** ** Sorting

    [list.sort(key=...)] is a stable ascending sort; insertion from the
    right is one. *)

Section Sort.
Context {A : Type} (key : A -> string).

Fixpoint insert_by (x : A) (l : list A) : list A :=
  match l with
  | [] => [x]
  | y :: l' => if String.leb (key x) (key y) then x :: l else y :: insert_by x l'
  end.

Fixpoint sort_by (l : list A) : list A :=
  match l with
  | [] => []
  | x :: l' => insert_by x (sort_by l')
  end.
End Sort.

(** Ascending and strictly ascending order of the sort keys. *)
Definition key_le {A} (key : A -> string) (a b : A) : Prop :=
  String.leb (key a) (key b) = true.
Definition key_lt {A} (key : A -> string) (a b : A) : Prop :=
  String.ltb (key a) (key b) = true.

(** ** The classes of [holland.core.spool] *)

(** A [Backup] handle.  Its [config] (a [BaseConfig] bound to
    [<path>/backup.conf]) belongs to the configuration engine and takes
    no part in listing, lookup, purging or the links. *)
Record Backup := {
  backup_path : string;
  backup_backupset : string;
  backup_name : string
}.

Record Backupset := {
  backupset_name : string;
  backupset_path : string
}.

Record Spool := { spool_path : string }.

(** [Backup.__init__]: [self.name = "/".join((backupset, name))]. *)
Definition Backup_init (path backupset name : string) : Backup :=
  {| backup_path := path;
     backup_backupset := backupset;
     backup_name := backupset +:+ "/" +:+ name |}.

Definition Backupset_init (name path : string) : Backupset :=
  {| backupset_name := name; backupset_path := path |}.

(** [Spool.__init__]: [self.path = path or "/var/spool/holland"]. *)
Definition Spool_init (path : option string) : Spool :=
  {| spool_path := if truthy (or_empty path) then or_empty path
                   else "/var/spool/holland" |}.

(** The state of the generator that [Backupset.purge] returns. *)
Inductive purge_gen :=
  | Created (retention_count : Z)    (* the body has not started *)
  | Suspended (rest : list Backup)   (* at [yield], with the rest of the slice *)
  | Finished.

Section Classes.
(** [strptime_ok s]: [time.strptime(s, "%Y%m%d_%H%M%S")] does not raise
    [ValueError]. *)
Variable strptime_ok : string -> bool.
(** [os.path.realpath] *)
Variable realpath : world -> string -> string.

(** *** Backup *)

Definition Backup_purge (self : Backup) : io unit :=
  real ← query (fun w => realpath w (backup_path self));
  if String.eqb real "/" then raise AssertionError
  else
    try_except (shutil_rmtree (backup_path self))
      (fun exc => match exc with
                  | OSError code =>
                      if is_ENOENT code then Some (mret tt) else None
                  | _ => None
                  end).

Definition Backup_exists (self : Backup) : io bool :=
  os_path_exists (backup_path self).

(** [Backup.prepare]; the [LOG.info] message is not recorded. *)
Definition Backup_prepare (self : Backup) : io unit :=
  os_makedirs (backup_path self).

(** *** Backupset *)

Definition is_backup_dir (w : world) (self : Backupset) (backup : string) : bool :=
  let path := path_join (backupset_path self) backup in
  path_isdir w path && negb (path_islink w path) && strptime_ok backup.

Definition Backupset_list_backups (self : Backupset)
    (name : option string) (reverse : bool) : io (option (list Backup)) :=
  present ← os_path_exists (backupset_path self);
  if negb present then mret None
  else
    let name := strip (or_empty name) in
    if truthy name then
      let path := path_join (backupset_path self) name in
      found ← os_path_exists path;
      mret (Some (if (found : bool) then [Backup_init path (backupset_name self) name] else []))
    else
      names ← os_listdir (backupset_path self);
      dirs ← query (fun w => List.filter (is_backup_dir w self) names);
      let backup_list :=
        map (fun d => Backup_init (path_join (backupset_path self) d)
                        (backupset_name self) d) dirs in
      let backup_list := sort_by backup_name backup_list in
      mret (Some (if reverse then rev backup_list else backup_list)).

Definition Backupset_find_backup (self : Backupset) (name : string)
    : io (option Backup) :=
  backups ← Backupset_list_backups self (Some name) false;
  match backups with
  | None | Some [] => mret None
  | Some (b :: _) => mret (Some b)
  end.

(** Calling the generator function runs none of its body. *)
Definition Backupset_purge (self : Backupset) (retention_count : Z) : purge_gen :=
  Created retention_count.

(** One turn of the loop of [purge], for the rest of the slice. *)
Definition purge_loop (rest : list Backup) : io (option Backup * purge_gen) :=
  match rest with
  | [] => mret (None, Finished)
  | backup :: rest' =>
      Backup_purge backup ;; mret (Some backup, Suspended rest')
  end.

(** [next(gen)]: [None] stands for [StopIteration]; after an exception
    the generator is finished. *)
Definition purge_next (self : Backupset) (g : purge_gen)
    : io (option Backup * purge_gen) :=
  match g with
  | Created retention_count =>
      if (retention_count <? 0)%Z then raise ValueError
      else
        backups ← Backupset_list_backups self None true;
        match backups with
        | None => raise TypeError
        | Some l => purge_loop (drop (Z.to_nat retention_count) l)
        end
  | Suspended rest => purge_loop rest
  | Finished => mret (None, Finished)
  end.

(** [list(gen)] from a suspended generator. *)
Fixpoint purge_drain (rest : list Backup) : io (list Backup) :=
  match rest with
  | [] => mret []
  | backup :: rest' =>
      Backup_purge backup ;;
      ys ← purge_drain rest';
      mret (backup :: ys)
  end.

(** [list(gen)] *)
Definition purge_list (self : Backupset) (g : purge_gen) : io (list Backup) :=
  match g with
  | Created retention_count =>
      if (retention_count <? 0)%Z then raise ValueError
      else
        backups ← Backupset_list_backups self None true;
        match backups with
        | None => raise TypeError
        | Some l => purge_drain (drop (Z.to_nat retention_count) l)
        end
  | Suspended rest => purge_drain rest
  | Finished => mret []
  end.

(** [os.remove(link)] with [ENOENT] swallowed. *)
Definition remove_link (link : string) : io unit :=
  try_except (syscall (fun w => os_remove w link))
    (fun exc => match exc with
                | OSError code =>
                    if is_ENOENT code then Some (mret tt) else None
                | _ => None
                end).

Definition Backupset_update_symlinks (self : Backupset) (enable : bool) : io unit :=
  if negb enable then mret tt
  else
    backups ← Backupset_list_backups self None false;
    let oldest_link := path_join (backupset_path self) "oldest" in
    let newest_link := path_join (backupset_path self) "newest" in
    remove_link oldest_link ;;
    remove_link newest_link ;;
    match backups with
    | None | Some [] => mret tt
    | Some (first :: others) =>
        let oldest_path := backup_path first in
        let newest_path := backup_path (List.last others first) in
        syscall (fun w => os_symlink w oldest_path oldest_link) ;;
        syscall (fun w => os_symlink w newest_path newest_link)
    end.

(** *** Spool *)

Definition Spool_find_backupset (self : Spool) (backupset_name : string)
    : io (option Backupset) :=
  let path := path_join (spool_path self) backupset_name in
  present ← os_path_exists path;
  if negb present then mret None
  else mret (Some (Backupset_init backupset_name path)).

Definition Spool_add_backupset (self : Spool) (backupset_name : string)
    : io Backupset :=
  let path := path_join (spool_path self) backupset_name in
  present ← os_path_exists path;
  if (present : bool) then raise IOError
  else mret (Backupset_init backupset_name path).

Definition Spool_find_backup (self : Spool) (name : string) : io (option Backup) :=
  try_except
    (match split_sep name with
     | [backupset_name; timestamp] =>
         backupset ← Spool_find_backupset self backupset_name;
         match backupset with
         | Some backupset => Backupset_find_backup backupset timestamp
         | None => mret None
         end
     | _ => raise ValueError
     end)
    (fun ex => match ex with
               | ValueError => Some (log_warning name ;; mret None)
               | _ => None
               end).

(** [Backupset.add_backup]; [backup_name] is what [timestamp_dir()]
    returns, the local time of the call as [%Y%m%d_%H%M%S]. *)
Definition Backupset_add_backup (self : Backupset) (backup_name : string)
    : io Backup :=
  let backup_path := path_join (backupset_path self) backup_name in
  let backup := Backup_init backup_path (backupset_name self) backup_name in
  Backup_prepare backup ;;
  mret backup.

(** [Spool.add_backup], with the time of the call as for
    [Backupset.add_backup]. *)
Definition Spool_add_backup (self : Spool) (backupset_name timestamp : string)
    : io Backup :=
  found ← Spool_find_backupset self backupset_name;
  backupset ← match found with
              | Some backupset => mret backupset
              | None => Spool_add_backupset self backupset_name
              end;
  Backupset_add_backup backupset timestamp.

(** [Spool.list_backupsets]: the name is used as given ([if name:], no
    stripping), and a named entry is not required to be a directory. *)
Definition Spool_list_backupsets (self : Spool) (name : option string)
    (reverse : bool) : io (list Backupset) :=
  present ← os_path_exists (spool_path self);
  if negb present then mret []
  else
    let finish (dirs : list string) : io (list Backupset) :=
      let backupsets :=
        map (fun d => Backupset_init d (path_join (spool_path self) d)) dirs in
      let backupsets := sort_by backupset_name backupsets in
      mret (if reverse then rev backupsets else backupsets) in
    if truthy (or_empty name) then
      found ← os_path_exists (path_join (spool_path self) (or_empty name));
      if negb found then mret [] else finish [or_empty name]
    else
      names ← os_listdir (spool_path self);
      dirs ← query (fun w =>
                List.filter (fun backupset =>
                               path_isdir w (path_join (spool_path self) backupset))
                  names);
      finish dirs.

(** The loop of [Spool.list_backups] over the backupsets; iterating over
    the [None] of a missing backupset directory is a [TypeError]. *)
Fixpoint list_backups_of (backupsets : list Backupset) : io (list Backup) :=
  match backupsets with
  | [] => mret []
  | backupset :: rest =>
      backups ← Backupset_list_backups backupset None false;
      match backups with
      | None => raise TypeError
      | Some l => more ← list_backups_of rest; mret (l ++ more)
      end
  end.

(** [list(Spool.list_backups(backupset_name))]: the generator, consumed. *)
Definition Spool_list_backups (self : Spool) (backupset_name : option string)
    : io (list Backup) :=
  backupsets ← Spool_list_backupsets self backupset_name false;
  list_backups_of backupsets.

(** [list(iter(backupset))], with [Backupset.__iter__]. *)
Definition Backupset_iter (self : Backupset) : io (list Backup) :=
  backups ← Backupset_list_backups self None false;
  match backups with
  | None => raise TypeError
  | Some l => mret l
  end.

(** [_cmp = lambda x, y: (x > y) - (x < y)] on strings. *)
Definition cmp_string (x y : string) : Z :=
  (Z.b2z (String.ltb y x) - Z.b2z (String.ltb x y))%Z.

(** [Backupset.__cmp__] *)
Definition Backupset_cmp (self other : Backupset) : Z :=
  cmp_string (backupset_name self) (backupset_name other).
End Classes.

(** ** Vocabulary of the statements *)

(** The absolute path of a location. *)
Definition render (l : loc) : string := "/" +:+ String.concat "/" l.

(** What is assumed of [os.path.realpath]: on a path that resolves, it
    returns the absolute path of the location the path resolves to. *)
Definition realpath_resolved (realpath : world -> string -> string) : Prop :=
  forall w p l, resolve true w p = inr l -> realpath w p = render l.

(** [p] is a normalised absolute path (no empty, ["."] or [".."]
    component, no symbolic link on the way) to the directory at [cp],
    whose entries are [es]. *)
Definition directory_at (w : world) (p : string) (cp : loc)
    (es : list (string * node)) : Prop :=
  startswith_sep p = true /\
  split_sep p = "" :: cp /\
  Forall (fun c => valid_name c = true) cp /\
  get (tree w) cp = Some (Dir es).

(** The names of a directory are distinct and are file names. *)
Definition entries_ok (es : list (string * node)) : Prop :=
  NoDup (map fst es) /\ Forall (fun c => valid_name c = true) (map fst es).

(** The entry is a real directory (not a link to one). *)
Definition is_real_dir (es : list (string * node)) (c : string) : bool :=
  match lookup_entry c es with
  | Some (Dir _) => true
  | _ => false
  end.

Definition mem (c : string) (l : list string) : bool :=
  existsb (String.eqb c) l.

(** The timestamp part of a backup's name, [self.name = backupset/timestamp]. *)
Definition make_backup (self : Backupset) (d : string) : Backup :=
  Backup_init (path_join (backupset_path self) d) (backupset_name self) d.

(** The names of the backups in a directory with the entries [es]: the
    real directories with a name that [strptime_ok] accepts, in ascending
    order. *)
Definition backup_dirs (strptime_ok : string -> bool)
    (es : list (string * node)) : list string :=
  sort_by id (List.filter (fun d => is_real_dir es d && strptime_ok d) (map fst es)).

(** The entries that are left when the names in [ds] are removed. *)
Definition without (ds : list string) (es : list (string * node)) :=
  List.filter (fun e => negb (mem (fst e) ds)) es.

(** A tree in which every location is gone or of the kind it has in the
    other tree. *)
Definition shrunk (t t' : node) : Prop :=
  forall q, kind_at t' q = None \/ kind_at t' q = kind_at t q.

(** ** A sample spool *)

Definition two_digits (a b : ascii) : option nat :=
  match Ascii.is_nat a, Ascii.is_nat b with
  | Some x, Some y => Some (10 * x + y)
  | _, _ => None
  end.

Definition leap_year (y : nat) : bool :=
  ((y mod 4 =? 0) && (negb (y mod 100 =? 0) || (y mod 400 =? 0)))%nat.

Definition days_in_month (y m : nat) : nat :=
  match m with
  | 2 => if leap_year y then 29 else 28
  | 4 | 6 | 9 | 11 => 30
  | _ => 31
  end.

(** The names of the form [YYYYMMDD_HHMMSS]: zero-padded fields of a
    valid date and time, as [timestamp_dir] makes them. *)
Definition padded_timestamp (s : string) : bool :=
  match list_ascii_of_string s with
  | [y1; y2; y3; y4; m1; m2; d1; d2; u; h1; h2; n1; n2; s1; s2] =>
      match two_digits y1 y2, two_digits y3 y4, two_digits m1 m2,
            two_digits d1 d2, two_digits h1 h2, two_digits n1 n2,
            two_digits s1 s2 with
      | Some ya, Some yb, Some m, Some d, Some h, Some mi, Some se =>
          let y := 100 * ya + yb in
          (Ascii.eqb u "_" && (1 <=? y) && (1 <=? m) && (m <=? 12)
           && (1 <=? d) && (d <=? days_in_month y m)
           && (h <=? 23) && (mi <=? 59) && (se <=? 61))%nat
      | _, _, _, _, _, _, _ => false
      end
  | _ => false
  end.

(** *** [time.strptime]

    [time.strptime(s, "%Y%m%d_%H%M%S")] makes of the format the regular
    expression

    [(\d\d\d\d)(1[0-2]|0[1-9]|[1-9])(3[0-1]|[1-2]\d|0[1-9]|[1-9]| [1-9])_]
    [(2[0-3]|[0-1]\d|\d)([0-5]\d|\d)(6[0-1]|[0-5]\d|\d)],

    takes the first match of it at the start of [s], the alternatives tried
    in their order, raises [ValueError] when there is none or when it ends
    before [s] does, and then checks the date.  The model is for names of
    ASCII characters ([\d] also matches the other decimal digits of
    Unicode). *)

Inductive char_class :=
  | Digit (lo hi : nat)   (* a digit between [lo] and [hi] *)
  | Blank.                (* a space *)

(** One alternative of a field at the start of [s]: the number read so
    far, and what is left of [s]. *)
Fixpoint match_alternative (alt : list char_class) (value : nat)
    (s : list ascii) : option (nat * list ascii) :=
  match alt with
  | [] => Some (value, s)
  | class :: alt' =>
      match s with
      | [] => None
      | c :: s' =>
          match class with
          | Digit lo hi =>
              match Ascii.is_nat c with
              | Some n =>
                  if ((lo <=? n) && (n <=? hi))%nat
                  then match_alternative alt' (10 * value + n) s'
                  else None
              | None => None
              end
          | Blank =>
              if Ascii.eqb c " " then match_alternative alt' value s' else None
          end
      end
  end.

(** All the ways a field matches, in the order of its alternatives. *)
Definition match_field (alts : list (list char_class)) (s : list ascii)
    : list (nat * list ascii) :=
  omap (fun alt => match_alternative alt 0 s) alts.

Definition year_field := [[Digit 0 9; Digit 0 9; Digit 0 9; Digit 0 9]].
Definition month_field := [[Digit 1 1; Digit 0 2]; [Digit 0 0; Digit 1 9]; [Digit 1 9]].
Definition day_field :=
  [[Digit 3 3; Digit 0 1]; [Digit 1 2; Digit 0 9]; [Digit 0 0; Digit 1 9];
   [Digit 1 9]; [Blank; Digit 1 9]].
Definition hour_field := [[Digit 2 2; Digit 0 3]; [Digit 0 1; Digit 0 9]; [Digit 0 9]].
Definition minute_field := [[Digit 0 5; Digit 0 9]; [Digit 0 9]].
Definition second_field := [[Digit 6 6; Digit 0 1]; [Digit 0 5; Digit 0 9]; [Digit 0 9]].

Definition match_underscore (s : list ascii) : list (list ascii) :=
  match s with
  | c :: s' => if Ascii.eqb c "_" then [s'] else []
  | [] => []
  end.

(** The matches of the expression at the start of [s], in the order in
    which backtracking finds them: year, month, day and the rest of [s]. *)
Definition strptime_matches (s : list ascii) : list (nat * nat * nat * list ascii) :=
  '(year, s) ← match_field year_field s;
  '(month, s) ← match_field month_field s;
  '(day, s) ← match_field day_field s;
  s ← match_underscore s;
  '(_, s) ← match_field hour_field s;
  '(_, s) ← match_field minute_field s;
  '(_, s) ← match_field second_field s;
  mret (year, month, day, s).

(** [time.strptime(name, "%Y%m%d_%H%M%S")] does not raise [ValueError]. *)
Definition strptime_accepts (name : string) : bool :=
  match strptime_matches (list_ascii_of_string name) with
  | (year, month, day, []) :: _ =>
      ((1 <=? year) && (day <=? days_in_month year month))%nat
  | _ => false
  end.

(** The characters of ASCII, and the names made of them. *)
Definition is_ascii (c : ascii) : bool :=
  match c with Ascii _ _ _ _ _ _ _ b7 => negb b7 end.

Definition ascii_name (name : string) : bool :=
  forallb is_ascii (list_ascii_of_string name).

(** What is assumed of the test [strptime_ok] that [list_backups] is given
    for [time.strptime(name, "%Y%m%d_%H%M%S")]: on the names of ASCII
    characters it is the model above. *)
Definition strptime_models (strptime_ok : string -> bool) : Prop :=
  forall name, ascii_name name = true -> strptime_ok name = strptime_accepts name.

(** *** [os.path.realpath] *)

Fixpoint count_links (t : node) : nat :=
  match t with
  | File => 0
  | Link _ => 1
  | Dir es =>
      (fix go (es : list (string * node)) : nat :=
         match es with
         | [] => 0
         | e :: es' => count_links (snd e) + go es'
         end) es
  end.

(** What [posixpath.normpath] does to the components of an absolute path. *)
Fixpoint normalise (path : loc) (cs : list string) : loc :=
  match cs with
  | [] => path
  | c :: cs' =>
      if String.eqb c "" || String.eqb c "." then normalise path cs'
      else if String.eqb c ".." then normalise (removelast path) cs'
      else normalise (path ++ [c]) cs'
  end.

(** The number of separators that the rest of a path starts with. *)
Fixpoint leading_separators (rest : list string) : nat :=
  match rest with
  | "" :: (_ :: _) as rest' => S (leading_separators rest')
  | _ => 0
  end.

(** [join(path, rest)] for a path that could not be resolved, as
    components still to be normalised: a rest that starts with a separator
    replaces the path.  The flag says that the result starts with exactly
    two separators, which [normpath] keeps. *)
Definition join_rest (two : bool) (path rest : list string) : bool * list string :=
  match leading_separators rest with
  | 0 => (two, path ++ rest)
  | n => (Nat.eqb n 2, rest)
  end.

(** The loop of [posixpath._joinrealpath], not strict: [path] is the real
    path so far, from the root, and [rest] what is left; a name that is
    not there is kept as it is; a link is replaced by the real path of its
    target, unless the link is among those being resolved ([seen]), which
    ends the loop with what is left unresolved.  The links under
    resolution are distinct, so a depth above their number is never
    reached. *)
Fixpoint joinrealpath (fuel : nat) (t : node) (seen : list loc) (path : loc)
    (rest : list string) {struct fuel} : (bool * list string) + loc :=
  match fuel with
  | O => inl (join_rest false path rest)
  | S fuel' =>
      (fix loop (path : loc) (rest : list string) {struct rest}
           : (bool * list string) + loc :=
         match rest with
         | [] => inr path
         | name :: rest' =>
             if String.eqb name "" || String.eqb name "." then loop path rest'
             else if String.eqb name ".." then loop (removelast path) rest'
             else
               let newpath := path ++ [name] in
               match kind_at t newpath with
               | Some (KLink target) =>
                   if bool_decide (newpath ∈ seen)
                   then inl (join_rest false newpath rest')
                   else
                     match joinrealpath fuel' t (newpath :: seen)
                             (if startswith_sep target then [] else path)
                             (split_sep target) with
                     | inr path' => loop path' rest'
                     | inl (two, unresolved) => inl (join_rest two unresolved rest')
                     end
               | _ => loop newpath rest'
               end
         end) path rest
  end.

(** [os.path.realpath(p)], for a working directory that exists.  On a
    path that the kernel resolves it is the absolute path of the location;
    on the others (a name that is not there, a loop of links, more links
    than the kernel follows) the loop above decides, and [abspath]
    normalises what is left unresolved. *)
Definition resolved_realpath (w : world) (p : string) : string :=
  match resolve true w p with
  | inr l => render l
  | inl _ =>
      match joinrealpath (S (count_links (tree w))) (tree w) []
              (if startswith_sep p then [] else cwd w) (split_sep p) with
      | inr path => render path
      | inl (two, unresolved) =>
          (if two then "/" else "") +:+ render (normalise [] unresolved)
      end
  end.

Definition mysql_entries : list (string * node) :=
  [("20200103_000000", Dir [("backup.conf", File)]);
   ("notes", Dir []);
   ("20200101_000000", Dir [("backup.conf", File)]);
   ("oldest", Link "/var/spool/holland/mysql/20200101_000000");
   ("20200102_000000", Dir []);
   ("20191231_235959", File)].

Definition sample_tree : node :=
  Dir [("var", Dir [("spool", Dir [("holland",
         Dir [("mysql", Dir mysql_entries);
              ("empty", Dir []);
              ("afile", File)])])])].

Definition sample_world : world := World sample_tree [] [].
Definition sample_spool : Spool := Spool_init None.
Definition mysql : Backupset :=
  Backupset_init "mysql" "/var/spool/holland/mysql".
Definition mysql_loc : loc := ["var"; "spool"; "holland"; "mysql"].

(** * Properties *)


#[local] Opaque max_links.
#[local] Arguments walk_fuel : simpl never.
#[local] Arguments resolve : simpl never.
#[local] Arguments resolve_parent : simpl never.
#[local] Arguments stat : simpl never.
#[local] Arguments lstat : simpl never.
#[local] Arguments path_exists : simpl never.
#[local] Arguments path_isdir : simpl never.
#[local] Arguments path_islink : simpl never.
#[local] Arguments readlink : simpl never.
#[local] Arguments listdir : simpl never.
#[local] Arguments path_join : simpl never.
#[local] Arguments strip : simpl never.

(** ** Strings: splitting and joining *)

Lemma string_app_cons c a b : String c a +:+ b = String c (a +:+ b).
Proof. reflexivity. Qed.

Lemma string_app_empty b : "" +:+ b = b.
Proof. reflexivity. Qed.

Lemma split_sep_cons s : exists w ws, split_sep s = w :: ws.
Proof.
  destruct s as [|c s]; simpl; [eauto|].
  destruct (is_sep c); [eauto|]. destruct (split_sep s); eauto.
Qed.

Lemma split_sep_no_sep s : has_sep s = false -> split_sep s = [s].
Proof.
  induction s as [|c s IH]; simpl; [done|].
  intros [Hc Hs]%orb_false_iff. rewrite Hc, (IH Hs). done.
Qed.

Lemma split_sep_app a b :
  split_sep (a +:+ "/" +:+ b) = split_sep a ++ split_sep b.
Proof.
  induction a as [|c a IH].
  - done.
  - rewrite string_app_cons. simpl. rewrite IH.
    destruct (is_sep c); [done|].
    destruct (split_sep_cons a) as (w & ws & ->). done.
Qed.

Lemma split_sep_String c s :
  split_sep (String c s) =
    if is_sep c then "" :: split_sep s
    else match split_sep s with
         | [] => [String c ""]
         | w :: ws => String c w :: ws
         end.
Proof. reflexivity. Qed.

Lemma split_sep_empty_inv s : split_sep s = [""] -> s = "".
Proof.
  destruct s as [|c s]; [done|]. rewrite split_sep_String.
  destruct (is_sep c).
  - destruct (split_sep_cons s) as (w & ws & ->). done.
  - destruct (split_sep s); done.
Qed.

Lemma endswith_sep_last s :
  endswith_sep s = true -> last (split_sep s) = Some "".
Proof.
  induction s as [|c s IH]; [done|].
  destruct s as [|c' s'].
  - simpl. intros ->. done.
  - intros H. specialize (IH H). revert IH.
    rewrite (split_sep_String c).
    destruct (split_sep_cons (String c' s')) as (w & ws & Hs). rewrite Hs.
    destruct (is_sep c).
    + intros IH. by rewrite last_cons, IH.
    + destruct ws as [|w' ws]; [|by rewrite !last_cons_cons].
      simpl. intros [= ->]. by apply split_sep_empty_inv in Hs.
Qed.

Lemma valid_name_spec c :
  valid_name c = true ->
  has_sep c = false /\ c <> "" /\ c <> "." /\ c <> "..".
Proof.
  unfold valid_name. rewrite !andb_true_iff, !negb_true_iff.
  intros [[[? ?%String.eqb_neq] ?%String.eqb_neq] ?%String.eqb_neq]. done.
Qed.

Lemma valid_name_not_abs c : valid_name c = true -> startswith_sep c = false.
Proof.
  intros (Hs & _)%valid_name_spec. destruct c as [|a c]; [done|].
  simpl in *. by apply orb_false_iff in Hs as [? _].
Qed.

(** Joining a normalised absolute path and a name appends a component. *)
Lemma split_sep_join p cp d :
  startswith_sep p = true ->
  split_sep p = "" :: cp -> Forall (fun c => valid_name c = true) cp ->
  valid_name d = true ->
  path_join p d = p +:+ "/" +:+ d /\
  split_sep (path_join p d) = "" :: cp ++ [d].
Proof.
  intros Habs Hp Hcp Hd.
  assert (path_join p d = p +:+ "/" +:+ d) as ->.
  { unfold path_join. rewrite (valid_name_not_abs d Hd).
    destruct (String.eqb_spec p "") as [->|Hne]; [done|]. simpl.
    destruct (endswith_sep p) eqn:He; [|done].
    apply endswith_sep_last in He. rewrite Hp, last_cons in He.
    destruct (last cp) as [c|] eqn:Hl.
    - simplify_eq. apply last_Some_elem_of in Hl.
      rewrite Forall_forall in Hcp. by apply Hcp in Hl.
    - apply last_None in Hl as ->. by apply split_sep_empty_inv in Hp. }
  split; [done|]. rewrite split_sep_app, Hp.
  apply valid_name_spec in Hd as (Hd & _).
  by rewrite (split_sep_no_sep d Hd).
Qed.

(** ** Strings: order *)

Lemma ascii_compare_refl c : Ascii.compare c c = Eq.
Proof. unfold Ascii.compare. apply N.compare_refl. Qed.

Lemma string_compare_app p a b :
  String.compare (p +:+ a) (p +:+ b) = String.compare a b.
Proof.
  induction p as [|c p IH]; [done|].
  rewrite !string_app_cons. simpl. by rewrite ascii_compare_refl.
Qed.

Lemma string_leb_app p a b : String.leb (p +:+ a) (p +:+ b) = String.leb a b.
Proof. unfold String.leb. by rewrite string_compare_app. Qed.

Lemma string_ltb_app p a b : String.ltb (p +:+ a) (p +:+ b) = String.ltb a b.
Proof. unfold String.ltb. by rewrite string_compare_app. Qed.

Lemma string_leb_refl a : String.leb a a = true.
Proof. destruct (String.leb_total a a); done. Qed.

Lemma string_leb_trans a b c :
  String.leb a b = true -> String.leb b c = true -> String.leb a c = true.
Proof.
  intros H1 H2. apply Is_true_true. apply Is_true_true in H1, H2.
  change (String.le a c). by trans b.
Qed.

Lemma string_ltb_leb a b : String.ltb a b = true <-> String.leb a b = true /\ a <> b.
Proof.
  unfold String.ltb, String.leb. split.
  - destruct (String.compare a b) eqn:E; try done.
    intros _. split; [done|]. intros ->.
    assert (String.leb b b = true) as H by apply string_leb_refl.
    unfold String.leb in H. rewrite String.compare_antisym in E.
    destruct (String.compare b b); done.
  - intros [H Hne]. destruct (String.compare a b) eqn:E; try done.
    by apply String.compare_eq_iff in E.
Qed.

Lemma string_leb_false a b : String.leb a b = false -> String.leb b a = true.
Proof. destruct (String.leb_total a b) as [->| ->]; done. Qed.

(** ** Sorting *)

Section SortFacts.
Context {A : Type} (key : A -> string).

Lemma insert_by_perm x l : insert_by key x l ≡ₚ x :: l.
Proof.
  induction l as [|y l IH]; simpl; [done|].
  destruct (String.leb (key x) (key y)); [done|].
  rewrite IH. apply Permutation_swap.
Qed.

Lemma sort_by_perm l : sort_by key l ≡ₚ l.
Proof.
  induction l as [|x l IH]; simpl; [done|].
  by rewrite insert_by_perm, IH.
Qed.

Lemma insert_by_sorted x l :
  StronglySorted (key_le key) l -> StronglySorted (key_le key) (insert_by key x l).
Proof.
  induction 1 as [|y l Hs IH Hy]; simpl.
  - repeat constructor.
  - destruct (String.leb (key x) (key y)) eqn:E.
    + constructor; [by constructor|]. constructor; [done|].
      eapply Forall_impl; [exact Hy|]. intros z Hz.
      unfold key_le in *. by eapply string_leb_trans.
    + constructor; [done|].
      rewrite (insert_by_perm x l). constructor; [|done].
      by apply string_leb_false.
Qed.

Lemma sort_by_sorted l : StronglySorted (key_le key) (sort_by key l).
Proof.
  induction l as [|x l IH]; simpl; [constructor|]. by apply insert_by_sorted.
Qed.

Lemma sorted_strict l :
  NoDup (map key l) -> StronglySorted (key_le key) l -> StronglySorted (key_lt key) l.
Proof.
  induction l as [|x l IH]; simpl; intros Hnd Hs; [constructor|].
  apply NoDup_cons in Hnd as [Hx Hnd]. apply StronglySorted_inv in Hs as [Hs Hall].
  constructor; [by apply IH|].
  rewrite Forall_forall in Hall |- *. intros y Hy.
  apply string_ltb_leb. split; [by apply Hall|].
  intros E. apply Hx. rewrite E. by apply list_elem_of_fmap_2.
Qed.

Lemma insert_by_filter (P : A -> bool) x l :
  StronglySorted (key_le key) l ->
  List.filter P (insert_by key x l) =
    if P x then insert_by key x (List.filter P l) else List.filter P l.
Proof.
  induction 1 as [|y l Hs IH Hy]; simpl.
  - by destruct (P x).
  - destruct (String.leb (key x) (key y)) eqn:E; simpl.
    + destruct (P x) eqn:Px, (P y) eqn:Py; simpl; rewrite ?E; try done.
      (* [y] is dropped: [x] still goes in front of what is left *)
      clear IH. induction l as [|z l IHl]; simpl; [done|].
      apply Forall_cons in Hy as [Hz Hy].
      apply StronglySorted_inv in Hs as [Hs _].
      destruct (P z); simpl; [|by apply IHl].
      assert (String.leb (key x) (key z) = true) as ->; [|done].
      by eapply string_leb_trans.
    + rewrite IH. destruct (P x), (P y); simpl; rewrite ?E; done.
Qed.

Lemma sort_by_filter (P : A -> bool) l :
  List.filter P (sort_by key l) = sort_by key (List.filter P l).
Proof.
  induction l as [|x l IH]; simpl; [done|].
  rewrite insert_by_filter by apply sort_by_sorted.
  rewrite IH. by destruct (P x).
Qed.

Lemma sort_by_sorted_id l : StronglySorted (key_le key) l -> sort_by key l = l.
Proof.
  induction 1 as [|y l Hs IH Hy]; simpl; [done|].
  rewrite IH. destruct l as [|z l]; simpl; [done|].
  apply Forall_cons in Hy as [Hz _]. unfold key_le in Hz. by rewrite Hz.
Qed.
End SortFacts.

Lemma insert_by_map {A B} (key : B -> string) (f : A -> B) x l :
  insert_by key (f x) (map f l) = map f (insert_by (fun a => key (f a)) x l).
Proof.
  induction l as [|y l IH]; simpl; [done|].
  destruct (String.leb (key (f x)) (key (f y))); simpl; [done|]. by rewrite IH.
Qed.

Lemma sort_by_map {A B} (key : B -> string) (f : A -> B) l :
  sort_by key (map f l) = map f (sort_by (fun a => key (f a)) l).
Proof.
  induction l as [|x l IH]; simpl; [done|]. by rewrite IH, insert_by_map.
Qed.

Lemma sort_by_ext {A} (key key' : A -> string) l :
  (forall a b, String.leb (key a) (key b) = String.leb (key' a) (key' b)) ->
  sort_by key l = sort_by key' l.
Proof.
  intros Hk. induction l as [|x l IH]; simpl; [done|]. rewrite IH.
  generalize (sort_by key' l). intros l'.
  induction l' as [|y l' IH']; simpl; [done|]. by rewrite Hk, IH'.
Qed.

(** ** The directory tree *)

Lemma lookup_entry_map_entry c c' g es :
  lookup_entry c' (map_entry c g es) =
    if String.eqb c c' then g <$> lookup_entry c' es else lookup_entry c' es.
Proof.
  induction es as [|[n x] es IH]; simpl.
  - by destruct (String.eqb c c').
  - destruct (String.eqb n c) eqn:Enc, (String.eqb n c') eqn:Enc',
      (String.eqb c c') eqn:Ecc'; simpl; rewrite ?Enc', ?IH, ?Ecc'; try done;
      rewrite ?String.eqb_eq, ?String.eqb_neq in *; congruence.
Qed.

Lemma lookup_entry_drop_same c es : lookup_entry c (drop_entry c es) = None.
Proof.
  induction es as [|[n x] es IH]; simpl; [done|].
  destruct (String.eqb n c) eqn:E; simpl; [done|]. by rewrite E.
Qed.

Lemma lookup_entry_drop_other c c' es :
  c <> c' -> lookup_entry c' (drop_entry c es) = lookup_entry c' es.
Proof.
  intros Hne. induction es as [|[n x] es IH]; simpl; [done|].
  destruct (String.eqb_spec n c) as [->|Hnc]; simpl.
  - apply String.eqb_neq in Hne. by rewrite Hne.
  - by rewrite IH.
Qed.

Lemma lookup_entry_add c c' x es :
  lookup_entry c' (add_entry c x es) =
    match lookup_entry c' es with
    | Some y => Some y
    | None => if String.eqb c c' then Some x else None
    end.
Proof.
  unfold add_entry. induction es as [|[n y] es IH]; simpl; [done|].
  by destruct (String.eqb n c').
Qed.

Lemma lookup_entry_Some c es x :
  lookup_entry c es = Some x -> (c, x) ∈ es.
Proof.
  induction es as [|[n y] es IH]; simpl; [done|].
  destruct (String.eqb_spec n c) as [->|]; intros H.
  - simplify_eq. apply list_elem_of_here.
  - apply list_elem_of_further. by apply IH.
Qed.

Lemma lookup_entry_None c es : lookup_entry c es = None <-> c ∉ map fst es.
Proof.
  induction es as [|[n y] es IH]; simpl.
  - split; [intros _; apply not_elem_of_nil|done].
  - rewrite not_elem_of_cons.
    destruct (String.eqb_spec n c) as [->|Hne].
    + split; [done|]. by intros [? _].
    + rewrite IH. split; [by split|by intros [_ ?]].
Qed.

Lemma lookup_entry_is_Some c es : c ∈ map fst es -> is_Some (lookup_entry c es).
Proof.
  intros H. destruct (lookup_entry c es) eqn:E; [eauto|].
  by apply lookup_entry_None in E.
Qed.

Lemma get_app t l q : get t (l ++ q) = get t l ≫= fun x => get x q.
Proof.
  revert t. induction l as [|c l IH]; intros t; simpl; [done|].
  destruct t as [|es|]; try done. destruct (lookup_entry c es); [apply IH|done].
Qed.

Lemma get_Dir_step es c q :
  get (Dir es) (c :: q) = lookup_entry c es ≫= fun x => get x q.
Proof. simpl. by destruct (lookup_entry c es). Qed.

(** The directory that is rewritten. *)
Lemma get_update_dir_at f t l es :
  get t l = Some (Dir es) -> get (update_dir f t l) l = Some (Dir (f es)).
Proof.
  revert t. induction l as [|c l IH]; intros t.
  - simpl. by intros [= ->].
  - destruct t as [|es0|]; try done.
    cbn [update_dir]. rewrite !get_Dir_step, lookup_entry_map_entry, String.eqb_refl.
    destruct (lookup_entry c es0) as [t'|] eqn:E; [|done]. simpl.
    by apply IH.
Qed.

(** What is not below the rewritten directory keeps its kind. *)
Lemma kind_at_update_dir_other f t l q :
  (forall c r, q <> l ++ c :: r) ->
  kind_at (update_dir f t l) q = kind_at t q.
Proof.
  unfold kind_at. revert t q. induction l as [|c l IH]; intros t q Hq.
  - destruct q as [|c r]; [|by destruct (Hq c r)].
    simpl. by destruct t.
  - destruct q as [|c' q].
    { simpl. by destruct t. }
    destruct t as [|es0|]; try done.
    cbn [update_dir]. rewrite !get_Dir_step, lookup_entry_map_entry.
    destruct (String.eqb_spec c c') as [->|Hne]; [|by destruct (lookup_entry c' es0)].
    destruct (lookup_entry c' es0) as [t'|]; [|done]. simpl.
    apply IH. intros c0 r ->. by apply (Hq c0 r).
Qed.

(** An entry of the rewritten directory that the rewriting leaves alone
    is unchanged, with all below it. *)
Lemma get_update_dir_sibling f t l c r :
  (forall es, lookup_entry c (f es) = lookup_entry c es) ->
  get (update_dir f t l) (l ++ c :: r) = get t (l ++ c :: r).
Proof.
  intros Hf. revert t. induction l as [|c0 l IH]; intros t.
  - destruct t as [|es|]; try done. simpl. by rewrite Hf.
  - destruct t as [|es0|]; try done.
    rewrite <- !app_comm_cons. cbn [update_dir].
    rewrite !get_Dir_step, lookup_entry_map_entry, String.eqb_refl.
    destruct (lookup_entry c0 es0) as [t'|]; [|done]. simpl. apply IH.
Qed.

Lemma update_dir_compose f g t l :
  update_dir f (update_dir g t l) l = update_dir (fun es => f (g es)) t l.
Proof.
  revert t. induction l as [|c l IH]; intros t.
  - by destruct t.
  - destruct t as [|es|]; try done. cbn [update_dir]. f_equal.
    unfold map_entry. rewrite map_map. apply map_ext_in. intros [n x] _. simpl.
    destruct (String.eqb n c) eqn:E; simpl; [|by rewrite E].
    by rewrite E, IH.
Qed.

Lemma get_remove_at_below t lp c r : get (remove_at t (lp ++ [c])) (lp ++ c :: r) = None.
Proof.
  unfold remove_at. rewrite last_snoc, removelast_last.
  revert t. induction lp as [|c0 lp IH]; intros t.
  - destruct t as [|es|]; try done. simpl. by rewrite lookup_entry_drop_same.
  - destruct t as [|es0|]; try done.
    rewrite <- !app_comm_cons. cbn [update_dir].
    rewrite get_Dir_step, lookup_entry_map_entry, String.eqb_refl.
    destruct (lookup_entry c0 es0) as [t'|]; [|done]. simpl. apply IH.
Qed.

(** After a removal every location is either gone or of the kind it was. *)
Lemma kind_at_remove_at t l q :
  l <> [] ->
  kind_at (remove_at t l) q =
    if bool_decide (l `prefix_of` q) then None else kind_at t q.
Proof.
  intros Hl. destruct (last l) as [c|] eqn:Hlast; [|by apply last_None in Hlast].
  apply last_Some in Hlast as [lp ->].
  case_bool_decide as Hpre.
  - destruct Hpre as [r ->]. unfold kind_at.
    rewrite <- app_assoc. simpl. by rewrite get_remove_at_below.
  - unfold remove_at. rewrite last_snoc, removelast_last.
    destruct (decide (lp `prefix_of` q)) as [[k ->]|Hnp].
    + destruct k as [|c' r].
      * apply kind_at_update_dir_other. intros c0 r0 E.
        rewrite app_nil_r in E. apply (f_equal (@List.length string)) in E.
        rewrite length_app in E. simpl in E. lia.
      * unfold kind_at. rewrite get_update_dir_sibling; [done|].
        intros es. apply lookup_entry_drop_other. intros ->.
        apply Hpre. exists r. by rewrite <- app_assoc.
    + apply kind_at_update_dir_other. intros c0 r0 ->. apply Hnp.
      by eexists.
Qed.

(** ** Path resolution *)

Lemma walk_fuel_S fuel t fl cur cs :
  walk_fuel (S fuel) t fl cur cs =
    walk t fl
      (fun cur tgt rest =>
         if String.eqb tgt "" then inl ENOENT
         else walk_fuel fuel t fl (if startswith_sep tgt then [] else cur)
                (split_sep tgt ++ rest))
      cur cs.
Proof. reflexivity. Qed.

Lemma valid_name_eqb c :
  valid_name c = true ->
  String.eqb c "" = false /\ String.eqb c "." = false /\ String.eqb c ".." = false.
Proof.
  intros (_ & H1 & H2 & H3)%valid_name_spec. by rewrite <- !String.eqb_neq in *.
Qed.

Lemma get_prefix_Dir t l q es :
  get t (l ++ q) = Some (Dir es) -> exists es', get t l = Some (Dir es').
Proof.
  rewrite get_app. destruct (get t l) as [x|]; [|done]. simpl.
  destruct q as [|c q]; simpl.
  - intros [= ->]. eauto.
  - destruct x; try done. eauto.
Qed.

(** Along a chain of real directories the walk just descends. *)
Lemma walk_dirs t fl k cur cs rest es :
  Forall (fun c => valid_name c = true) cs ->
  get t (cur ++ cs) = Some (Dir es) ->
  walk t fl k cur (cs ++ rest) = walk t fl k (cur ++ cs) rest.
Proof.
  intros Hcs. revert cur. induction Hcs as [|c cs Hc Hcs IH]; intros cur Hget.
  - by rewrite app_nil_r.
  - apply valid_name_eqb in Hc as (E1 & E2 & E3).
    rewrite <- app_comm_cons. cbn [walk]. rewrite E1, E2, E3. simpl.
    replace (cur ++ c :: cs) with ((cur ++ [c]) ++ cs) in *
      by (by rewrite <- app_assoc).
    destruct (get_prefix_Dir _ _ _ _ Hget) as [es' Hes'].
    unfold kind_at. rewrite Hes'. simpl. by apply IH.
Qed.

(** The last step of a walk, on a name. *)
Lemma walk_name t fl k cur c :
  valid_name c = true ->
  walk t fl k cur [c] =
    match kind_at t (cur ++ [c]) with
    | None => inl ENOENT
    | Some (KLink tgt) => if fl then k cur tgt [] else inr (cur ++ [c])
    | Some _ => inr (cur ++ [c])
    end.
Proof.
  intros (E1 & E2 & E3)%valid_name_eqb. cbn [walk]. rewrite E1, E2, E3. simpl.
  destruct (kind_at t (cur ++ [c])) as [[]|]; try done.
Qed.

Lemma walk_shrunk t t' fl k k' cur cs :
  shrunk t t' ->
  (forall cur tgt rest,
     k' cur tgt rest = inl ENOENT \/ k' cur tgt rest = k cur tgt rest) ->
  walk t' fl k' cur cs = inl ENOENT \/ walk t' fl k' cur cs = walk t fl k cur cs.
Proof.
  intros Hs Hk. revert cur. induction cs as [|c rest IH]; intros cur.
  - by right.
  - cbn [walk].
    destruct (String.eqb c "" || String.eqb c "."); [apply IH|].
    destruct (String.eqb c ".."); [apply IH|].
    destruct (Hs (cur ++ [c])) as [-> | ->]; [by left|].
    destruct (kind_at t (cur ++ [c])) as [[| |tgt]|]; try (by right); [apply IH|].
    destruct rest, fl; try apply Hk. by right.
Qed.

Lemma walk_fuel_shrunk t t' fuel fl cur cs :
  shrunk t t' ->
  walk_fuel fuel t' fl cur cs = inl ENOENT \/
  walk_fuel fuel t' fl cur cs = walk_fuel fuel t fl cur cs.
Proof.
  intros Hs. revert cur cs. induction fuel as [|fuel IH]; intros cur cs.
  - by right.
  - rewrite !walk_fuel_S. apply walk_shrunk; [done|].
    intros cur' tgt rest. destruct (String.eqb tgt ""); [by left|]. apply IH.
Qed.

Lemma resolve_shrunk w w' fl p :
  shrunk (tree w) (tree w') -> cwd w' = cwd w ->
  resolve fl w' p = inl ENOENT \/ resolve fl w' p = resolve fl w p.
Proof.
  intros Hs Hc. unfold resolve. rewrite Hc. generalize (S max_links). intros fuel.
  destruct (String.eqb p ""); [by left|].
  destruct (startswith_sep p); [by apply walk_fuel_shrunk|].
  destruct (Hs (cwd w)) as [-> | ->]; [by left|].
  destruct (kind_at (tree w) (cwd w)) as [[]|]; try (by left).
  by apply walk_fuel_shrunk.
Qed.

(** Following the last link or not makes no difference when the walk
    does not end on a link. *)
Lemma walk_follow t k k' cur cs l :
  (forall tgt, kind_at t l <> Some (KLink tgt)) ->
  (forall cur tgt rest, k cur tgt rest = inr l -> k' cur tgt rest = inr l) ->
  walk t false k cur cs = inr l -> walk t true k' cur cs = inr l.
Proof.
  intros Hl Hk. revert cur. induction cs as [|c rest IH]; intros cur.
  - done.
  - cbn [walk].
    destruct (String.eqb c "" || String.eqb c "."); [apply IH|].
    destruct (String.eqb c ".."); [apply IH|].
    destruct (kind_at t (cur ++ [c])) as [[| |tgt]|] eqn:E; try done; [apply IH|].
    destruct rest; [|apply Hk].
    intros [= <-]. by destruct (Hl tgt).
Qed.

Lemma walk_fuel_follow t fuel cur cs l :
  (forall tgt, kind_at t l <> Some (KLink tgt)) ->
  walk_fuel fuel t false cur cs = inr l -> walk_fuel fuel t true cur cs = inr l.
Proof.
  intros Hl. revert cur cs. induction fuel as [|fuel IH]; intros cur cs; [done|].
  rewrite !walk_fuel_S. apply walk_follow; [done|].
  intros cur' tgt rest. destruct (String.eqb tgt ""); [done|]. apply IH.
Qed.

Lemma resolve_follow w p l :
  (forall tgt, kind_at (tree w) l <> Some (KLink tgt)) ->
  resolve false w p = inr l -> resolve true w p = inr l.
Proof.
  intros Hl. unfold resolve. generalize (S max_links). intros fuel.
  destruct (String.eqb p ""); [done|].
  destruct (startswith_sep p); [by apply walk_fuel_follow|].
  destruct (kind_at (tree w) (cwd w)) as [[]|]; intros H; try discriminate H.
  by apply walk_fuel_follow.
Qed.

(** ** A directory reached by a normalised path *)

Lemma string_concat_sep_empty l :
  String.concat "/" l = "" -> l = [] \/ l = [""].
Proof.
  destruct l as [|x [|y l]]; simpl; [by left|by intros ->; right|].
  destruct x; done.
Qed.

Lemma render_not_root l d : d <> "" -> render (l ++ [d]) <> "/".
Proof.
  intros Hd. unfold render.
  change "/" with ("/" +:+ "") at 3. intros E%(inj (String.app "/")).
  apply string_concat_sep_empty in E as [E|E].
  - by destruct l.
  - destruct l as [|? [|]]; simplify_eq/=.
Qed.

Section DirectoryAt.
Context (w : world) (p : string) (cp : loc) (es : list (string * node)).
Hypothesis Hdir : directory_at w p cp es.

Lemma directory_at_root : kind_at (tree w) [] = Some KDir.
Proof using Hdir.
  destruct Hdir as (_ & _ & _ & Hget).
  destruct (get_prefix_Dir (tree w) [] cp es Hget) as [es' Hes'].
  unfold kind_at. by rewrite Hes'.
Qed.

Lemma directory_at_kind : kind_at (tree w) cp = Some KDir.
Proof using Hdir.
  destruct Hdir as (_ & _ & _ & Hget). unfold kind_at. by rewrite Hget.
Qed.

Lemma directory_at_entry d :
  kind_at (tree w) (cp ++ [d]) = kind_of <$> lookup_entry d es.
Proof using Hdir.
  destruct Hdir as (_ & _ & _ & Hget). unfold kind_at.
  rewrite get_app, Hget. simpl. by destruct (lookup_entry d es).
Qed.

Lemma directory_at_nonempty : String.eqb p "" = false.
Proof using Hdir.
  destruct Hdir as (Habs & _). by destruct p.
Qed.

Lemma directory_at_walk fuel fl rest :
  walk_fuel (S fuel) (tree w) fl [] (split_sep p ++ rest) =
  walk_fuel (S fuel) (tree w) fl cp rest.
Proof using Hdir.
  destruct Hdir as (_ & Hsplit & Hvalid & Hget).
  rewrite Hsplit, !walk_fuel_S. rewrite <- app_comm_cons. cbn [walk]. simpl.
  by rewrite (walk_dirs _ _ _ [] cp rest es).
Qed.

Lemma directory_at_resolve fl : resolve fl w p = inr cp.
Proof using Hdir.
  unfold resolve. rewrite directory_at_nonempty.
  destruct Hdir as (-> & _).
  rewrite <- (app_nil_r (split_sep p)), directory_at_walk. done.
Qed.

Lemma directory_at_exists : path_exists w p = true.
Proof using Hdir.
  unfold path_exists, stat. rewrite directory_at_resolve. simpl.
  by rewrite directory_at_kind.
Qed.

Lemma directory_at_listdir : listdir w p = inr (map fst es).
Proof using Hdir.
  unfold listdir. rewrite directory_at_resolve.
  destruct Hdir as (_ & _ & _ & ->). done.
Qed.

Lemma directory_at_join d :
  valid_name d = true ->
  String.eqb (path_join p d) "" = false /\
  startswith_sep (path_join p d) = true /\
  split_sep (path_join p d) = split_sep p ++ [d].
Proof using Hdir.
  intros Hd. destruct Hdir as (Habs & Hsplit & Hvalid & _).
  destruct (split_sep_join p cp d Habs Hsplit Hvalid Hd) as [-> Hs].
  rewrite Hsplit. split_and!.
  - destruct p; done.
  - destruct p; done.
  - exact Hs.
Qed.

(** Resolving an entry of the directory. *)
Lemma directory_at_resolve_entry fl d :
  valid_name d = true ->
  (fl = false \/ forall tgt, lookup_entry d es <> Some (Link tgt)) ->
  resolve fl w (path_join p d) =
    match lookup_entry d es with
    | Some _ => inr (cp ++ [d])
    | None => inl ENOENT
    end.
Proof using Hdir.
  intros Hd Hfl. destruct (directory_at_join d Hd) as (E1 & E2 & E3).
  unfold resolve. rewrite E1, E2, E3, directory_at_walk, walk_fuel_S.
  rewrite walk_name by done. rewrite directory_at_entry.
  destruct (lookup_entry d es) as [[]|]; simpl; try done.
  destruct Hfl as [->|Hfl]; [done|]. by destruct (Hfl target).
Qed.

Lemma directory_at_lstat d :
  valid_name d = true ->
  lstat w (path_join p d) =
    match lookup_entry d es with
    | Some x => inr (kind_of x)
    | None => inl ENOENT
    end.
Proof using Hdir.
  intros Hd. unfold lstat. rewrite directory_at_resolve_entry by auto.
  destruct (lookup_entry d es) eqn:E; simpl; [|done].
  by rewrite directory_at_entry, E.
Qed.

Lemma directory_at_stat d :
  valid_name d = true ->
  (forall tgt, lookup_entry d es <> Some (Link tgt)) ->
  stat w (path_join p d) =
    match lookup_entry d es with
    | Some x => inr (kind_of x)
    | None => inl ENOENT
    end.
Proof using Hdir.
  intros Hd Hl. unfold stat. rewrite directory_at_resolve_entry by auto.
  destruct (lookup_entry d es) eqn:E; simpl; [|done].
  by rewrite directory_at_entry, E.
Qed.


(** The test of [list_backups] on an entry: a real directory. *)
Lemma directory_at_isdir_not_link d :
  valid_name d = true ->
  path_isdir w (path_join p d) && negb (path_islink w (path_join p d)) =
    is_real_dir es d.
Proof using Hdir.
  intros Hd. unfold path_isdir, path_islink, is_real_dir.
  rewrite (directory_at_lstat d Hd).
  destruct (lookup_entry d es) as [[| |tgt]|] eqn:E;
    [| |cbn [kind_of negb]; apply andb_false_r|];
    (rewrite (directory_at_stat d Hd); [by rewrite E|by rewrite E]).
Qed.

Lemma directory_at_resolve_parent d :
  valid_name d = true -> resolve_parent w (path_join p d) = inr (cp, d).
Proof using Hdir.
  intros Hd. destruct (directory_at_join d Hd) as (E1 & E2 & E3).
  unfold resolve_parent. rewrite E2, E3, last_snoc, removelast_last.
  destruct (valid_name_eqb d Hd) as (-> & -> & ->). cbn [orb].
  assert (String.eqb (path_join p d) d = false) as ->.
  { apply String.eqb_neq. intros E. rewrite E in E2.
    by rewrite (valid_name_not_abs d Hd) in E2. }
  rewrite directory_at_root.
  rewrite <- (app_nil_r (split_sep p)), (directory_at_walk max_links true []).
  rewrite walk_fuel_S. cbn [walk].
  by rewrite directory_at_kind.
Qed.

(** Rewriting the entries of the directory leaves it where it is. *)
Lemma directory_at_update f :
  directory_at (set_tree w (update_dir f (tree w) cp)) p cp (f es).
Proof using Hdir.
  destruct Hdir as (Habs & Hsplit & Hvalid & Hget).
  split_and!; try done. simpl. by apply get_update_dir_at.
Qed.
End DirectoryAt.

Ltac io_unfold :=
  unfold os_path_exists, os_listdir, query, syscall, raise, log_warning,
    try_except, mbind, io_bind, mret, io_ret.

Lemma update_dir_ext f g t l :
  (forall es, f es = g es) -> update_dir f t l = update_dir g t l.
Proof.
  intros Hfg. revert t. induction l as [|c l IH]; intros t.
  - destruct t; simpl; by rewrite ?Hfg.
  - destruct t as [|es|]; try done. cbn [update_dir]. f_equal.
    unfold map_entry. apply map_ext. intros [n x]. simpl. by rewrite IH.
Qed.

(** ** Splitting a path into directory and name *)

Lemma string_app_not_empty a b : b <> "" -> String.eqb (a +:+ b) "" = false.
Proof. intros Hb. apply String.eqb_neq. destruct a, b; done. Qed.

Lemma rpartition_sep_no_sep d : has_sep d = false -> rpartition_sep d = ("", d).
Proof.
  induction d as [|c d IH]; simpl; [done|].
  intros [Hc Hd]%orb_false_iff. by rewrite (IH Hd), Hc.
Qed.

Lemma rpartition_sep_app a d :
  has_sep d = false -> rpartition_sep (a +:+ "/" +:+ d) = (a +:+ "/", d).
Proof.
  intros Hd. induction a as [|c a IH].
  - rewrite !string_app_empty. change ("/" +:+ d) with (String "/" d).
    cbn [rpartition_sep]. by rewrite (rpartition_sep_no_sep d Hd).
  - rewrite (string_app_cons c a ("/" +:+ d)), (string_app_cons c a "/").
    cbn [rpartition_sep]. rewrite IH.
    by rewrite string_app_not_empty.
Qed.

Lemma rstrip_sep_app a : endswith_sep a = false -> rstrip_sep (a +:+ "/") = a.
Proof.
  induction a as [|c a IH]; [done|].
  rewrite string_app_cons. cbn [rstrip_sep]. destruct a as [|c' a].
  - cbn. by intros ->.
  - intros H. by rewrite (IH H).
Qed.

Lemma rstrip_sep_id s : endswith_sep s = false -> rstrip_sep s = s.
Proof.
  induction s as [|c s IH]; [done|]. cbn [rstrip_sep]. destruct s as [|c' s].
  - cbn. by intros ->.
  - intros H. by rewrite (IH H).
Qed.

Lemma all_sep_false s : s <> "" -> endswith_sep s = false -> all_sep s = false.
Proof.
  induction s as [|c s IH]; [done|]. intros _. destruct s as [|c' s].
  - cbn. intros ->. done.
  - intros H. change (all_sep (String c (String c' s)))
      with (is_sep c && all_sep (String c' s)).
    rewrite IH; [apply andb_false_r|done|done].
Qed.

Lemma all_sep_app a : a <> "" -> endswith_sep a = false -> all_sep (a +:+ "/") = false.
Proof.
  induction a as [|c a IH]; [done|]. intros _. rewrite string_app_cons.
  destruct a as [|c' a].
  - cbn. intros ->. done.
  - intros H. change (all_sep (String c (String c' a +:+ "/")))
      with (is_sep c && all_sep (String c' a +:+ "/")).
    rewrite IH; [apply andb_false_r|done|done].
Qed.

Lemma endswith_sep_app a d :
  d <> "" -> endswith_sep (a +:+ d) = endswith_sep d.
Proof.
  intros Hd. induction a as [|c a IH]; [done|].
  rewrite string_app_cons. cbn [endswith_sep]. rewrite IH.
  destruct (a +:+ d) eqn:E; [|done]. by destruct a, d.
Qed.

Lemma endswith_sep_no_sep d : has_sep d = false -> endswith_sep d = false.
Proof.
  induction d as [|c d IH]; [done|]. simpl.
  intros [Hc Hd]%orb_false_iff. destruct d; [done|by apply IH].
Qed.

(** A path as [join] makes it splits back into its two parts. *)
Lemma path_split_app a d :
  a <> "" -> endswith_sep a = false -> has_sep d = false ->
  path_split (a +:+ "/" +:+ d) = (a, d).
Proof.
  intros Ha He Hd. unfold path_split. rewrite (rpartition_sep_app a d Hd).
  rewrite string_app_not_empty by done. rewrite (all_sep_app a Ha He). cbn [negb andb].
  by rewrite (rstrip_sep_app a He).
Qed.

(** ** Creating directories *)

Section DirectoryMake.
Context (w : world) (p : string) (cp : loc) (es : list (string * node)).
Hypothesis Hdir : directory_at w p cp es.

Lemma directory_at_not_empty : p <> "".
Proof using Hdir. destruct Hdir as (Habs & _). by destruct p. Qed.

Lemma directory_at_no_trailing : endswith_sep p = false.
Proof using Hdir.
  destruct Hdir as (Habs & Hsplit & Hvalid & _).
  destruct (endswith_sep p) eqn:He; [|done].
  apply endswith_sep_last in He. rewrite Hsplit, last_cons in He.
  destruct (last cp) as [c|] eqn:Hl.
  - simplify_eq. apply last_Some_elem_of in Hl.
    rewrite Forall_forall in Hvalid. by apply Hvalid in Hl.
  - apply last_None in Hl as ->. apply split_sep_empty_inv in Hsplit. by subst.
Qed.

Lemma directory_at_join_app d :
  valid_name d = true -> path_join p d = p +:+ "/" +:+ d.
Proof using Hdir.
  intros Hd. destruct Hdir as (Habs & Hsplit & Hvalid & _).
  by destruct (split_sep_join p cp d Habs Hsplit Hvalid Hd).
Qed.

Lemma directory_at_path_split d :
  valid_name d = true -> path_split (path_join p d) = (p, d).
Proof using Hdir.
  intros Hd. rewrite (directory_at_join_app d Hd).
  apply path_split_app;
    [apply directory_at_not_empty|apply directory_at_no_trailing|].
  by destruct (valid_name_spec d Hd).
Qed.

Lemma directory_at_join_no_trailing d :
  valid_name d = true ->
  path_join p d <> "" /\ endswith_sep (path_join p d) = false.
Proof using Hdir.
  intros Hd. rewrite (directory_at_join_app d Hd).
  destruct (valid_name_spec d Hd) as (Hs & Hne & _). split.
  - apply String.eqb_neq, string_app_not_empty. by destruct d.
  - rewrite endswith_sep_app by (by destruct d).
    change ("/" +:+ d) with (String "/" d). cbn [endswith_sep].
    destruct d; [done|]. by apply endswith_sep_no_sep.
Qed.

Lemma directory_at_os_mkdir d :
  valid_name d = true ->
  os_mkdir w (path_join p d) =
    match lookup_entry d es with
    | Some _ => inl EEXIST
    | None => inr (set_tree w (update_dir (add_entry d (Dir [])) (tree w) cp))
    end.
Proof using Hdir.
  intros Hd. unfold os_mkdir.
  destruct (directory_at_join_no_trailing d Hd) as [Hne He].
  rewrite (all_sep_false _ Hne He), (rstrip_sep_id _ He).
  rewrite (directory_at_resolve_parent w p cp es Hdir d Hd).
  rewrite (directory_at_entry w p cp es Hdir d).
  by destruct (lookup_entry d es).
Qed.

(** In a directory that exists [os.makedirs] is [os.mkdir]. *)
Lemma directory_at_makedirs_fuel fuel d :
  valid_name d = true ->
  os_makedirs_fuel (S fuel) (path_join p d) w =
    match lookup_entry d es with
    | Some _ => (Raise (OSError (Some EEXIST)), w)
    | None => (Ok tt, set_tree w (update_dir (add_entry d (Dir [])) (tree w) cp))
    end.
Proof using Hdir.
  intros Hd. cbn [os_makedirs_fuel]. rewrite (directory_at_path_split d Hd).
  destruct (valid_name_eqb d Hd) as (Hd0 & _ & _). cbv beta iota zeta.
  rewrite Hd0. cbv beta iota zeta. rewrite Hd0.
  assert (String.eqb p "" = false) as -> by apply (directory_at_nonempty w p cp es Hdir).
  cbn [negb andb]. io_unfold. cbv beta iota.
  rewrite (directory_at_exists w p cp es Hdir). cbv beta iota. cbn [negb]. cbv beta iota.
  rewrite (directory_at_os_mkdir d Hd). by destruct (lookup_entry d es).
Qed.

(** The new directory, seen from the path that made it. *)
Lemma directory_at_made d :
  valid_name d = true -> lookup_entry d es = None ->
  directory_at (set_tree w (update_dir (add_entry d (Dir [])) (tree w) cp))
    (path_join p d) (cp ++ [d]) [].
Proof using Hdir.
  intros Hd Hnone. destruct (directory_at_join w p cp es Hdir d Hd) as (_ & E2 & E3).
  destruct Hdir as (Habs & Hsplit & Hvalid & Hget).
  split_and!; [done| | |].
  - by rewrite E3, Hsplit.
  - apply Forall_app. split; [done|]. by repeat constructor.
  - cbn [tree set_tree]. rewrite get_app.
    rewrite (get_update_dir_at _ _ _ _ Hget). cbn.
    by rewrite lookup_entry_add, Hnone, String.eqb_refl.
Qed.
End DirectoryMake.

Lemma update_dir_snoc f t l c :
  update_dir f t (l ++ [c]) =
    update_dir (map_entry c (fun x => update_dir f x [])) t l.
Proof.
  revert t. induction l as [|a l IH]; intros t.
  - by destruct t.
  - destruct t as [|es|]; try done. rewrite <- app_comm_cons. cbn [update_dir].
    f_equal. unfold map_entry at 1 3. apply map_ext. intros [n x]. cbn [fst snd].
    by rewrite IH.
Qed.

Lemma drop_entry_map_entry d g es : drop_entry d (map_entry d g es) = drop_entry d es.
Proof.
  unfold drop_entry, map_entry. induction es as [|[n x] es IH]; [done|].
  cbn [map fst snd]. destruct (String.eqb n d) eqn:E; cbn [List.filter fst];
    rewrite E; cbn [negb]; by rewrite IH.
Qed.

Lemma remove_at_entry (cp : loc) t d : remove_at t (cp ++ [d]) = update_dir (drop_entry d) t cp.
Proof. unfold remove_at. by rewrite last_snoc, removelast_last. Qed.

Section DirectoryRemove.
Context (w : world) (p : string) (cp : loc) (es : list (string * node)).
Hypothesis Hdir : directory_at w p cp es.

Lemma directory_at_os_rmdir d :
  valid_name d = true -> lookup_entry d es = Some (Dir []) ->
  os_rmdir w (path_join p d) =
    inr (set_tree w (update_dir (drop_entry d) (tree w) cp)).
Proof using Hdir.
  intros Hd Hempty. unfold os_rmdir.
  destruct (directory_at_join_no_trailing w p cp es Hdir d Hd) as [Hne He].
  destruct (directory_at_join w p cp es Hdir d Hd) as (E1 & E2 & E3).
  rewrite E1, (all_sep_false _ Hne He), (rstrip_sep_id _ He), E2, E3.
  cbv zeta. rewrite removelast_last, last_snoc.
  rewrite <- (app_nil_r (split_sep p)) at 1.
  rewrite (directory_at_walk w p cp es Hdir max_links true []), walk_fuel_S.
  cbn [walk]. rewrite (directory_at_kind w p cp es Hdir).
  destruct (valid_name_eqb d Hd) as (_ & -> & ->).
  destruct Hdir as (_ & _ & _ & Hget).
  rewrite get_app, Hget. cbn [mbind option_bind]. rewrite get_Dir_step, Hempty.
  cbn [mbind option_bind get]. by rewrite remove_at_entry.
Qed.
End DirectoryRemove.

(** The calls that change the directory. *)
Section DirectoryOps.
Context (w : world) (p : string) (cp : loc) (es : list (string * node)).
Hypothesis Hdir : directory_at w p cp es.

Lemma directory_at_rmtree d :
  valid_name d = true -> is_real_dir es d = true ->
  shutil_rmtree (path_join p d) w =
    (Ok tt, set_tree w (update_dir (drop_entry d) (tree w) cp)).
Proof using Hdir.
  intros Hd Hreal. unfold shutil_rmtree, is_real_dir in *.
  rewrite (directory_at_resolve_entry w p cp es Hdir false d Hd (or_introl eq_refl)).
  rewrite (directory_at_resolve_entry w p cp es Hdir true d Hd).
  2:{ right. intros tgt E. by rewrite E in Hreal. }
  pose proof (directory_at_entry w p cp es Hdir d) as Hk.
  destruct (lookup_entry d es) as [[|sub|]|] eqn:E; try done.
  rewrite Hk. cbn [fmap option_fmap option_map kind_of].
  rewrite bool_decide_true by done. cbn [negb].
  assert (get (tree w) (cp ++ [d]) = Some (Dir sub)) as ->.
  { destruct Hdir as (_ & _ & _ & Hget). rewrite get_app, Hget.
    cbn [mbind option_bind]. by rewrite get_Dir_step, E. }
  cbv zeta. rewrite update_dir_snoc.
  pose proof (directory_at_update w p cp es Hdir
                (map_entry d (fun x => update_dir (fun _ => []) x []))) as Hdir1.
  rewrite (directory_at_os_rmdir _ p cp _ Hdir1 d Hd).
  - cbn [tree set_tree]. rewrite update_dir_compose.
    by rewrite (update_dir_ext _ (drop_entry d) _ _
                  (drop_entry_map_entry d (fun x => update_dir (fun _ => []) x []))).
  - by rewrite lookup_entry_map_entry, String.eqb_refl, E.
Qed.

Lemma directory_at_os_remove d :
  valid_name d = true -> is_real_dir es d = false ->
  os_remove w (path_join p d) =
    match lookup_entry d es with
    | Some _ => inr (set_tree w (update_dir (drop_entry d) (tree w) cp))
    | None => inl ENOENT
    end.
Proof using Hdir.
  intros Hd Hreal. unfold os_remove, is_real_dir in *.
  rewrite (directory_at_resolve_entry w p cp es Hdir false d Hd (or_introl eq_refl)).
  pose proof (directory_at_entry w p cp es Hdir d) as Hk.
  destruct (lookup_entry d es) as [[| |]|]; try done; rewrite Hk;
    cbn [fmap option_fmap option_map kind_of]; by rewrite ?remove_at_entry.
Qed.

Lemma directory_at_os_symlink src d :
  valid_name d = true -> lookup_entry d es = None ->
  os_symlink w src (path_join p d) =
    inr (set_tree w (update_dir (add_entry d (Link src)) (tree w) cp)).
Proof using Hdir.
  intros Hd Hnone. unfold os_symlink.
  rewrite (directory_at_resolve_parent w p cp es Hdir d Hd).
  by rewrite (directory_at_entry w p cp es Hdir d), Hnone.
Qed.
End DirectoryOps.

(** ** Lists of names *)

Lemma mem_spec c l : mem c l = true <-> c ∈ l.
Proof.
  unfold mem. rewrite existsb_exists. split.
  - intros (x & Hx & ->%String.eqb_eq). by apply list_elem_of_In.
  - intros H. exists c. split; [by apply list_elem_of_In|apply String.eqb_refl].
Qed.

Lemma mem_false c l : mem c l = false <-> c ∉ l.
Proof. rewrite <- mem_spec. by destruct (mem c l). Qed.

Lemma filter_all {A} (P : A -> bool) l :
  (forall x, In x l -> P x = true) -> List.filter P l = l.
Proof.
  induction l as [|x l IH]; simpl; intros H; [done|].
  rewrite (H x) by auto. f_equal. apply IH. auto.
Qed.

(** Dropping the first [m] names of a list without duplicates. *)
Lemma filter_not_in_take (l : list string) m :
  NoDup l -> List.filter (fun d => negb (mem d (take m l))) l = drop m l.
Proof.
  intros Hnd. revert m. induction Hnd as [|x l Hx Hnd IH]; intros m.
  - by destruct m.
  - destruct m as [|m]; simpl.
    + f_equal. by apply filter_all.
    + rewrite String.eqb_refl. simpl. rewrite <- IH.
      apply List.filter_ext_in. intros d Hd%list_elem_of_In.
      destruct (String.eqb_spec d x) as [->|]; done.
Qed.

Lemma map_fst_filter (P : string -> bool) (es : list (string * node)) :
  map fst (List.filter (fun e => P (fst e)) es) = List.filter P (map fst es).
Proof.
  induction es as [|[n x] es IH]; simpl; [done|].
  destruct (P n); simpl; by rewrite IH.
Qed.

Lemma lookup_entry_filter (P : string -> bool) c es :
  lookup_entry c (List.filter (fun e => P (fst e)) es) =
    if P c then lookup_entry c es else None.
Proof.
  induction es as [|[n x] es IH]; simpl; [by destruct (P c)|].
  destruct (String.eqb_spec n c) as [->|Hne].
  - destruct (P c) eqn:E; simpl; [by rewrite String.eqb_refl|done].
  - destruct (P n); simpl; [|done].
    apply String.eqb_neq in Hne. by rewrite Hne.
Qed.


Lemma entries_ok_filter (P : string -> bool) es :
  entries_ok es -> entries_ok (List.filter (fun e => P (fst e)) es).
Proof.
  intros [Hnd Hv]. unfold entries_ok. rewrite map_fst_filter. split.
  - apply NoDup_ListNoDup, List.NoDup_filter. by apply NoDup_ListNoDup.
  - rewrite Forall_forall in Hv |- *. intros c Hc%list_elem_of_In%filter_In.
    apply Hv, list_elem_of_In. tauto.
Qed.

(** ** Listing the backups of a backupset *)

Lemma listdir_exists w p names : listdir w p = inr names -> path_exists w p = true.
Proof.
  unfold listdir, path_exists, stat, stat_at, kind_at.
  destruct (resolve true w p) as [|l]; [done|].
  by destruct (get (tree w) l) as [[]|].
Qed.

(** Sorting the handles by [name] sorts their timestamps. *)
Lemma sort_backups self ds :
  sort_by backup_name (map (make_backup self) ds) =
    map (make_backup self) (sort_by id ds).
Proof.
  rewrite sort_by_map. f_equal. apply sort_by_ext. intros a b.
  cbn [backup_name make_backup Backup_init]. by rewrite !string_leb_app.
Qed.


Section ListBackups.
Variable strptime_ok : string -> bool.

Lemma list_backups_missing self name reverse w :
  path_exists w (backupset_path self) = false ->
  Backupset_list_backups strptime_ok self name reverse w = (Ok None, w).
Proof. intros H. unfold Backupset_list_backups. io_unfold. by rewrite H. Qed.

Lemma list_backups_named self name reverse w :
  path_exists w (backupset_path self) = true ->
  strip (or_empty name) <> "" ->
  Backupset_list_backups strptime_ok self name reverse w =
    (Ok (Some (let path := path_join (backupset_path self) (strip (or_empty name)) in
               if path_exists w path
               then [Backup_init path (backupset_name self) (strip (or_empty name))]
               else [])), w).
Proof.
  intros H Hname%String.eqb_neq. unfold Backupset_list_backups, truthy. io_unfold.
  by rewrite H, Hname.
Qed.

Lemma list_backups_unnamed self name reverse w names :
  strip (or_empty name) = "" ->
  listdir w (backupset_path self) = inr names ->
  Backupset_list_backups strptime_ok self name reverse w =
    (Ok (Some (let l := map (make_backup self)
                          (sort_by id (List.filter (is_backup_dir strptime_ok w self) names)) in
               if reverse then rev l else l)), w).
Proof.
  intros Hname Hls. unfold Backupset_list_backups, truthy. io_unfold.
  rewrite (listdir_exists _ _ _ Hls), Hname. cbn [negb String.eqb].
  rewrite Hls. by rewrite <- sort_backups.
Qed.

(** Listing reads the file system and leaves it as it is. *)
Lemma list_backups_world self name reverse w r w' :
  Backupset_list_backups strptime_ok self name reverse w = (r, w') -> w' = w.
Proof.
  unfold Backupset_list_backups. io_unfold.
  destruct (path_exists w (backupset_path self)); cbn [negb]; [|congruence].
  destruct (truthy (strip (or_empty name))); [congruence|].
  destruct (listdir w (backupset_path self)); congruence.
Qed.

(** The only exception of a listing is the [OSError] of [os.listdir]. *)
Lemma list_backups_raise self name reverse w e w' :
  Backupset_list_backups strptime_ok self name reverse w = (Raise e, w') ->
  exists code, e = OSError (Some code).
Proof.
  unfold Backupset_list_backups. io_unfold.
  destruct (path_exists w (backupset_path self)); cbn [negb]; [|congruence].
  destruct (truthy (strip (or_empty name))); [congruence|].
  destruct (listdir w (backupset_path self)); [|congruence].
  intros [= <- _]. eauto.
Qed.

Lemma is_backup_dir_entry self w cp es d :
  directory_at w (backupset_path self) cp es -> valid_name d = true ->
  is_backup_dir strptime_ok w self d = is_real_dir es d && strptime_ok d.
Proof.
  intros Hdir Hd. unfold is_backup_dir. cbn zeta.
  by rewrite (directory_at_isdir_not_link w _ cp es Hdir d Hd).
Qed.

Lemma list_backups_directory_at self w cp es reverse :
  directory_at w (backupset_path self) cp es -> entries_ok es ->
  Backupset_list_backups strptime_ok self None reverse w =
    (Ok (Some (let l := map (make_backup self) (backup_dirs strptime_ok es) in
               if reverse then rev l else l)), w).
Proof.
  intros Hdir [_ Hv].
  rewrite (list_backups_unnamed self None reverse w (map fst es) eq_refl
             (directory_at_listdir w _ cp es Hdir)).
  unfold backup_dirs.
  rewrite (List.filter_ext_in (is_backup_dir strptime_ok w self)
             (fun d => is_real_dir es d && strptime_ok d)); [done|].
  intros d Hd%list_elem_of_In.
  rewrite Forall_forall in Hv. by apply (is_backup_dir_entry self w cp es), Hv.
Qed.
End ListBackups.

(** ** The backups of a directory *)

Lemma filter_comm' {A} (P Q : A -> bool) l :
  List.filter P (List.filter Q l) = List.filter Q (List.filter P l).
Proof.
  induction l as [|x l IH]; simpl; [done|].
  destruct (P x) eqn:Px, (Q x) eqn:Qx; simpl; rewrite ?Px, ?Qx, IH; done.
Qed.

Lemma backup_dirs_elem ok es d :
  d ∈ backup_dirs ok es <->
  d ∈ map fst es /\ is_real_dir es d = true /\ ok d = true.
Proof.
  unfold backup_dirs. rewrite (sort_by_perm id).
  rewrite !list_elem_of_In, filter_In, andb_true_iff. done.
Qed.

Lemma backup_dirs_NoDup ok es : entries_ok es -> NoDup (backup_dirs ok es).
Proof.
  intros [Hnd _]. unfold backup_dirs. rewrite (sort_by_perm id).
  apply NoDup_ListNoDup, List.NoDup_filter. by apply NoDup_ListNoDup.
Qed.

Lemma backup_dirs_sorted ok es : StronglySorted (key_le id) (backup_dirs ok es).
Proof. apply sort_by_sorted. Qed.

Lemma backup_dirs_strict ok es :
  entries_ok es -> StronglySorted (key_lt id) (backup_dirs ok es).
Proof.
  intros Hes. apply sorted_strict; [|apply backup_dirs_sorted].
  rewrite map_id. by apply backup_dirs_NoDup.
Qed.

Lemma is_real_dir_without ds es d :
  mem d ds = false -> is_real_dir (without ds es) d = is_real_dir es d.
Proof.
  intros Hd. unfold is_real_dir, without.
  by rewrite (lookup_entry_filter (fun c => negb (mem c ds))), Hd.
Qed.

(** The backups that are left when the directories [ds] are removed. *)
Lemma backup_dirs_without ok ds es :
  backup_dirs ok (without ds es) =
    List.filter (fun d => negb (mem d ds)) (backup_dirs ok es).
Proof.
  unfold backup_dirs at 1, without at 2.
  rewrite (map_fst_filter (fun c => negb (mem c ds))).
  rewrite (List.filter_ext_in _ (fun d => is_real_dir es d && ok d)).
  - rewrite filter_comm'. symmetry. apply sort_by_filter.
  - intros d [_ Hd%negb_true_iff]%filter_In. by rewrite is_real_dir_without.
Qed.

Lemma update_dir_id f t l : (forall es, f es = es) -> update_dir f t l = t.
Proof.
  intros Hf. revert t. induction l as [|c l IH]; intros t.
  - destruct t; simpl; by rewrite ?Hf.
  - destruct t as [|es|]; try done. cbn [update_dir]. f_equal.
    unfold map_entry. rewrite <- (map_id es) at 2. apply map_ext.
    intros [n x]. simpl. rewrite IH. by destruct (String.eqb n c).
Qed.

Lemma without_nil es : without [] es = es.
Proof. unfold without. by apply filter_all. Qed.

Lemma without_cons d ds es : without ds (drop_entry d es) = without (d :: ds) es.
Proof.
  unfold without, drop_entry. induction es as [|[n x] es IH]; simpl; [done|].
  destruct (String.eqb n d); simpl; [done|]. by rewrite IH.
Qed.

Lemma mem_rev c l : mem c (rev l) = mem c l.
Proof.
  apply eq_true_iff_eq. rewrite !mem_spec, !list_elem_of_In. symmetry. apply in_rev.
Qed.

Lemma without_rev ds es : without (rev ds) es = without ds es.
Proof. unfold without. apply List.filter_ext. intros e. by rewrite mem_rev. Qed.

Lemma set_tree_same w : set_tree w (tree w) = w.
Proof. by destruct w. Qed.

(** ** Purging *)

Section Purge.
Variable strptime_ok : string -> bool.
Variable realpath : world -> string -> string.
Hypothesis Hreal : realpath_resolved realpath.

Lemma backup_purge_entry self w cp es d :
  directory_at w (backupset_path self) cp es ->
  valid_name d = true -> is_real_dir es d = true ->
  Backup_purge realpath (make_backup self d) w =
    (Ok tt, set_tree w (update_dir (drop_entry d) (tree w) cp)).
Proof using Hreal.
  intros Hdir Hd Hr. unfold Backup_purge. io_unfold.
  cbn [make_backup Backup_init backup_path].
  assert (resolve true w (path_join (backupset_path self) d) = inr (cp ++ [d])) as Hres.
  { rewrite (directory_at_resolve_entry w _ cp es Hdir true d Hd).
    - unfold is_real_dir in Hr. by destruct (lookup_entry d es).
    - right. intros tgt E. unfold is_real_dir in Hr. by rewrite E in Hr. }
  rewrite (Hreal _ _ _ Hres).
  assert (String.eqb (render (cp ++ [d])) "/" = false) as ->.
  { apply String.eqb_neq, render_not_root.
    by destruct (valid_name_spec d Hd) as (_ & ? & _). }
  by rewrite (directory_at_rmtree w _ cp es Hdir d Hd Hr).
Qed.

Lemma purge_drain_entries self cp ds : forall w es,
  directory_at w (backupset_path self) cp es -> NoDup ds ->
  Forall (fun d => valid_name d = true /\ is_real_dir es d = true) ds ->
  purge_drain realpath (map (make_backup self) ds) w =
    (Ok (map (make_backup self) ds),
     set_tree w (update_dir (without ds) (tree w) cp)).
Proof using Hreal.
  induction ds as [|d ds IH]; intros w es Hdir Hnd Hds.
  - cbn [map purge_drain]. io_unfold.
    by rewrite (update_dir_id (without []) _ _ without_nil), set_tree_same.
  - apply NoDup_cons in Hnd as [Hd Hnd]. apply Forall_cons in Hds as [[Hv Hr] Hds].
    cbn [map purge_drain]. io_unfold.
    rewrite (backup_purge_entry self w cp es d Hdir Hv Hr).
    rewrite (IH _ (drop_entry d es) (directory_at_update w _ cp es Hdir (drop_entry d)) Hnd).
    + cbn [set_tree tree cwd warnings]. rewrite update_dir_compose.
      by rewrite (update_dir_ext _ (without (d :: ds)) _ _ (without_cons d ds)).
    + rewrite Forall_forall in Hds |- *. intros d' Hd'.
      destruct (Hds d' Hd') as [Hv' Hr']. split; [done|].
      unfold is_real_dir in *. rewrite lookup_entry_drop_other; [done|].
      intros ->. done.
Qed.

Lemma backup_dirs_real es :
  entries_ok es ->
  Forall (fun d => valid_name d = true /\ is_real_dir es d = true)
    (backup_dirs strptime_ok es).
Proof.
  intros [_ Hv]. rewrite Forall_forall in Hv |- *.
  intros d (Hin & Hr & _)%backup_dirs_elem. auto.
Qed.

(** Consuming the generator of [purge] on a backupset directory. *)
Lemma purge_list_entries self w cp es n :
  directory_at w (backupset_path self) cp es -> entries_ok es -> (0 <= n)%Z ->
  let ds := backup_dirs strptime_ok es in
  let old := take (List.length ds - Z.to_nat n) ds in
  purge_list strptime_ok realpath self (Backupset_purge self n) w =
    (Ok (map (make_backup self) (rev old)),
     set_tree w (update_dir (without old) (tree w) cp)).
Proof using Hreal.
  intros Hdir Hes Hn ds old. unfold Backupset_purge, purge_list.
  apply Z.ltb_ge in Hn. rewrite Hn. io_unfold.
  rewrite (list_backups_directory_at strptime_ok self w cp es true Hdir Hes).
  cbn zeta. fold ds. rewrite <- map_rev, skipn_map.
  assert (drop (Z.to_nat n) (rev ds) = rev old) as ->.
  { unfold old. by rewrite skipn_rev. }
  rewrite (purge_drain_entries self cp (rev old) w es Hdir).
  - by rewrite (update_dir_ext _ (without old) _ _ (without_rev old)).
  - rewrite <- (Permutation_rev old).
    apply (sublist_NoDup old ds); [|apply sublist_take].
    by apply backup_dirs_NoDup.
  - rewrite <- (Permutation_rev old). apply Forall_take.
    by apply backup_dirs_real.
Qed.
End Purge.

(** ** The sample spool *)

Lemma resolved_realpath_law : realpath_resolved resolved_realpath.
Proof. intros w p l H. unfold resolved_realpath. by rewrite H. Qed.

Lemma sample_directory_at :
  directory_at sample_world (backupset_path mysql) mysql_loc mysql_entries.
Proof. repeat split. vm_compute. repeat constructor. Qed.

Lemma sample_entries_ok : entries_ok mysql_entries.
Proof.
  split; [|vm_compute; repeat constructor].
  apply (bool_decide_unpack _). by vm_compute.
Qed.

Lemma sample_backup_dirs :
  backup_dirs strptime_accepts mysql_entries =
    ["20200101_000000"; "20200102_000000"; "20200103_000000"].
Proof. by vm_compute. Qed.

(** ** Names and order of the handles *)

Lemma make_backup_strict self ds :
  StronglySorted (key_lt id) ds ->
  StronglySorted (key_lt backup_name) (map (make_backup self) ds).
Proof.
  induction 1 as [|d ds Hs IH Hd]; simpl; constructor; [done|].
  apply Forall_map. eapply Forall_impl; [exact Hd|]. intros d' Hlt.
  unfold key_lt in *. cbn [backup_name make_backup Backup_init].
  by rewrite !string_ltb_app.
Qed.

Lemma space_not_sep c : is_space c = true -> is_sep c = false.
Proof.
  unfold is_sep. destruct (Ascii.eqb_spec c "/") as [->|]; [|done].
  by vm_compute.
Qed.

Lemma rstrip_empty_no_sep s : rstrip s = "" -> has_sep s = false.
Proof.
  induction s as [|c s IH]; simpl; [done|].
  destruct (rstrip s); [|done].
  destruct (is_space c) eqn:E; [|done].
  intros _. by rewrite (space_not_sep c E), IH.
Qed.

Lemma lstrip_no_sep s : has_sep (lstrip s) = false -> has_sep s = false.
Proof.
  induction s as [|c s IH]; simpl; [done|].
  destruct (is_space c) eqn:E; [|done].
  intros H. by rewrite (space_not_sep c E), IH.
Qed.

Lemma strip_empty_no_sep s : strip s = "" -> has_sep s = false.
Proof. intros H. by apply lstrip_no_sep, rstrip_empty_no_sep. Qed.

(** ** Timestamps *)

Lemma is_nat_inv a x :
  Ascii.is_nat a = Some x -> (x <= 9)%nat /\ a = ascii_of_nat (48 + x).
Proof.
  destruct a as [[] [] [] [] [] [] [] []]; intros H; try discriminate H;
    injection H as <-; (split; [lia | reflexivity]).
Qed.

(** The ten cases of a digit. *)
Ltac each_digit x :=
  let H := fresh in
  assert (x = 0 \/ x = 1 \/ x = 2 \/ x = 3 \/ x = 4 \/ x = 5 \/ x = 6 \/ x = 7 \/
          x = 8 \/ x = 9)%nat as H by lia;
  destruct H as [->|[->|[->|[->|[->|[->|[->|[->|[->| ->]]]]]]]]].

Lemma two_digits_inv a b n :
  two_digits a b = Some n ->
  exists x y, (x <= 9 /\ y <= 9)%nat /\ n = (10 * x + y)%nat /\
    a = ascii_of_nat (48 + x) /\ b = ascii_of_nat (48 + y).
Proof.
  unfold two_digits.
  destruct (Ascii.is_nat a) as [x|] eqn:Ha; [|done].
  destruct (Ascii.is_nat b) as [y|] eqn:Hb; [|done].
  intros [= <-]. apply is_nat_inv in Ha as [? ?], Hb as [? ?]. by exists x, y.
Qed.

(** A field of two digits is matched by the first alternative that takes
    two characters. *)
Ltac padded_field :=
  intros (x & y & [Hx Hy] & -> & -> & ->)%two_digits_inv Hm;
  each_digit x; each_digit y;
  first [exfalso; cbn in Hm; lia | eexists; reflexivity].

Lemma month_field_padded a b m s :
  two_digits a b = Some m -> (1 <= m <= 12)%nat ->
  exists tl, match_field month_field (a :: b :: s) = (m, s) :: tl.
Proof. padded_field. Qed.

Lemma day_field_padded a b d s :
  two_digits a b = Some d -> (1 <= d <= 31)%nat ->
  exists tl, match_field day_field (a :: b :: s) = (d, s) :: tl.
Proof. padded_field. Qed.

Lemma hour_field_padded a b h s :
  two_digits a b = Some h -> (h <= 23)%nat ->
  exists tl, match_field hour_field (a :: b :: s) = (h, s) :: tl.
Proof. padded_field. Qed.

Lemma minute_field_padded a b m s :
  two_digits a b = Some m -> (m <= 59)%nat ->
  exists tl, match_field minute_field (a :: b :: s) = (m, s) :: tl.
Proof. padded_field. Qed.

Lemma second_field_padded a b n s :
  two_digits a b = Some n -> (n <= 61)%nat ->
  exists tl, match_field second_field (a :: b :: s) = (n, s) :: tl.
Proof. padded_field. Qed.

Lemma match_alternative_any_digit alt value a x s :
  Ascii.is_nat a = Some x ->
  match_alternative (Digit 0 9 :: alt) value (a :: s) =
    match_alternative alt (10 * value + x) s.
Proof.
  intros Ha. cbn [match_alternative]. rewrite Ha.
  apply is_nat_inv in Ha as [Hx _].
  by rewrite (proj2 (Nat.leb_le 0 x)), (proj2 (Nat.leb_le x 9)) by lia.
Qed.

Lemma year_field_padded a b c d ya yb s :
  two_digits a b = Some ya -> two_digits c d = Some yb ->
  match_field year_field (a :: b :: c :: d :: s) = [(100 * ya + yb, s)]%nat.
Proof.
  unfold two_digits.
  destruct (Ascii.is_nat a) as [x1|] eqn:H1; [|done].
  destruct (Ascii.is_nat b) as [x2|] eqn:H2; [|done].
  destruct (Ascii.is_nat c) as [x3|] eqn:H3; [|done].
  destruct (Ascii.is_nat d) as [x4|] eqn:H4; [|done].
  intros Hya Hyb. unfold match_field, year_field.
  cbn [omap list_omap].
  injection Hya as <-. injection Hyb as <-.
  rewrite (match_alternative_any_digit _ _ a x1 _ H1),
          (match_alternative_any_digit _ _ b x2 _ H2),
          (match_alternative_any_digit _ _ c x3 _ H3),
          (match_alternative_any_digit _ _ d x4 _ H4).
  cbn [match_alternative]. f_equal. f_equal. lia.
Qed.

Lemma days_in_month_le y m : (days_in_month y m <= 31)%nat.
Proof.
  unfold days_in_month.
  destruct (leap_year y); do 12 (destruct m as [|m]; [lia|]); lia.
Qed.

Lemma bind_first {A B} (f : A -> list B) l x tl y tl' :
  l = x :: tl -> f x = y :: tl' -> exists tl'', l ≫= f = y :: tl''.
Proof. intros -> Hf. cbn. rewrite Hf. by eexists. Qed.

(** A name of the form [YYYYMMDD_HHMMSS] is accepted by [time.strptime]. *)
Lemma padded_timestamp_accepted name :
  padded_timestamp name = true -> strptime_accepts name = true.
Proof.
  unfold padded_timestamp, strptime_accepts.
  destruct (list_ascii_of_string name)
    as [|y1 [|y2 [|y3 [|y4 [|m1 [|m2 [|d1 [|d2 [|u [|h1 [|h2 [|n1 [|n2 [|s1 [|s2 [|]]]]]]]]]]]]]]]];
    try discriminate.
  destruct (two_digits y1 y2) as [ya|] eqn:Hya; [|done].
  destruct (two_digits y3 y4) as [yb|] eqn:Hyb; [|done].
  destruct (two_digits m1 m2) as [m|] eqn:Hm; [|done].
  destruct (two_digits d1 d2) as [d|] eqn:Hd; [|done].
  destruct (two_digits h1 h2) as [h|] eqn:Hh; [|done].
  destruct (two_digits n1 n2) as [mi|] eqn:Hmi; [|done].
  destruct (two_digits s1 s2) as [se|] eqn:Hse; [|done].
  cbv zeta. rewrite !andb_true_iff, !Nat.leb_le.
  intros ((((((((Hu%Ascii.eqb_eq & Hy) & Hm1) & Hm2) & Hd1) & Hd2) & Hh') & Hmi') & Hse').
  subst u. pose proof (days_in_month_le (100 * ya + yb) m) as Hdm.
  destruct (month_field_padded m1 m2 m (d1 :: d2 :: "_"%char :: h1 :: h2 :: n1 :: n2 :: s1 :: [s2]) Hm)
    as [tl2 E2]; [lia|].
  destruct (day_field_padded d1 d2 d ("_"%char :: h1 :: h2 :: n1 :: n2 :: s1 :: [s2]) Hd)
    as [tl3 E3]; [lia|].
  destruct (hour_field_padded h1 h2 h (n1 :: n2 :: s1 :: [s2]) Hh) as [tl4 E4]; [lia|].
  destruct (minute_field_padded n1 n2 mi (s1 :: [s2]) Hmi) as [tl5 E5]; [lia|].
  destruct (second_field_padded s1 s2 se [] Hse) as [tl6 E6]; [lia|].
  unfold strptime_matches.
  rewrite (year_field_padded y1 y2 y3 y4 ya yb _ Hya Hyb).
  rewrite bind_cons. cbv beta iota. rewrite E2, bind_cons. cbv beta iota.
  rewrite E3, bind_cons. cbv beta iota.
  cbn [match_underscore Ascii.eqb Bool.eqb]. rewrite bind_cons. cbv beta iota.
  rewrite E4, bind_cons. cbv beta iota. rewrite E5, bind_cons. cbv beta iota.
  rewrite E6, bind_cons. cbv beta iota. cbn [mret list_ret app].
  rewrite andb_true_iff, !Nat.leb_le. lia.
Qed.

Lemma is_nat_ascii a x : Ascii.is_nat a = Some x -> is_ascii a = true.
Proof.
  intros [Hx ->]%is_nat_inv. by each_digit x.
Qed.

Lemma two_digits_ascii a b n :
  two_digits a b = Some n -> is_ascii a = true /\ is_ascii b = true.
Proof.
  unfold two_digits.
  destruct (Ascii.is_nat a) as [x|] eqn:Ha; [|done].
  destruct (Ascii.is_nat b) as [y|] eqn:Hb; [|done].
  intros _. split; by eapply is_nat_ascii.
Qed.

Lemma padded_timestamp_ascii name :
  padded_timestamp name = true -> ascii_name name = true.
Proof.
  unfold padded_timestamp, ascii_name.
  destruct (list_ascii_of_string name)
    as [|y1 [|y2 [|y3 [|y4 [|m1 [|m2 [|d1 [|d2 [|u [|h1 [|h2 [|n1 [|n2 [|s1 [|s2 [|]]]]]]]]]]]]]]]];
    try discriminate.
  destruct (two_digits y1 y2) as [ya|] eqn:Hya; [|done].
  destruct (two_digits y3 y4) as [yb|] eqn:Hyb; [|done].
  destruct (two_digits m1 m2) as [m|] eqn:Hm; [|done].
  destruct (two_digits d1 d2) as [d|] eqn:Hd; [|done].
  destruct (two_digits h1 h2) as [h|] eqn:Hh; [|done].
  destruct (two_digits n1 n2) as [mi|] eqn:Hmi; [|done].
  destruct (two_digits s1 s2) as [se|] eqn:Hse; [|done].
  cbv zeta. rewrite !andb_true_iff.
  intros ((((((((Hu%Ascii.eqb_eq & _) & _) & _) & _) & _) & _) & _) & _). subst u. cbn [forallb].
  apply two_digits_ascii in Hya as [-> ->], Hyb as [-> ->], Hm as [-> ->],
    Hd as [-> ->], Hh as [-> ->], Hmi as [-> ->], Hse as [-> ->].
  reflexivity.
Qed.

(** * The behaviour of the spool *)

(** ** Listing *)

(** A directory whose month and day are written with one digit is a backup
    of the listing: [time.strptime] accepts [2020011_000000] and
    [202011_000], which are not of the form [YYYYMMDD_HHMMSS]. *)
Lemma list_backups_unpadded_counterexample :
  let self := Backupset_init "mysql" "/mysql" in
  let w := World (Dir [("mysql", Dir [("202011_000", Dir []);
                                      ("2020011_000000", Dir []);
                                      ("20200101_000000", Dir [])])]) [] [] in
  padded_timestamp "2020011_000000" = false /\
  padded_timestamp "202011_000" = false /\
  strptime_accepts "2020011_000000" = true /\
  strptime_accepts "202011_000" = true /\
  Backupset_list_backups strptime_accepts self None false w =
    (Ok (Some [make_backup self "20200101_000000";
               make_backup self "2020011_000000";
               make_backup self "202011_000"]), w) /\
  ~ (forall d l,
       Backupset_list_backups strptime_accepts self None false w = (Ok (Some l), w) ->
       make_backup self d ∈ l -> padded_timestamp d = true).
Proof.
  intros self w.
  assert (Backupset_list_backups strptime_accepts self None false w =
            (Ok (Some [make_backup self "20200101_000000";
                       make_backup self "2020011_000000";
                       make_backup self "202011_000"]), w)) as Hl
    by (vm_compute; reflexivity).
  split_and!; try (vm_compute; reflexivity).
  intros H. specialize (H "202011_000" _ Hl).
  assert (padded_timestamp "202011_000" <> true) as Hne by (vm_compute; discriminate).
  apply Hne, H. do 2 apply list_elem_of_further. apply list_elem_of_here.
Qed.

(** C3: on a backupset directory that exists, [list_backups()] returns the
    handles of exactly the entries that are directories, are not symbolic
    links and have a name that [time.strptime] accepts for the format
    [%Y%m%d_%H%M%S]; the handles are in strictly ascending order of name,
    and [reverse=True] returns the same list reversed.  For the names of
    ASCII characters, the names accepted are those that the regular
    expression of the format matches to their end with a valid date; the
    names of the form [YYYYMMDD_HHMMSS] are among them, so every real
    directory with such a name is listed. *)
Theorem list_backups_real_timestamp_dirs strptime_ok self w names :
  listdir w (backupset_path self) = inr names -> NoDup names ->
  exists ds,
    Backupset_list_backups strptime_ok self None false w =
      (Ok (Some (map (make_backup self) ds)), w) /\
    Backupset_list_backups strptime_ok self None true w =
      (Ok (Some (rev (map (make_backup self) ds))), w) /\
    (forall d, d ∈ ds <->
       d ∈ names /\
       path_isdir w (path_join (backupset_path self) d) = true /\
       path_islink w (path_join (backupset_path self) d) = false /\
       strptime_ok d = true) /\
    StronglySorted (key_lt backup_name) (map (make_backup self) ds) /\
    (strptime_models strptime_ok ->
       (forall d, ascii_name d = true ->
          (d ∈ ds <->
             d ∈ names /\
             path_isdir w (path_join (backupset_path self) d) = true /\
             path_islink w (path_join (backupset_path self) d) = false /\
             strptime_accepts d = true)) /\
       (forall d,
          d ∈ names ->
          path_isdir w (path_join (backupset_path self) d) = true ->
          path_islink w (path_join (backupset_path self) d) = false ->
          padded_timestamp d = true -> d ∈ ds)).
Proof.
  intros Hls Hnd.
  exists (sort_by id (List.filter (is_backup_dir strptime_ok w self) names)).
  rewrite !(list_backups_unnamed strptime_ok self None _ w names eq_refl Hls).
  assert (forall d,
            d ∈ sort_by id (List.filter (is_backup_dir strptime_ok w self) names) <->
            d ∈ names /\
            path_isdir w (path_join (backupset_path self) d) = true /\
            path_islink w (path_join (backupset_path self) d) = false /\
            strptime_ok d = true) as Hmem.
  { intros d. rewrite (sort_by_perm id), !list_elem_of_In, filter_In.
    unfold is_backup_dir. cbn zeta.
    rewrite !andb_true_iff, negb_true_iff. tauto. }
  split_and!; try done.
  - apply make_backup_strict, sorted_strict; [|apply sort_by_sorted].
    rewrite map_id, (sort_by_perm id).
    apply NoDup_ListNoDup, List.NoDup_filter. by apply NoDup_ListNoDup.
  - intros Hlaw. split.
    + intros d Hd. by rewrite Hmem, (Hlaw d Hd).
    + intros d Hin Hisdir Hislink Hd. apply Hmem. split_and!; try done.
      rewrite (Hlaw d (padded_timestamp_ascii d Hd)).
      by apply padded_timestamp_accepted.
Qed.

Lemma strptime_accepts_models : strptime_models strptime_accepts.
Proof. by intros name _. Qed.

Lemma list_backups_real_timestamp_dirs_witness :
  exists ds,
    Backupset_list_backups strptime_accepts mysql None false sample_world =
      (Ok (Some (map (make_backup mysql) ds)), sample_world) /\
    Backupset_list_backups strptime_accepts mysql None true sample_world =
      (Ok (Some (rev (map (make_backup mysql) ds))), sample_world) /\
    StronglySorted (key_lt backup_name) (map (make_backup mysql) ds) /\
    (forall d, ascii_name d = true ->
       (d ∈ ds <->
          d ∈ map fst mysql_entries /\
          path_isdir sample_world (path_join (backupset_path mysql) d) = true /\
          path_islink sample_world (path_join (backupset_path mysql) d) = false /\
          strptime_accepts d = true)) /\
    (forall d,
       d ∈ map fst mysql_entries ->
       path_isdir sample_world (path_join (backupset_path mysql) d) = true ->
       path_islink sample_world (path_join (backupset_path mysql) d) = false ->
       padded_timestamp d = true -> d ∈ ds).
Proof.
  destruct (list_backups_real_timestamp_dirs strptime_accepts mysql sample_world
              (map fst mysql_entries))
    as (ds & H1 & H2 & _ & H4 & H5).
  - vm_compute. reflexivity.
  - apply (bool_decide_unpack _). vm_compute. exact I.
  - destruct (H5 strptime_accepts_models) as [H6 H7].
    exists ds. split_and!; assumption.
Defined.

(** C9: on a backupset directory that exists, [list_backups(name)] with a
    name that is not blank returns one handle when the path
    [<backupset path>/<stripped name>] exists and none when it does not;
    nothing else about the entry is examined, and [find_backup(name)]
    returns that handle. *)
Theorem list_backups_named_entry strptime_ok self name reverse w :
  path_exists w (backupset_path self) = true -> strip name <> "" ->
  let path := path_join (backupset_path self) (strip name) in
  let backup := Backup_init path (backupset_name self) (strip name) in
  Backupset_list_backups strptime_ok self (Some name) reverse w =
    (Ok (Some (if path_exists w path then [backup] else [])), w) /\
  Backupset_find_backup strptime_ok self name w =
    (Ok (if path_exists w path then Some backup else None), w).
Proof.
  intros Hex Hname path backup.
  assert (forall r, Backupset_list_backups strptime_ok self (Some name) r w =
            (Ok (Some (if path_exists w path then [backup] else [])), w)) as Hl.
  { intros r. by rewrite (list_backups_named strptime_ok self (Some name) r w Hex Hname). }
  split; [apply Hl|].
  unfold Backupset_find_backup. io_unfold. rewrite Hl.
  by destruct (path_exists w path).
Qed.

(** The [oldest] link of the sample is found by name, and is no backup of
    the listing. *)
Lemma list_backups_named_entry_witness :
  let backup := Backup_init "/var/spool/holland/mysql/oldest" "mysql" "oldest" in
  path_islink sample_world "/var/spool/holland/mysql/oldest" = true /\
  strptime_accepts "oldest" = false /\
  Backupset_list_backups strptime_accepts mysql (Some " oldest ") false sample_world =
    (Ok (Some [backup]), sample_world) /\
  Backupset_find_backup strptime_accepts mysql " oldest " sample_world =
    (Ok (Some backup), sample_world).
Proof.
  split; [vm_compute; reflexivity|]. split; [vm_compute; reflexivity|].
  apply (list_backups_named_entry strptime_accepts mysql " oldest " false sample_world).
  - vm_compute. reflexivity.
  - vm_compute. discriminate.
Defined.

(** What a listing returns is in ascending order of name. *)
Lemma list_backups_ascending strptime_ok self name w l w' :
  strip (or_empty name) = "" ->
  Backupset_list_backups strptime_ok self name false w = (Ok (Some l), w') ->
  StronglySorted (key_le backup_name) l.
Proof.
  intros Hname. unfold Backupset_list_backups, truthy. io_unfold.
  destruct (path_exists w (backupset_path self)); cbn [negb]; [|congruence].
  rewrite Hname. cbn [negb String.eqb].
  destruct (listdir w (backupset_path self)); [congruence|].
  intros [= <- _]. apply sort_by_sorted.
Qed.

Lemma find_backup_of_list strptime_ok self name w :
  Backupset_find_backup strptime_ok self name w =
    match Backupset_list_backups strptime_ok self (Some name) false w with
    | (Ok (Some (b :: _)), w') => (Ok (Some b), w')
    | (Ok _, w') => (Ok None, w')
    | (Raise e, w') => (Raise e, w')
    end.
Proof.
  unfold Backupset_find_backup. io_unfold.
  destruct (Backupset_list_backups strptime_ok self (Some name) false w)
    as [[[[|b l]|]|e] w']; done.
Qed.

Lemma find_backupset_eq self name w :
  Spool_find_backupset self name w =
    (Ok (if path_exists w (path_join (spool_path self) name)
         then Some (Backupset_init name (path_join (spool_path self) name))
         else None), w).
Proof.
  unfold Spool_find_backupset. io_unfold.
  by destruct (path_exists w (path_join (spool_path self) name)).
Qed.

(** A compound name with one separator. *)
Lemma split_sep_two a b :
  has_sep a = false -> has_sep b = false -> split_sep (a +:+ "/" +:+ b) = [a; b].
Proof.
  intros Ha Hb. by rewrite split_sep_app, (split_sep_no_sep a Ha), (split_sep_no_sep b Hb).
Qed.

(** C10: a name that is empty or blank after stripping is treated as no
    name: the listing is the full listing.  So on a backupset with a backup,
    [find_backup] with such a name returns the first handle of the ascending
    listing, the one with the least name, and so does [Spool.find_backup] for
    a compound name whose timestamp part is such a name. *)
Theorem blank_name_is_no_name strptime_ok self name w :
  strip name = "" ->
  (forall reverse,
     Backupset_list_backups strptime_ok self (Some name) reverse w =
     Backupset_list_backups strptime_ok self None reverse w) /\
  (forall b bs,
     Backupset_list_backups strptime_ok self None false w = (Ok (Some (b :: bs)), w) ->
     Backupset_find_backup strptime_ok self name w = (Ok (Some b), w) /\
     Forall (key_le backup_name b) bs /\
     forall spool,
       has_sep (backupset_name self) = false ->
       backupset_path self = path_join (spool_path spool) (backupset_name self) ->
       Spool_find_backup strptime_ok spool (backupset_name self +:+ "/" +:+ name) w =
         (Ok (Some b), w)).
Proof.
  intros Hname.
  assert (forall reverse,
     Backupset_list_backups strptime_ok self (Some name) reverse w =
     Backupset_list_backups strptime_ok self None reverse w) as Heq.
  { intros reverse. unfold Backupset_list_backups, truthy. io_unfold.
    change (or_empty (Some name)) with name.
    change (strip (or_empty None)) with "". by rewrite Hname. }
  split; [done|]. intros b bs Hl.
  assert (Backupset_find_backup strptime_ok self name w = (Ok (Some b), w)) as Hfind.
  { by rewrite find_backup_of_list, Heq, Hl. }
  split_and!; [done| |].
  - apply (list_backups_ascending strptime_ok self None w _ w eq_refl) in Hl.
    by apply StronglySorted_inv in Hl as [_ ?].
  - intros spool Hsep Hpath. unfold Spool_find_backup.
    rewrite (split_sep_two _ name Hsep (strip_empty_no_sep name Hname)).
    io_unfold. rewrite find_backupset_eq, <- Hpath.
    assert (path_exists w (backupset_path self) = true) as ->.
    { destruct (path_exists w (backupset_path self)) eqn:E; [done|].
      by rewrite (list_backups_missing strptime_ok self None false w E) in Hl. }
    assert (Backupset_init (backupset_name self) (backupset_path self) = self) as ->
      by (by destruct self).
    by rewrite Hfind.
Qed.

Lemma blank_name_is_no_name_witness :
  let b := make_backup mysql "20200101_000000" in
  Backupset_find_backup strptime_accepts mysql "" sample_world = (Ok (Some b), sample_world) /\
  Backupset_find_backup strptime_accepts mysql "  " sample_world = (Ok (Some b), sample_world) /\
  Spool_find_backup strptime_accepts sample_spool "mysql/" sample_world =
    (Ok (Some b), sample_world).
Proof.
  intros b.
  destruct (blank_name_is_no_name strptime_accepts mysql "" sample_world eq_refl)
    as [_ H1].
  destruct (blank_name_is_no_name strptime_accepts mysql "  " sample_world eq_refl)
    as [_ H2].
  destruct (H1 b (map (make_backup mysql) ["20200102_000000"; "20200103_000000"]))
    as (F1 & _ & S1); [vm_compute; reflexivity|].
  destruct (H2 b (map (make_backup mysql) ["20200102_000000"; "20200103_000000"]))
    as (F2 & _ & _); [vm_compute; reflexivity|].
  split; [exact F1|]. split; [exact F2|].
  apply (S1 sample_spool); reflexivity.
Defined.

(** ** Purging *)

(** C7: with a negative retention count the generator of [purge] raises
    [ValueError] when it is first advanced, whether by [next] or by
    consuming it, and the file system is as it was: nothing is removed. *)
Theorem purge_negative_retention strptime_ok realpath self n w :
  (n < 0)%Z ->
  purge_next strptime_ok realpath self (Backupset_purge self n) w = (Raise ValueError, w) /\
  purge_list strptime_ok realpath self (Backupset_purge self n) w = (Raise ValueError, w).
Proof.
  intros Hn%Z.ltb_lt. unfold Backupset_purge, purge_next, purge_list.
  by rewrite Hn.
Qed.

Lemma purge_negative_retention_witness :
  purge_next strptime_accepts resolved_realpath mysql (Backupset_purge mysql (-1)) sample_world =
    (Raise ValueError, sample_world) /\
  purge_list strptime_accepts resolved_realpath mysql (Backupset_purge mysql (-1)) sample_world =
    (Raise ValueError, sample_world).
Proof.
  apply (purge_negative_retention strptime_accepts resolved_realpath mysql (-1) sample_world).
  lia.
Defined.

(** ** Backupsets of a spool *)

(** C8: [add_backupset(name)] raises [IOError] when [<root>/<name>]
    exists; otherwise it returns the handle with that name and path.  In
    both cases the file system is as it was; in particular the directory
    is not created. *)
Theorem add_backupset_checks_existence self name w :
  let path := path_join (spool_path self) name in
  (path_exists w path = true ->
     Spool_add_backupset self name w = (Raise IOError, w)) /\
  (path_exists w path = false ->
     exists w', Spool_add_backupset self name w = (Ok (Backupset_init name path), w') /\
       w' = w /\ path_exists w' path = false).
Proof.
  intros path. unfold Spool_add_backupset. io_unfold. fold path.
  split; intros H; rewrite H; [done|]. by exists w.
Qed.

Lemma add_backupset_checks_existence_witness :
  Spool_add_backupset sample_spool "mysql" sample_world = (Raise IOError, sample_world) /\
  exists w',
    Spool_add_backupset sample_spool "pgsql" sample_world =
      (Ok (Backupset_init "pgsql" "/var/spool/holland/pgsql"), w') /\
    w' = sample_world /\ path_exists w' "/var/spool/holland/pgsql" = false.
Proof.
  split.
  - apply (add_backupset_checks_existence sample_spool "mysql" sample_world).
    vm_compute. reflexivity.
  - apply (add_backupset_checks_existence sample_spool "pgsql" sample_world).
    vm_compute. reflexivity.
Defined.

(** ** Finding a backup by its compound name *)

(** The compound name [mysql/], whose timestamp part is empty, is not
    rejected: the oldest backup is returned and nothing is logged.  Nor is
    [/mysql], whose backupset part is empty: the handle returned is that of
    the backupset directory itself. *)
Lemma find_backup_empty_part_counterexample :
  split_sep "mysql/" = ["mysql"; ""] /\
  Spool_find_backup strptime_accepts sample_spool "mysql/" sample_world =
    (Ok (Some (Backup_init "/var/spool/holland/mysql/20200101_000000"
                 "mysql" "20200101_000000")), sample_world) /\
  split_sep "/mysql" = [""; "mysql"] /\
  Spool_find_backup strptime_accepts sample_spool "/mysql" sample_world =
    (Ok (Some (Backup_init "/var/spool/holland/mysql" "" "mysql")), sample_world) /\
  ~ (forall spool name w,
       (forall a b, split_sep name = [a; b] -> a = "" \/ b = "") ->
       fst (Spool_find_backup strptime_accepts spool name w) = Ok None).
Proof.
  split; [reflexivity|]. split; [vm_compute; reflexivity|].
  split; [reflexivity|]. split; [vm_compute; reflexivity|].
  intros H. specialize (H sample_spool "mysql/" sample_world).
  assert (fst (Spool_find_backup strptime_accepts sample_spool "mysql/" sample_world)
          <> Ok None) as Hne by (vm_compute; discriminate).
  apply Hne, H. intros a b [= <- <-]. by right.
Qed.

(** The one exception of a lookup in a backupset is that of [os.listdir]. *)
Lemma find_backup_raises strptime_ok self name w e w' :
  Backupset_find_backup strptime_ok self name w = (Raise e, w') ->
  exists code, e = OSError code.
Proof.
  rewrite find_backup_of_list. unfold Backupset_list_backups, truthy. io_unfold.
  destruct (path_exists w (backupset_path self)); cbn [negb]; [|done].
  destruct (negb (String.eqb (strip (or_empty (Some name))) "")).
  { by destruct (path_exists w _). }
  destruct (listdir w (backupset_path self)) as [code|names].
  - intros [= <- _]. by eexists.
  - by destruct (sort_by _ _).
Qed.

(** C6: a name that does not split on the separator into exactly two parts
    is reported (a warning with the name is logged) and the result is
    [None], without an exception.  A name of two parts is never reported,
    whatever the parts are: the lookup is that of the backupset
    [<root>/<first part>] for the second part when that path exists, and
    [None] otherwise.  When the second part is not blank, the result is the
    handle of [<root>/<first part>/<second part stripped>] when that path
    exists and [None] when the backupset or the backup does not exist,
    without an exception and without a warning. *)
Theorem find_backup_invalid_or_missing strptime_ok spool name w :
  (List.length (split_sep name) <> 2 ->
     Spool_find_backup strptime_ok spool name w =
       (Ok None, World (tree w) (cwd w) (warnings w ++ [name]))) /\
  (forall backupset_name timestamp,
     split_sep name = [backupset_name; timestamp] -> strip timestamp <> "" ->
     let path := path_join (spool_path spool) backupset_name in
     path_exists w path = false \/
     path_exists w (path_join path (strip timestamp)) = false ->
     Spool_find_backup strptime_ok spool name w = (Ok None, w)) /\
  (forall backupset_name timestamp,
     split_sep name = [backupset_name; timestamp] ->
     let path := path_join (spool_path spool) backupset_name in
     Spool_find_backup strptime_ok spool name w =
       if path_exists w path
       then Backupset_find_backup strptime_ok (Backupset_init backupset_name path)
              timestamp w
       else (Ok None, w)) /\
  (forall backupset_name timestamp,
     split_sep name = [backupset_name; timestamp] -> strip timestamp <> "" ->
     let path := path_join (spool_path spool) backupset_name in
     let backup_path := path_join path (strip timestamp) in
     Spool_find_backup strptime_ok spool name w =
       (Ok (if path_exists w path && path_exists w backup_path
            then Some (Backup_init backup_path backupset_name (strip timestamp))
            else None), w)).
Proof.
  assert (forall bs ts,
            split_sep name = [bs; ts] ->
            Spool_find_backup strptime_ok spool name w =
              if path_exists w (path_join (spool_path spool) bs)
              then Backupset_find_backup strptime_ok
                     (Backupset_init bs (path_join (spool_path spool) bs)) ts w
              else (Ok None, w)) as Hdelegate.
  { intros bs ts Hsplit. unfold Spool_find_backup. rewrite Hsplit.
    io_unfold. rewrite find_backupset_eq.
    destruct (path_exists w (path_join (spool_path spool) bs)); [|done].
    destruct (Backupset_find_backup strptime_ok _ ts w) as [[r|e] w'] eqn:E; [done|].
    by destruct (find_backup_raises _ _ _ _ _ _ E) as [code ->]. }
  assert (forall bs ts,
            split_sep name = [bs; ts] -> strip ts <> "" ->
            Spool_find_backup strptime_ok spool name w =
              (Ok (if path_exists w (path_join (spool_path spool) bs) &&
                      path_exists w (path_join (path_join (spool_path spool) bs) (strip ts))
                   then Some (Backup_init
                                (path_join (path_join (spool_path spool) bs) (strip ts))
                                bs (strip ts))
                   else None), w)) as Hfound.
  { intros bs ts Hsplit Hts. rewrite (Hdelegate bs ts Hsplit).
    set (path := path_join (spool_path spool) bs).
    destruct (path_exists w path) eqn:Hex; [|done]. cbn [andb].
    rewrite find_backup_of_list.
    rewrite (list_backups_named strptime_ok (Backupset_init bs path) (Some ts)
               false w Hex Hts).
    cbn zeta. change (or_empty (Some ts)) with ts.
    cbn [backupset_path backupset_name Backupset_init].
    by destruct (path_exists w (path_join path (strip ts))). }
  split_and!.
  - intros Hlen. unfold Spool_find_backup. io_unfold.
    by destruct (split_sep name) as [|a [|b [|c l]]].
  - intros bs ts Hsplit Hts path Hmiss. rewrite (Hfound bs ts Hsplit Hts). fold path.
    destruct Hmiss as [-> | ->]; [done|]. by rewrite andb_false_r.
  - intros bs ts Hsplit path. apply (Hdelegate bs ts Hsplit).
  - intros bs ts Hsplit Hts path backup_path. apply (Hfound bs ts Hsplit Hts).
Qed.

Lemma find_backup_invalid_or_missing_witness :
  Spool_find_backup strptime_accepts sample_spool "mysql" sample_world =
    (Ok None, World sample_tree [] ["mysql"]) /\
  Spool_find_backup strptime_accepts sample_spool "a/b/c" sample_world =
    (Ok None, World sample_tree [] ["a/b/c"]) /\
  Spool_find_backup strptime_accepts sample_spool "pgsql/20200101_000000" sample_world =
    (Ok None, sample_world) /\
  Spool_find_backup strptime_accepts sample_spool "mysql/20210101_000000" sample_world =
    (Ok None, sample_world).
Proof.
  split_and!.
  - apply (find_backup_invalid_or_missing strptime_accepts sample_spool "mysql" sample_world).
    vm_compute. lia.
  - apply (find_backup_invalid_or_missing strptime_accepts sample_spool "a/b/c" sample_world).
    vm_compute. lia.
  - apply (find_backup_invalid_or_missing strptime_accepts sample_spool
             "pgsql/20200101_000000" sample_world) with "pgsql" "20200101_000000".
    + reflexivity.
    + vm_compute. discriminate.
    + left. vm_compute. reflexivity.
  - apply (find_backup_invalid_or_missing strptime_accepts sample_spool
             "mysql/20210101_000000" sample_world) with "mysql" "20210101_000000".
    + reflexivity.
    + vm_compute. discriminate.
    + right. vm_compute. reflexivity.
Defined.

(** ** Purging one backup *)

Lemma shrunk_remove_at t l : l <> [] -> shrunk t (remove_at t l).
Proof.
  intros Hl q. rewrite (kind_at_remove_at t l q Hl). case_bool_decide; auto.
Qed.

Lemma shrunk_refl t : shrunk t t.
Proof. intros q. by right. Qed.

Lemma shrunk_trans t1 t2 t3 : shrunk t1 t2 -> shrunk t2 t3 -> shrunk t1 t3.
Proof.
  intros H12 H23 q. destruct (H23 q) as [->|E]; [by left|].
  rewrite E. apply H12.
Qed.

Lemma get_emptied_below t l c r :
  get (update_dir (fun _ => []) t l) (l ++ c :: r) = None \/
  get (update_dir (fun _ => []) t l) (l ++ c :: r) = get t (l ++ c :: r).
Proof.
  revert t. induction l as [|a l IH]; intros t.
  - destruct t; cbn; auto.
  - destruct t as [|es|]; try (by right).
    rewrite <- !app_comm_cons. cbn [update_dir].
    rewrite !get_Dir_step, lookup_entry_map_entry, String.eqb_refl.
    destruct (lookup_entry a es) as [t'|]; [apply IH|by left].
Qed.

(** Emptying a directory removes what is below it and nothing else. *)
Lemma shrunk_emptied t l : shrunk t (update_dir (fun _ => []) t l).
Proof.
  intros q. destruct (decide (l `prefix_of` q)) as [[[|c r] ->]|Hnp].
  - right. apply kind_at_update_dir_other. intros c r E.
    rewrite app_nil_r in E. apply (f_equal (@List.length string)) in E.
    rewrite length_app in E. cbn in E. lia.
  - unfold kind_at. destruct (get_emptied_below t l c r) as [-> | ->]; auto.
  - right. apply kind_at_update_dir_other. intros c r ->. apply Hnp. by eexists.
Qed.

(** [os.rmdir] removes one entry. *)
Lemma os_rmdir_shrunk w p w' :
  os_rmdir w p = inr w' ->
  shrunk (tree w) (tree w') /\ cwd w' = cwd w /\ warnings w' = warnings w.
Proof.
  unfold os_rmdir. destruct (String.eqb p ""); [done|].
  destruct (all_sep p); [done|]. cbv zeta.
  destruct (walk_fuel (S max_links) (tree w) true _ _) as [e|lp]; [done|].
  assert (match last (split_sep (rstrip_sep p)) with
          | Some c =>
              if String.eqb c "." then inl EINVAL
              else if String.eqb c ".." then inl ENOTEMPTY
              else match get (tree w) (lp ++ [c]) with
                   | Some (Dir []) => inr (set_tree w (remove_at (tree w) (lp ++ [c])))
                   | Some (Dir (_ :: _)) => inl ENOTEMPTY
                   | Some _ => inl ENOTDIR
                   | None => inl ENOENT
                   end
          | None => inl ENOENT
          end = inr w' ->
          shrunk (tree w) (tree w') /\ cwd w' = cwd w /\ warnings w' = warnings w) as H.
  { destruct (last (split_sep (rstrip_sep p))) as [c|]; [|done].
    destruct (String.eqb c "."); [done|]. destruct (String.eqb c ".."); [done|].
    destruct (get (tree w) (lp ++ [c])) as [[|[|]|]|]; try done.
    intros [= <-]. split; [|done]. cbn [tree set_tree].
    apply shrunk_remove_at. by destruct lp. }
  destruct (kind_at (tree w) lp) as [[| |]|]; try done.
Qed.

(** The outcome of [shutil.rmtree], by what [os.lstat] finds. *)
Lemma rmtree_outcome p w :
  match lstat w p with
  | inl e => shutil_rmtree p w = (Raise (OSError (Some e)), w)
  | inr KFile => shutil_rmtree p w = (Raise (OSError (Some ENOTDIR)), w)
  | inr (KLink _) =>
      match resolve true w p with
      | inl e => shutil_rmtree p w = (Raise (OSError (Some e)), w)
      | inr l =>
          (forall tgt, kind_at (tree w) l <> Some (KLink tgt)) ->
          shutil_rmtree p w = (Raise (OSError None), w)
      end
  | inr KDir =>
      exists l, resolve true w p = inr l /\
        let w1 := set_tree w (update_dir (fun _ => []) (tree w) l) in
        shutil_rmtree p w =
          match os_rmdir w1 p with
          | inl e => (Raise (OSError (Some e)), w1)
          | inr w2 => (Ok tt, w2)
          end
  end.
Proof.
  unfold lstat, stat_at, shutil_rmtree.
  destruct (resolve false w p) as [e|l0] eqn:H0; [done|].
  destruct (kind_at (tree w) l0) as [[| |tgt]|] eqn:K0; [| | |done].
  - assert (resolve true w p = inr l0) as ->.
    { apply resolve_follow; [|done]. intros tgt. by rewrite K0. }
    rewrite bool_decide_true by done. cbn [negb].
    unfold kind_at in K0. by destruct (get (tree w) l0) as [[]|].
  - exists l0. assert (resolve true w p = inr l0) as ->.
    { apply resolve_follow; [|done]. intros tgt. by rewrite K0. }
    split; [done|]. rewrite bool_decide_true by done. cbn [negb].
    unfold kind_at in K0. by destruct (get (tree w) l0) as [[]|].
  - destruct (resolve true w p) as [e|l]; [done|]. intros Hl.
    rewrite bool_decide_false; [done|]. intros ->. by apply (Hl tgt).
Qed.

(** Purging, when the path is not the root, is [shutil.rmtree] with the
    [ENOENT] swallowed. *)
Lemma backup_purge_rmtree realpath self w :
  realpath w (backup_path self) <> "/" ->
  Backup_purge realpath self w =
    match shutil_rmtree (backup_path self) w with
    | (Raise (OSError (Some ENOENT)), w') => (Ok tt, w')
    | other => other
    end.
Proof.
  intros Hne%String.eqb_neq. unfold Backup_purge. io_unfold. rewrite Hne.
  destruct (shutil_rmtree (backup_path self) w) as [[[]|[| | | |[[]|]]] w']; done.
Qed.

(** A backup whose path ends in [..] denotes the directory above: the
    handle that [Spool.find_backup] returns for [mysql/..] has the spool
    directory as its real path, and purging it removes every backupset
    and reports success, with the directory itself still there. *)
Lemma backup_purge_dotdot_counterexample :
  let backup := Backup_init "/var/spool/holland/mysql/.." "mysql" ".." in
  Spool_find_backup strptime_accepts sample_spool "mysql/.." sample_world =
    (Ok (Some backup), sample_world) /\
  resolved_realpath sample_world (backup_path backup) = "/var/spool/holland" /\
  exists w',
    Backup_purge resolved_realpath backup sample_world = (Ok tt, w') /\
    path_isdir w' "/var/spool/holland" = true /\
    listdir w' "/var/spool/holland" = inr [] /\
    listdir sample_world "/var/spool/holland" = inr ["mysql"; "empty"; "afile"].
Proof.
  intros backup. split; [vm_compute; reflexivity|]. split; [vm_compute; reflexivity|].
  eexists. split; [vm_compute; reflexivity|]. vm_compute. done.
Qed.

(** C5: [Backup.purge] raises [AssertionError], with the file system
    untouched, when the real path of the backup is the root.  Otherwise it
    is [shutil.rmtree] with [ENOENT] taken for success: a path that is not
    there is a success that changes nothing, and so is a link to nothing; a
    file or a link to something is an error that changes nothing; a
    directory is emptied and then removed by the path it was given, and
    when that last step fails the directory stays, empty, and the error is
    raised unless it is [ENOENT].  Purging only removes.  For the path
    [<directory>/<name>] of a directory entry, the entry is removed with
    all below it, and nothing else. *)
Theorem backup_purge_guarded realpath self w :
  let path := backup_path self in
  (realpath w path = "/" ->
     Backup_purge realpath self w = (Raise AssertionError, w)) /\
  (realpath w path <> "/" ->
     match lstat w path with
     | inl ENOENT => Backup_purge realpath self w = (Ok tt, w)
     | inl e => Backup_purge realpath self w = (Raise (OSError (Some e)), w)
     | inr KFile => Backup_purge realpath self w = (Raise (OSError (Some ENOTDIR)), w)
     | inr (KLink _) =>
         match resolve true w path with
         | inl ENOENT => Backup_purge realpath self w = (Ok tt, w)
         | inl e => Backup_purge realpath self w = (Raise (OSError (Some e)), w)
         | inr l =>
             (forall tgt, kind_at (tree w) l <> Some (KLink tgt)) ->
             Backup_purge realpath self w = (Raise (OSError None), w)
         end
     | inr KDir =>
         exists l, resolve true w path = inr l /\
           let w1 := set_tree w (update_dir (fun _ => []) (tree w) l) in
           match os_rmdir w1 path with
           | inr w2 => Backup_purge realpath self w = (Ok tt, w2)
           | inl ENOENT => Backup_purge realpath self w = (Ok tt, w1)
           | inl e => Backup_purge realpath self w = (Raise (OSError (Some e)), w1)
           end
     end) /\
  (forall r w', Backup_purge realpath self w = (r, w') ->
     shrunk (tree w) (tree w') /\ cwd w' = cwd w /\ warnings w' = warnings w) /\
  (realpath_resolved realpath ->
   forall p cp es d,
     path = path_join p d -> directory_at w p cp es ->
     valid_name d = true -> is_real_dir es d = true ->
     exists w',
       Backup_purge realpath self w = (Ok tt, w') /\
       tree w' = update_dir (drop_entry d) (tree w) cp /\
       path_exists w' path = false).
Proof.
  intros path. split_and!.
  - intros Hroot. unfold Backup_purge. io_unfold. fold path. by rewrite Hroot.
  - intros Hne. rewrite (backup_purge_rmtree realpath self w Hne). fold path.
    pose proof (rmtree_outcome path w) as H.
    destruct (lstat w path) as [e|[| |tgt]].
    + rewrite H. by destruct e.
    + by rewrite H.
    + destruct H as (l & Hl & H). exists l. split; [done|]. cbv zeta in *.
      rewrite H. destruct (os_rmdir _ path) as [e|w2]; [by destruct e|done].
    + destruct (resolve true w path) as [e|l].
      * rewrite H. by destruct e.
      * intros Hl. by rewrite (H Hl).
  - intros r w'. unfold Backup_purge. io_unfold. fold path.
    destruct (String.eqb (realpath w path) "/").
    { intros [= <- <-]. by split; [apply shrunk_refl|]. }
    assert (forall r1 w1, shutil_rmtree path w = (r1, w1) ->
              shrunk (tree w) (tree w1) /\ cwd w1 = cwd w /\ warnings w1 = warnings w)
      as Hrm.
    { intros r1 w1. unfold shutil_rmtree.
      destruct (resolve false w path) as [e|l0].
      { intros [= <- <-]. by split; [apply shrunk_refl|]. }
      destruct (kind_at (tree w) l0).
      2:{ intros [= <- <-]. by split; [apply shrunk_refl|]. }
      destruct (resolve true w path) as [e|l].
      { intros [= <- <-]. by split; [apply shrunk_refl|]. }
      destruct (negb (bool_decide (l = l0))).
      { intros [= <- <-]. by split; [apply shrunk_refl|]. }
      destruct (get (tree w) l) as [[|es|]|];
        try (intros [= <- <-]; by split; [apply shrunk_refl|]).
      cbv zeta.
      destruct (os_rmdir (set_tree w (update_dir (fun _ => []) (tree w) l)) path)
        as [e|w2] eqn:Hrmdir.
      - intros [= <- <-]. split; [|done]. apply shrunk_emptied.
      - intros [= <- <-]. apply os_rmdir_shrunk in Hrmdir as (Hs & -> & ->).
        split; [|done]. eapply shrunk_trans; [apply shrunk_emptied|exact Hs]. }
    destruct (shutil_rmtree path w) as [[[]|e] w1] eqn:E;
      specialize (Hrm _ _ eq_refl).
    + by intros [= <- <-].
    + destruct e as [| | | |[[]|]]; by intros [= <- <-].
  - intros Hreal p cp es d Hpath Hdir Hd Hr.
    pose proof (directory_at_update w p cp es Hdir (drop_entry d)) as Hdir'.
    exists (set_tree w (update_dir (drop_entry d) (tree w) cp)).
    split_and!; [|done|].
    + unfold Backup_purge. io_unfold. fold path. rewrite Hpath.
      assert (resolve true w (path_join p d) = inr (cp ++ [d])) as Hres.
      { rewrite (directory_at_resolve_entry w _ cp es Hdir true d Hd).
        - unfold is_real_dir in Hr. by destruct (lookup_entry d es).
        - right. intros tgt E. unfold is_real_dir in Hr. by rewrite E in Hr. }
      rewrite (Hreal _ _ _ Hres).
      assert (String.eqb (render (cp ++ [d])) "/" = false) as ->.
      { apply String.eqb_neq, render_not_root.
        by destruct (valid_name_spec d Hd) as (_ & ? & _). }
      by rewrite (directory_at_rmtree w _ cp es Hdir d Hd Hr).
    + rewrite Hpath. unfold path_exists.
      rewrite (directory_at_stat _ p cp _ Hdir' d Hd);
        by rewrite lookup_entry_drop_same.
Qed.

Lemma backup_purge_guarded_witness :
  Backup_purge resolved_realpath (Backup_init "/var/.." "mysql" "x") sample_world =
    (Raise AssertionError, sample_world) /\
  Backup_purge resolved_realpath (make_backup mysql "20210101_000000") sample_world =
    (Ok tt, sample_world) /\
  Backup_purge resolved_realpath (make_backup mysql "20191231_235959") sample_world =
    (Raise (OSError (Some ENOTDIR)), sample_world) /\
  Backup_purge resolved_realpath (make_backup mysql "oldest") sample_world =
    (Raise (OSError None), sample_world) /\
  exists w',
    Backup_purge resolved_realpath (make_backup mysql "20200102_000000") sample_world =
      (Ok tt, w') /\
    tree w' = update_dir (drop_entry "20200102_000000") sample_tree mysql_loc /\
    path_exists w' "/var/spool/holland/mysql/20200102_000000" = false.
Proof.
  split_and!.
  - apply (backup_purge_guarded resolved_realpath (Backup_init "/var/.." "mysql" "x")
             sample_world).
    vm_compute. reflexivity.
  - pose proof (proj1 (proj2 (backup_purge_guarded resolved_realpath
                  (make_backup mysql "20210101_000000") sample_world))) as H.
    vm_compute in H. vm_compute. apply H. discriminate.
  - pose proof (proj1 (proj2 (backup_purge_guarded resolved_realpath
                  (make_backup mysql "20191231_235959") sample_world))) as H.
    vm_compute in H. vm_compute. apply H. discriminate.
  - pose proof (proj1 (proj2 (backup_purge_guarded resolved_realpath
                  (make_backup mysql "oldest") sample_world))) as H.
    vm_compute in H. vm_compute. apply H.
    + discriminate.
    + intros tgt. discriminate.
  - apply (proj2 (proj2 (proj2 (backup_purge_guarded resolved_realpath
                    (make_backup mysql "20200102_000000") sample_world)))
             resolved_realpath_law (backupset_path mysql) mysql_loc mysql_entries
             "20200102_000000" eq_refl sample_directory_at eq_refl eq_refl).
Defined.

(** ** Purging a backupset *)

Lemma StronglySorted_rev {A} (R : relation A) l :
  StronglySorted R l -> StronglySorted (flip R) (rev l).
Proof.
  induction 1 as [|x l Hs IH Hx]; simpl; [constructor|].
  apply StronglySorted_app_2; [|done|repeat constructor].
  intros a b Ha%list_elem_of_In%in_rev%list_elem_of_In ->%list_elem_of_singleton.
  rewrite Forall_forall in Hx. by apply Hx.
Qed.

Lemma directory_at_without w p cp es ds :
  directory_at w p cp es ->
  directory_at (set_tree w (update_dir (without ds) (tree w) cp)) p cp (without ds es).
Proof. intros Hdir. by apply directory_at_update. Qed.

(** A removed entry of a directory does not exist. *)
Lemma without_not_exists w p cp es ds d :
  directory_at w p cp es -> valid_name d = true -> d ∈ ds ->
  path_exists (set_tree w (update_dir (without ds) (tree w) cp)) (path_join p d) = false.
Proof.
  intros Hdir Hd Hin%mem_spec.
  assert (lookup_entry d (without ds es) = None) as Hnone.
  { unfold without. by rewrite (lookup_entry_filter (fun c => negb (mem c ds))), Hin. }
  unfold path_exists.
  rewrite (directory_at_stat _ p cp _ (directory_at_without w p cp es ds Hdir) d Hd);
    by rewrite Hnone.
Qed.

(** C1: on a backupset directory with [k] backups, consuming the
    generator of [purge(n)], [n >= 0], succeeds, removes the [k - n] backups
    with the least names (none when [n >= k]) and leaves the others: the
    removed ones no longer exist, all other entries of the directory are as
    they were, and a later [list_backups()] returns the [min n k] backups
    that were kept. *)
Theorem purge_keeps_newest strptime_ok realpath self w cp es n :
  realpath_resolved realpath ->
  directory_at w (backupset_path self) cp es -> entries_ok es -> (0 <= n)%Z ->
  let ds := backup_dirs strptime_ok es in
  let k := List.length ds in
  let old := take (k - Z.to_nat n) ds in
  let kept := drop (k - Z.to_nat n) ds in
  exists removed w',
    purge_list strptime_ok realpath self (Backupset_purge self n) w = (Ok removed, w') /\
    removed ≡ₚ map (make_backup self) old /\
    Z.of_nat (List.length removed) = Z.max 0 (Z.of_nat k - n) /\
    (forall a b, a ∈ old -> b ∈ kept -> String.ltb a b = true) /\
    Forall (fun b => path_exists w' (backup_path b) = false) removed /\
    directory_at w' (backupset_path self) cp (without old es) /\
    Backupset_list_backups strptime_ok self None false w' =
      (Ok (Some (map (make_backup self) kept)), w') /\
    Z.of_nat (List.length kept) = Z.min n (Z.of_nat k) /\
    (n = 0%Z -> kept = []) /\
    (Z.of_nat k <= n -> removed = [] /\ w' = w)%Z.
Proof.
  intros Hreal Hdir Hes Hn ds k old kept.
  pose proof (backup_dirs_NoDup strptime_ok es Hes) as Hnd. fold ds in Hnd.
  pose proof (backup_dirs_strict strptime_ok es Hes) as Hsorted. fold ds in Hsorted.
  pose proof (backup_dirs_real strptime_ok es Hes) as Hds. fold ds in Hds.
  exists (map (make_backup self) (rev old)),
         (set_tree w (update_dir (without old) (tree w) cp)).
  split_and!.
  - apply (purge_list_entries strptime_ok realpath Hreal self w cp es n Hdir Hes Hn).
  - apply Permutation_map. symmetry. apply Permutation_rev.
  - rewrite length_map, length_rev. unfold old. rewrite length_take. fold k. lia.
  - intros a b Ha Hb.
    apply (StronglySorted_app_1_elem_of (key_lt id) old kept a b); [|done..].
    unfold old, kept. by rewrite firstn_skipn.
  - apply Forall_map, Forall_rev, Forall_forall. intros d Hd.
    cbn [backup_path make_backup Backup_init].
    apply (without_not_exists w _ cp es old d Hdir); [|done].
    assert (Forall (fun d => valid_name d = true /\ is_real_dir es d = true) old)
      as Hold by (by apply Forall_take).
    rewrite Forall_forall in Hold. by apply Hold.
  - by apply directory_at_without.
  - rewrite (list_backups_directory_at strptime_ok self _ cp (without old es) false
               (directory_at_without w _ cp es old Hdir)
               (entries_ok_filter (fun c => negb (mem c old)) es Hes)).
    cbn zeta. rewrite backup_dirs_without. fold ds.
    unfold old. by rewrite (filter_not_in_take ds _ Hnd).
  - unfold kept. rewrite length_drop. fold k. lia.
  - intros ->. unfold kept. rewrite Nat.sub_0_r. apply drop_all.
  - intros Hk. assert (old = []) as ->.
    { unfold old. replace (k - Z.to_nat n) with 0 by lia. done. }
    split; [done|].
    by rewrite (update_dir_id (without []) _ _ without_nil), set_tree_same.
Qed.

Lemma purge_keeps_newest_witness :
  exists removed w',
    purge_list strptime_accepts resolved_realpath mysql (Backupset_purge mysql 1)
      sample_world = (Ok removed, w') /\
    removed ≡ₚ map (make_backup mysql) ["20200101_000000"; "20200102_000000"] /\
    Backupset_list_backups strptime_accepts mysql None false w' =
      (Ok (Some [make_backup mysql "20200103_000000"]), w').
Proof.
  destruct (purge_keeps_newest strptime_accepts resolved_realpath mysql sample_world
              mysql_loc mysql_entries 1 resolved_realpath_law sample_directory_at
              sample_entries_ok ltac:(lia))
    as (removed & w' & H1 & H2 & _ & _ & _ & _ & H3 & _).
  exists removed, w'. split; [exact H1|]. split; [exact H2|exact H3].
Defined.

(** With three backups and one to keep, the two oldest are removed and
    the newer of the two is yielded first. *)
Lemma purge_yields_oldest_first_counterexample :
  fst (purge_list strptime_accepts resolved_realpath mysql (Backupset_purge mysql 1)
         sample_world) =
    Ok [make_backup mysql "20200102_000000"; make_backup mysql "20200101_000000"] /\
  String.ltb (backup_name (make_backup mysql "20200101_000000"))
             (backup_name (make_backup mysql "20200102_000000")) = true /\
  ~ (forall self n w removed,
       fst (purge_list strptime_accepts resolved_realpath self (Backupset_purge self n) w)
         = Ok removed ->
       StronglySorted (key_le backup_name) removed).
Proof.
  split; [vm_compute; reflexivity|]. split; [vm_compute; reflexivity|].
  intros H.
  specialize (H mysql 1%Z sample_world _ ltac:(vm_compute; reflexivity)).
  apply StronglySorted_inv in H as [_ H]. apply Forall_inv in H.
  vm_compute in H. discriminate H.
Qed.

(** C2: the backups that [purge(n)] removes are yielded newest first: the
    sequence is the reverse of the [k - n] first handles of the ascending
    listing, so it is in strictly descending order of name. *)
Theorem purge_yields_newest_first strptime_ok realpath self w cp es n :
  realpath_resolved realpath ->
  directory_at w (backupset_path self) cp es -> entries_ok es -> (0 <= n)%Z ->
  exists l removed w',
    Backupset_list_backups strptime_ok self None false w = (Ok (Some l), w) /\
    purge_list strptime_ok realpath self (Backupset_purge self n) w = (Ok removed, w') /\
    removed = rev (take (List.length l - Z.to_nat n) l) /\
    StronglySorted (flip (key_lt backup_name)) removed.
Proof.
  intros Hreal Hdir Hes Hn.
  set (ds := backup_dirs strptime_ok es).
  exists (map (make_backup self) ds),
         (map (make_backup self) (rev (take (List.length ds - Z.to_nat n) ds))),
         (set_tree w (update_dir (without (take (List.length ds - Z.to_nat n) ds))
                        (tree w) cp)).
  split_and!.
  - apply (list_backups_directory_at strptime_ok self w cp es false Hdir Hes).
  - apply (purge_list_entries strptime_ok realpath Hreal self w cp es n Hdir Hes Hn).
  - by rewrite length_map, map_rev, firstn_map.
  - rewrite map_rev. apply StronglySorted_rev, make_backup_strict.
    apply (StronglySorted_app_1_l _ _ (drop (List.length ds - Z.to_nat n) ds)).
    rewrite firstn_skipn. by apply backup_dirs_strict.
Qed.

Lemma purge_yields_newest_first_witness :
  exists l removed w',
    Backupset_list_backups strptime_accepts mysql None false sample_world =
      (Ok (Some l), sample_world) /\
    purge_list strptime_accepts resolved_realpath mysql (Backupset_purge mysql 1)
      sample_world = (Ok removed, w') /\
    removed = rev (take (List.length l - Z.to_nat 1) l) /\
    StronglySorted (flip (key_lt backup_name)) removed.
Proof.
  apply (purge_yields_newest_first strptime_accepts resolved_realpath mysql sample_world
           mysql_loc mysql_entries 1 resolved_realpath_law sample_directory_at
           sample_entries_ok).
  lia.
Defined.

(** ** The links to the oldest and the newest backup *)

Lemma drop_entry_absent d es : lookup_entry d es = None -> drop_entry d es = es.
Proof.
  unfold drop_entry. induction es as [|[n x] es IH]; simpl; [done|].
  destruct (String.eqb n d); [done|]. intros H. simpl. by rewrite IH.
Qed.

Lemma remove_link_entry w p cp es d :
  directory_at w p cp es -> valid_name d = true -> is_real_dir es d = false ->
  exists w', remove_link (path_join p d) w = (Ok tt, w') /\
             directory_at w' p cp (drop_entry d es).
Proof.
  intros Hdir Hd Hr. unfold remove_link. io_unfold.
  rewrite (directory_at_os_remove w p cp es Hdir d Hd Hr).
  destruct (lookup_entry d es) eqn:E.
  - eexists. split; [done|]. by apply directory_at_update.
  - exists w. split; [done|]. by rewrite drop_entry_absent.
Qed.

Lemma symlink_entry w p cp es src d :
  directory_at w p cp es -> valid_name d = true -> lookup_entry d es = None ->
  exists w', syscall (fun w => os_symlink w src (path_join p d)) w = (Ok tt, w') /\
             directory_at w' p cp (add_entry d (Link src) es).
Proof.
  intros Hdir Hd Hnone. unfold syscall.
  rewrite (directory_at_os_symlink w p cp es Hdir src d Hd Hnone).
  eexists. split; [done|]. by apply directory_at_update.
Qed.

Lemma last_cons_default {A} (x y : A) l : List.last (y :: l) x = List.last l y.
Proof.
  revert x y. induction l as [|z l IH]; intros x y; [done|].
  change (List.last (y :: z :: l) x) with (List.last (z :: l) x).
  by rewrite (IH x z), (IH y z).
Qed.

Lemma last_map_default {A B} (f : A -> B) l d :
  List.last (map f l) (f d) = f (List.last l d).
Proof.
  revert d. induction l as [|x l IH]; intros d; [done|].
  cbn [map]. rewrite !last_cons_default. apply IH.
Qed.







(** * Further behaviour *)

(** ** The backupsets of a spool *)

Lemma path_isdir_exists w p : path_isdir w p = true -> path_exists w p = true.
Proof. unfold path_isdir, path_exists. by destruct (stat w p) as [|[]]. Qed.

Lemma sort_backupsets root ds :
  sort_by backupset_name (map (fun d => Backupset_init d (path_join root d)) ds) =
    map (fun d => Backupset_init d (path_join root d)) (sort_by id ds).
Proof. by rewrite sort_by_map. Qed.

(** On a spool root that can be listed, [list_backupsets()] returns the
    handles, bound to [<root>/<name>], of exactly the entries that are
    directories or links to directories, in strictly ascending order of
    name; [reverse=True] returns the same list reversed, and nothing on
    disk changes. *)
Theorem list_backupsets_directories self w names :
  listdir w (spool_path self) = inr names -> NoDup names ->
  exists ds,
    let handles := map (fun d => Backupset_init d (path_join (spool_path self) d)) ds in
    Spool_list_backupsets self None false w = (Ok handles, w) /\
    Spool_list_backupsets self None true w = (Ok (rev handles), w) /\
    (forall d, d ∈ ds <->
       d ∈ names /\ path_isdir w (path_join (spool_path self) d) = true) /\
    StronglySorted (key_lt backupset_name) handles.
Proof.
  intros Hls Hnd.
  set (ds := sort_by id (List.filter
                 (fun d => path_isdir w (path_join (spool_path self) d)) names)).
  exists ds. cbv zeta.
  assert (forall r, Spool_list_backupsets self None r w =
            (Ok (let l := map (fun d => Backupset_init d (path_join (spool_path self) d)) ds
                 in if r then rev l else l), w)) as Heq.
  { intros r. unfold Spool_list_backupsets. io_unfold.
    rewrite (listdir_exists _ _ _ Hls). cbn [negb]. change (truthy (or_empty None)) with false.
    cbv beta iota. rewrite Hls. cbv zeta. by rewrite sort_backupsets. }
  split_and!; [apply Heq|apply Heq| |].
  - intros d. unfold ds. rewrite (sort_by_perm id), !list_elem_of_In, filter_In. done.
  - assert (StronglySorted (key_lt id) ds) as Hs.
    { apply sorted_strict; [|apply sort_by_sorted].
      rewrite map_id. unfold ds. rewrite (sort_by_perm id).
      apply NoDup_ListNoDup, List.NoDup_filter. by apply NoDup_ListNoDup. }
    clear Heq. induction Hs as [|d l Hs IH Hd]; simpl; constructor; [done|].
    apply Forall_map. done.
Qed.

Lemma list_backupsets_directories_witness :
  exists ds,
    let handles := map (fun d => Backupset_init d (path_join (spool_path sample_spool) d)) ds in
    Spool_list_backupsets sample_spool None false sample_world = (Ok handles, sample_world) /\
    Spool_list_backupsets sample_spool None true sample_world =
      (Ok (rev handles), sample_world) /\
    (forall d, d ∈ ds <->
       d ∈ ["mysql"; "empty"; "afile"] /\
       path_isdir sample_world (path_join (spool_path sample_spool) d) = true) /\
    StronglySorted (key_lt backupset_name) handles.
Proof.
  apply (list_backupsets_directories sample_spool sample_world ["mysql"; "empty"; "afile"]).
  - vm_compute. reflexivity.
  - apply (bool_decide_unpack _). vm_compute. exact I.
Defined.

(** [list_backupsets(name)] with a name: no handle when the spool root or
    [<root>/<name>] does not exist, and otherwise the one handle for the
    name, whatever kind of entry it is; the name is not stripped. *)
Theorem list_backupsets_named self name reverse w :
  name <> "" ->
  let path := path_join (spool_path self) name in
  Spool_list_backupsets self (Some name) reverse w =
    (Ok (if path_exists w (spool_path self) && path_exists w path
         then [Backupset_init name path] else []), w).
Proof.
  intros Hname%String.eqb_neq path. unfold Spool_list_backupsets. io_unfold.
  change (or_empty (Some name)) with name. unfold truthy. rewrite Hname. cbn [negb].
  fold path.
  destruct (path_exists w (spool_path self)); cbn [negb andb]; [|done].
  destruct (path_exists w path); cbn [negb]; [|done].
  by destruct reverse.
Qed.

(** The plain file [afile] of the sample spool gets a handle by name. *)
Lemma list_backupsets_named_witness :
  Spool_list_backupsets sample_spool (Some "afile") false sample_world =
    (Ok [Backupset_init "afile" "/var/spool/holland/afile"], sample_world) /\
  Spool_list_backupsets sample_spool (Some " mysql") false sample_world =
    (Ok [], sample_world).
Proof.
  split.
  - apply (list_backupsets_named sample_spool "afile" false sample_world). discriminate.
  - apply (list_backupsets_named sample_spool " mysql" false sample_world). discriminate.
Defined.

(** ** All the backups of a spool *)

(** What [list_backupsets] returns exists; it changes nothing, and its
    only exception is the [OSError] of [os.listdir]. *)
Lemma list_backupsets_exist self name reverse w r w' :
  Spool_list_backupsets self name reverse w = (r, w') ->
  w' = w /\
  match r with
  | Ok sets => Forall (fun b => path_exists w (backupset_path b) = true) sets
  | Raise e => exists code, e = OSError (Some code)
  end.
Proof.
  unfold Spool_list_backupsets. io_unfold.
  destruct (path_exists w (spool_path self)); cbn [negb].
  2:{ intros [= <- <-]. by split. }
  destruct (truthy (or_empty name)).
  - destruct (path_exists w (path_join (spool_path self) (or_empty name))) eqn:E;
      cbn [negb]; intros [= <- <-]; (split; [done|]); [|done].
    destruct reverse; cbn; by repeat constructor.
  - destruct (listdir w (spool_path self)) as [e|names].
    { intros [= <- <-]. split; [done|]. eauto. }
    intros [= <- <-]. split; [done|].
    assert (Forall (fun b => path_exists w (backupset_path b) = true)
              (sort_by backupset_name
                 (map (fun d => Backupset_init d (path_join (spool_path self) d))
                    (List.filter (fun b => path_isdir w (path_join (spool_path self) b))
                       names)))) as H.
    { rewrite (sort_by_perm backupset_name). apply Forall_map, Forall_forall.
      intros d [_ Hd]%list_elem_of_In%filter_In. by apply path_isdir_exists. }
    destruct reverse; [by apply Forall_rev|done].
Qed.

Lemma list_backups_of_exist strptime_ok w sets : forall r w',
  Forall (fun b => path_exists w (backupset_path b) = true) sets ->
  list_backups_of strptime_ok sets w = (r, w') ->
  w' = w /\
  match r with
  | Ok l => exists lists,
      Forall2 (fun b bl => Backupset_list_backups strptime_ok b None false w =
                             (Ok (Some bl), w)) sets lists /\
      l = List.concat lists
  | Raise e => exists code, e = OSError (Some code)
  end.
Proof.
  induction sets as [|b sets IH]; intros r w' Hsets.
  - intros [= <- <-]. split; [done|]. exists []. by split; [constructor|].
  - apply Forall_cons in Hsets as [Hb Hsets]. cbn [list_backups_of]. io_unfold.
    destruct (Backupset_list_backups strptime_ok b None false w) as [[[l|]|e] w1] eqn:E.
    + pose proof (list_backups_world _ _ _ _ _ _ _ E) as ->.
      destruct (list_backups_of strptime_ok sets w) as [[more|e] w2] eqn:E2;
        destruct (IH _ _ Hsets eq_refl) as [-> H]; intros [= <- <-]; (split; [done|]).
      * destruct H as (lists & HF & ->). exists (l :: lists). split; [by constructor|done].
      * done.
    + unfold Backupset_list_backups in E. revert E. io_unfold. rewrite Hb. cbn [negb].
      change (truthy (strip (or_empty None))) with false. cbv beta iota.
      by destruct (listdir w (backupset_path b)).
    + pose proof (list_backups_world _ _ _ _ _ _ _ E) as ->.
      apply list_backups_raise in E. by intros [= <- <-].
Qed.

(** Consuming [Spool.list_backups] changes nothing on disk.  When it
    succeeds the result is the concatenation, in the order of the
    backupsets, of the listings of the backupsets of [list_backupsets];
    when it fails, the exception is the [OSError] of an [os.listdir],
    never the [TypeError] of iterating over a missing listing. *)
Theorem spool_list_backups_flattens strptime_ok self name w r w' :
  Spool_list_backups strptime_ok self name w = (r, w') ->
  w' = w /\
  match r with
  | Ok l => exists sets lists,
      Spool_list_backupsets self name false w = (Ok sets, w) /\
      Forall2 (fun b bl => Backupset_list_backups strptime_ok b None false w =
                             (Ok (Some bl), w)) sets lists /\
      l = List.concat lists
  | Raise e => exists code, e = OSError (Some code)
  end.
Proof.
  unfold Spool_list_backups. unfold mbind, io_bind.
  destruct (Spool_list_backupsets self name false w) as [[sets|e] w1] eqn:E;
    destruct (list_backupsets_exist _ _ _ _ _ _ E) as [-> H].
  - intros H2. destruct (list_backups_of_exist strptime_ok w sets r w' H H2) as [-> H3].
    split; [done|]. destruct r as [l|e]; [|done].
    destruct H3 as (lists & ? & ?). by exists sets, lists.
  - by intros [= <- <-].
Qed.

Lemma spool_list_backups_flattens_witness :
  (exists sets lists,
      Spool_list_backupsets sample_spool None false sample_world = (Ok sets, sample_world) /\
      Forall2 (fun b bl => Backupset_list_backups strptime_accepts b None false sample_world =
                             (Ok (Some bl), sample_world)) sets lists /\
      map (make_backup mysql) ["20200101_000000"; "20200102_000000"; "20200103_000000"] =
        List.concat lists) /\
  exists code,
    fst (Spool_list_backups strptime_accepts sample_spool (Some "afile") sample_world) =
      Raise (OSError (Some code)).
Proof.
  split.
  - apply (spool_list_backups_flattens strptime_accepts sample_spool None sample_world
             (Ok (map (make_backup mysql)
                    ["20200101_000000"; "20200102_000000"; "20200103_000000"]))
             sample_world).
    vm_compute. reflexivity.
  - destruct (spool_list_backups_flattens strptime_accepts sample_spool (Some "afile")
                sample_world (Raise (OSError (Some ENOTDIR))) sample_world)
      as [_ [code Hc]]; [vm_compute; reflexivity|].
    exists ENOTDIR. vm_compute. reflexivity.
Defined.

(** ** A backupset directory that is missing *)

(** When the backupset directory does not exist, the listing is [None]
    and [find_backup] returns [None], but iterating over the backupset and
    advancing the generator of [purge(n)], [n >= 0], raise [TypeError]; in
    all cases nothing changes on disk. *)
Theorem missing_backupset_directory strptime_ok realpath self n w :
  path_exists w (backupset_path self) = false -> (0 <= n)%Z ->
  (forall name reverse,
     Backupset_list_backups strptime_ok self name reverse w = (Ok None, w)) /\
  (forall name, Backupset_find_backup strptime_ok self name w = (Ok None, w)) /\
  Backupset_iter strptime_ok self w = (Raise TypeError, w) /\
  purge_next strptime_ok realpath self (Backupset_purge self n) w = (Raise TypeError, w) /\
  purge_list strptime_ok realpath self (Backupset_purge self n) w = (Raise TypeError, w).
Proof.
  intros Hex Hn%Z.ltb_ge.
  pose proof (fun name reverse =>
                list_backups_missing strptime_ok self name reverse w Hex) as Hl.
  split_and!; [done| | | |].
  - intros name. by rewrite find_backup_of_list, Hl.
  - unfold Backupset_iter. io_unfold. by rewrite Hl.
  - unfold Backupset_purge, purge_next. rewrite Hn. io_unfold. by rewrite Hl.
  - unfold Backupset_purge, purge_list. rewrite Hn. io_unfold. by rewrite Hl.
Qed.

Lemma missing_backupset_directory_witness :
  let pgsql := Backupset_init "pgsql" "/var/spool/holland/pgsql" in
  Backupset_iter strptime_accepts pgsql sample_world = (Raise TypeError, sample_world) /\
  purge_list strptime_accepts resolved_realpath pgsql (Backupset_purge pgsql 2) sample_world =
    (Raise TypeError, sample_world).
Proof.
  intros pgsql.
  destruct (missing_backupset_directory strptime_accepts resolved_realpath pgsql 2
              sample_world) as (_ & _ & H1 & _ & H2).
  - vm_compute. reflexivity.
  - lia.
  - split; [exact H1|exact H2].
Defined.

(** ** The handles of a listing *)

(** Every handle that [list_backups] returns, with or without a name, is
    bound to the path [<backupset path>/<d>] of an entry that exists, so
    [Backup.exists()] holds for it; it carries the name of the backupset
    and the name [<backupset name>/<d>]. *)
Theorem listed_backups_exist strptime_ok self name reverse w l w' :
  Backupset_list_backups strptime_ok self name reverse w = (Ok (Some l), w') ->
  Forall (fun b =>
            Backup_exists b w' = (Ok true, w') /\
            exists d, b = make_backup self d) l.
Proof.
  unfold Backupset_list_backups, Backup_exists. io_unfold.
  destruct (path_exists w (backupset_path self)); cbn [negb]; [|done].
  destruct (truthy (strip (or_empty name))).
  - destruct (path_exists w (path_join (backupset_path self) (strip (or_empty name))))
      eqn:E; intros [= <- <-]; [|constructor].
    repeat constructor; [|by eexists].
    cbn [backup_path Backup_init]. by rewrite E.
  - destruct (listdir w (backupset_path self)) as [e|names]; [done|].
    intros [= <- <-].
    assert (Forall (fun b => (Ok (path_exists w (backup_path b)), w) = (Ok true, w) /\
                             exists d, b = make_backup self d)
              (sort_by backup_name
                 (map (make_backup self)
                    (List.filter (is_backup_dir strptime_ok w self) names)))) as H.
    { rewrite (sort_by_perm backup_name). apply Forall_map, Forall_forall.
      intros d [_ Hd]%list_elem_of_In%filter_In. split; [|by eexists].
      cbn [backup_path make_backup Backup_init].
      unfold is_backup_dir in Hd. cbn zeta in Hd.
      apply andb_true_iff in Hd as [[Hd _]%andb_true_iff _].
      by rewrite (path_isdir_exists _ _ Hd). }
    destruct reverse; [by apply Forall_rev|done].
Qed.

Lemma listed_backups_exist_witness :
  Forall (fun b =>
            Backup_exists b sample_world = (Ok true, sample_world) /\
            exists d, b = make_backup mysql d)
    (map (make_backup mysql) ["20200103_000000"; "20200102_000000"; "20200101_000000"]).
Proof.
  apply (listed_backups_exist strptime_accepts mysql None true sample_world).
  vm_compute. reflexivity.
Defined.

(** ** Comparing backupsets *)

Lemma string_compare_refl x : String.compare x x = Eq.
Proof.
  pose proof (String.compare_antisym x x) as H.
  by destruct (String.compare x x).
Qed.

(** [Backupset.__cmp__] is the three-way comparison of the names: it is
    [0] exactly on equal names, [-1] exactly when the name of the first is
    below the name of the second, [1] exactly in the opposite case, has no
    other value, and changes sign when the arguments are swapped. *)
Theorem backupset_cmp_three_way a b :
  let c := Backupset_cmp a b in
  (c = 0 <-> backupset_name a = backupset_name b)%Z /\
  (c = -1 <-> String.ltb (backupset_name a) (backupset_name b) = true)%Z /\
  (c = 1 <-> String.ltb (backupset_name b) (backupset_name a) = true)%Z /\
  (c = 0 \/ c = -1 \/ c = 1)%Z /\
  (Backupset_cmp b a = - c)%Z.
Proof.
  unfold Backupset_cmp, cmp_string.
  generalize (backupset_name a) (backupset_name b). intros x y. cbv zeta.
  assert (x = y -> String.compare x y = Eq) as Hrefl
    by (intros ->; apply string_compare_refl).
  pose proof (String.compare_eq_iff x y) as Heq.
  unfold String.ltb. rewrite (String.compare_antisym y x).
  destruct (String.compare x y) eqn:E; cbn [CompOpp Z.b2z].
  - split_and!; try lia; try (split; [lia|discriminate]).
    split; [intros _; by apply Heq|lia].
  - split_and!; try lia; try (split; [lia|discriminate]); try (split; [done|lia]).
    split; [lia|]. intros H%Hrefl. discriminate H.
  - split_and!; try lia; try (split; [lia|discriminate]); try (split; [done|lia]).
    split; [lia|]. intros H%Hrefl. discriminate H.
Qed.

(** ** Advancing the generator of [purge] *)

Lemma without_one d es : without [d] es = drop_entry d es.
Proof.
  unfold without, drop_entry. apply List.filter_ext. intros e.
  cbn [mem existsb]. by rewrite orb_false_r.
Qed.

(** The first [next] on the generator of [purge(n)]: with at most [n]
    backups it ends at once ([StopIteration]) and nothing is removed; with
    more, it removes one backup, the newest of those that are to go, and
    yields it; all other backups are still there, the older ones waiting
    in the suspended generator. *)
Theorem purge_next_removes_one strptime_ok realpath self w cp es n :
  realpath_resolved realpath ->
  directory_at w (backupset_path self) cp es -> entries_ok es -> (0 <= n)%Z ->
  let ds := backup_dirs strptime_ok es in
  let m := List.length ds - Z.to_nat n in
  match m with
  | 0 => purge_next strptime_ok realpath self (Backupset_purge self n) w =
           (Ok (None, Finished), w)
  | S m' =>
      exists d w',
        ds !! m' = Some d /\
        purge_next strptime_ok realpath self (Backupset_purge self n) w =
          (Ok (Some (make_backup self d),
               Suspended (map (make_backup self) (rev (take m' ds)))), w') /\
        path_exists w' (path_join (backupset_path self) d) = false /\
        Backupset_list_backups strptime_ok self None false w' =
          (Ok (Some (map (make_backup self)
                       (List.filter (fun c => negb (String.eqb c d)) ds))), w')
  end.
Proof.
  intros Hreal Hdir Hes Hn ds m.
  assert (purge_next strptime_ok realpath self (Backupset_purge self n) w =
            purge_loop realpath (map (make_backup self) (rev (take m ds))) w) as ->.
  { unfold Backupset_purge, purge_next. apply Z.ltb_ge in Hn. rewrite Hn. io_unfold.
    rewrite (list_backups_directory_at strptime_ok self w cp es true Hdir Hes).
    cbv zeta. fold ds. by rewrite <- map_rev, skipn_map, skipn_rev. }
  destruct m as [|m'] eqn:Hm; [done|].
  assert (m' < List.length ds) as Hlt by lia.
  destruct (lookup_lt_is_Some_2 ds m' Hlt) as [d Hd].
  exists d, (set_tree w (update_dir (drop_entry d) (tree w) cp)).
  pose proof (backup_dirs_real strptime_ok es Hes) as Hreal_ds. fold ds in Hreal_ds.
  rewrite Forall_forall in Hreal_ds.
  destruct (Hreal_ds d (list_elem_of_lookup_2 _ _ _ Hd)) as [Hv Hr].
  split_and!; [done| | |].
  - rewrite (take_S_r ds m' d Hd), rev_app_distr. cbn [rev app map purge_loop].
    io_unfold. by rewrite (backup_purge_entry realpath Hreal self w cp es d Hdir Hv Hr).
  - rewrite <- (update_dir_ext _ _ (tree w) cp (without_one d)).
    apply (without_not_exists w _ cp es [d] d Hdir Hv). apply list_elem_of_here.
  - rewrite (list_backups_directory_at strptime_ok self _ cp (drop_entry d es) false
               (directory_at_update w _ cp es Hdir (drop_entry d))
               (entries_ok_filter (fun c => negb (String.eqb c d)) es Hes)).
    cbv zeta. rewrite <- without_one, backup_dirs_without. fold ds.
    rewrite (List.filter_ext (fun c => negb (mem c [d]))
               (fun c => negb (String.eqb c d))); [done|].
    intros c. cbn [mem existsb]. by rewrite orb_false_r.
Qed.

Lemma purge_next_removes_one_witness :
  exists d w',
    backup_dirs strptime_accepts mysql_entries !! 1 = Some d /\
    purge_next strptime_accepts resolved_realpath mysql (Backupset_purge mysql 1)
      sample_world =
      (Ok (Some (make_backup mysql d),
           Suspended (map (make_backup mysql)
                        (rev (take 1 (backup_dirs strptime_accepts mysql_entries))))), w') /\
    path_exists w' (path_join (backupset_path mysql) d) = false /\
    Backupset_list_backups strptime_accepts mysql None false w' =
      (Ok (Some (map (make_backup mysql)
                   (List.filter (fun c => negb (String.eqb c d))
                      (backup_dirs strptime_accepts mysql_entries)))), w').
Proof.
  apply (purge_next_removes_one strptime_accepts resolved_realpath mysql sample_world
           mysql_loc mysql_entries 1 resolved_realpath_law sample_directory_at
           sample_entries_ok).
  lia.
Defined.

(** After the generator of [purge(n)] has been consumed, consuming the
    generator of a second [purge] that keeps at least as many backups
    removes nothing and leaves the disk as it is. *)
Theorem purge_again_removes_nothing strptime_ok realpath self w cp es n n' :
  realpath_resolved realpath ->
  directory_at w (backupset_path self) cp es -> entries_ok es ->
  (0 <= n)%Z -> (n <= n')%Z ->
  exists removed w',
    purge_list strptime_ok realpath self (Backupset_purge self n) w = (Ok removed, w') /\
    purge_list strptime_ok realpath self (Backupset_purge self n') w' = (Ok [], w').
Proof.
  intros Hreal Hdir Hes Hn Hn'.
  set (ds := backup_dirs strptime_ok es).
  set (old := take (List.length ds - Z.to_nat n) ds).
  exists (map (make_backup self) (rev old)),
         (set_tree w (update_dir (without old) (tree w) cp)).
  split; [apply (purge_list_entries strptime_ok realpath Hreal self w cp es n Hdir Hes Hn)|].
  rewrite (purge_list_entries strptime_ok realpath Hreal self _ cp (without old es) n'
             (directory_at_without w _ cp es old Hdir)
             (entries_ok_filter (fun c => negb (mem c old)) es Hes) ltac:(lia)).
  cbv zeta. rewrite backup_dirs_without. fold ds.
  assert (List.filter (fun d => negb (mem d old)) ds =
            drop (List.length ds - Z.to_nat n) ds) as ->
    by apply (filter_not_in_take ds _ (backup_dirs_NoDup strptime_ok es Hes)).
  rewrite length_drop.
  replace (List.length ds - (List.length ds - Z.to_nat n) - Z.to_nat n') with 0 by lia.
  cbn [take rev map]. f_equal.
  rewrite (update_dir_id (without []) _ _ without_nil). apply set_tree_same.
Qed.

Lemma purge_again_removes_nothing_witness :
  exists removed w',
    purge_list strptime_accepts resolved_realpath mysql (Backupset_purge mysql 1)
      sample_world = (Ok removed, w') /\
    purge_list strptime_accepts resolved_realpath mysql (Backupset_purge mysql 2) w' =
      (Ok [], w').
Proof.
  apply (purge_again_removes_nothing strptime_accepts resolved_realpath mysql sample_world
           mysql_loc mysql_entries 1 2 resolved_realpath_law sample_directory_at
           sample_entries_ok); lia.
Defined.

(** ** The links and the listing *)

Lemma drop_entry_filter d es :
  drop_entry d es = List.filter (fun e => negb (String.eqb (fst e) d)) es.
Proof. reflexivity. Qed.

Lemma entries_ok_drop d es : entries_ok es -> entries_ok (drop_entry d es).
Proof. apply (entries_ok_filter (fun c => negb (String.eqb c d))). Qed.

Lemma entries_ok_add c x es :
  entries_ok es -> valid_name c = true -> lookup_entry c es = None ->
  entries_ok (add_entry c x es).
Proof.
  intros [Hnd Hv] Hc Hnone%lookup_entry_None. unfold entries_ok, add_entry.
  rewrite map_app. cbn [map fst]. split.
  - apply NoDup_app. split_and!; [done| |apply NoDup_singleton].
    intros d Hd ->%list_elem_of_singleton. done.
  - apply Forall_app. split; [done|]. by repeat constructor.
Qed.

(** A new link in a directory is no backup. *)
Lemma backup_dirs_add_link ok c tgt es :
  lookup_entry c es = None ->
  backup_dirs ok (add_entry c (Link tgt) es) = backup_dirs ok es.
Proof.
  intros Hnone. unfold backup_dirs, add_entry. f_equal.
  rewrite map_app, List.filter_app. cbn [map fst List.filter].
  assert (is_real_dir (es ++ [(c, Link tgt)]) c = false) as ->.
  { unfold is_real_dir. fold (add_entry c (Link tgt) es).
    by rewrite lookup_entry_add, Hnone, String.eqb_refl. }
  cbn [andb]. rewrite app_nil_r. apply List.filter_ext_in.
  intros d Hd. f_equal. unfold is_real_dir. fold (add_entry c (Link tgt) es).
  rewrite lookup_entry_add.
  destruct (lookup_entry d es) eqn:E; [done|].
  apply lookup_entry_None in E. by apply list_elem_of_In in Hd.
Qed.

(** Removing an entry that is not a directory removes no backup. *)
Lemma backup_dirs_drop ok d es :
  is_real_dir es d = false -> backup_dirs ok (drop_entry d es) = backup_dirs ok es.
Proof.
  intros Hd. rewrite <- without_one, backup_dirs_without. apply filter_all.
  intros c Hc%list_elem_of_In%backup_dirs_elem. cbn [mem existsb].
  rewrite orb_false_r. apply negb_true_iff, String.eqb_neq. intros ->.
  destruct Hc as (_ & Hc & _). congruence.
Qed.

(** The entries of the directory after [update_symlinks()]. *)
Lemma update_symlinks_entries strptime_ok self w cp es :
  directory_at w (backupset_path self) cp es -> entries_ok es ->
  is_real_dir es "oldest" = false -> is_real_dir es "newest" = false ->
  exists w' es',
    Backupset_update_symlinks strptime_ok self true w = (Ok tt, w') /\
    directory_at w' (backupset_path self) cp es' /\ entries_ok es' /\
    backup_dirs strptime_ok es' = backup_dirs strptime_ok es /\
    match backup_dirs strptime_ok es with
    | [] => lookup_entry "oldest" es' = None /\ lookup_entry "newest" es' = None
    | first :: others =>
        lookup_entry "oldest" es' = Some (Link (path_join (backupset_path self) first)) /\
        lookup_entry "newest" es' =
          Some (Link (path_join (backupset_path self) (List.last others first)))
    end.
Proof.
  intros Hdir Hes Ho Hn.
  unfold Backupset_update_symlinks. cbn [negb]. unfold mbind, io_bind, mret, io_ret.
  rewrite (list_backups_directory_at strptime_ok self w cp es false Hdir Hes).
  cbv zeta.
  destruct (remove_link_entry w _ cp es "oldest" Hdir eq_refl Ho) as (w1 & -> & Hdir1).
  assert (is_real_dir (drop_entry "oldest" es) "newest" = false) as Hn1.
  { unfold is_real_dir in *. by rewrite lookup_entry_drop_other. }
  destruct (remove_link_entry w1 _ cp _ "newest" Hdir1 eq_refl Hn1) as (w2 & -> & Hdir2).
  assert (backup_dirs strptime_ok (drop_entry "newest" (drop_entry "oldest" es)) =
            backup_dirs strptime_ok es) as Hb2.
  { by rewrite (backup_dirs_drop _ _ _ Hn1), (backup_dirs_drop _ _ _ Ho). }
  pose proof (entries_ok_drop "newest" _ (entries_ok_drop "oldest" _ Hes)) as Hes2.
  set (es2 := drop_entry "newest" (drop_entry "oldest" es)) in *.
  assert (lookup_entry "oldest" es2 = None) as Ho2.
  { unfold es2. by rewrite lookup_entry_drop_other, lookup_entry_drop_same. }
  assert (lookup_entry "newest" es2 = None) as Hn2.
  { unfold es2. by rewrite lookup_entry_drop_same. }
  destruct (backup_dirs strptime_ok es) as [|first others] eqn:Hds.
  - by exists w2, es2.
  - cbn [map]. cbv beta. rewrite last_map_default.
    cbn [backup_path make_backup Backup_init].
    set (last := List.last others first).
    destruct (symlink_entry w2 _ cp es2 (path_join (backupset_path self) first)
                "oldest" Hdir2 eq_refl Ho2) as (w3 & -> & Hdir3).
    pose proof (entries_ok_add "oldest" (Link (path_join (backupset_path self) first))
                  es2 Hes2 eq_refl Ho2) as Hes3.
    pose proof (backup_dirs_add_link strptime_ok "oldest"
                  (path_join (backupset_path self) first) es2 Ho2) as Hb3.
    set (es3 := add_entry "oldest" _ es2) in *.
    assert (lookup_entry "newest" es3 = None) as Hn3.
    { unfold es3. by rewrite lookup_entry_add, Hn2. }
    destruct (symlink_entry w3 _ cp es3 (path_join (backupset_path self) last)
                "newest" Hdir3 eq_refl Hn3) as (w4 & -> & Hdir4).
    exists w4, (add_entry "newest" (Link (path_join (backupset_path self) last)) es3).
    split_and!; try done.
    + by apply entries_ok_add.
    + by rewrite (backup_dirs_add_link _ _ _ _ Hn3), Hb3.
    + unfold es3. by rewrite !lookup_entry_add, Ho2.
    + by rewrite lookup_entry_add, Hn3.
Qed.

(** [update_symlinks()] removes and adds links only: the backups that
    [list_backups()] returns afterwards are the ones it returned before,
    and running it a second time succeeds and leaves the two links
    pointing where they point. *)
Theorem update_symlinks_keeps_backups strptime_ok self w cp es :
  directory_at w (backupset_path self) cp es -> entries_ok es ->
  is_real_dir es "oldest" = false -> is_real_dir es "newest" = false ->
  exists l w' w'',
    Backupset_list_backups strptime_ok self None false w = (Ok (Some l), w) /\
    Backupset_update_symlinks strptime_ok self true w = (Ok tt, w') /\
    Backupset_list_backups strptime_ok self None false w' = (Ok (Some l), w') /\
    Backupset_update_symlinks strptime_ok self true w' = (Ok tt, w'') /\
    readlink w'' (path_join (backupset_path self) "oldest") =
      readlink w' (path_join (backupset_path self) "oldest") /\
    readlink w'' (path_join (backupset_path self) "newest") =
      readlink w' (path_join (backupset_path self) "newest").
Proof.
  intros Hdir Hes Ho Hn.
  destruct (update_symlinks_entries strptime_ok self w cp es Hdir Hes Ho Hn)
    as (w' & es' & Hup & Hdir' & Hes' & Hb & Hlinks).
  assert (is_real_dir es' "oldest" = false /\ is_real_dir es' "newest" = false)
    as [Ho' Hn'].
  { unfold is_real_dir.
    destruct (backup_dirs strptime_ok es); destruct Hlinks as [-> ->]; done. }
  destruct (update_symlinks_entries strptime_ok self w' cp es' Hdir' Hes' Ho' Hn')
    as (w'' & es'' & Hup' & Hdir'' & Hes'' & Hb' & Hlinks').
  exists (map (make_backup self) (backup_dirs strptime_ok es)), w', w''.
  split_and!; try done.
  - apply (list_backups_directory_at strptime_ok self w cp es false Hdir Hes).
  - rewrite (list_backups_directory_at strptime_ok self w' cp es' false Hdir' Hes').
    cbv zeta. by rewrite Hb.
  - unfold readlink.
    rewrite (directory_at_lstat w'' _ cp es'' Hdir'' "oldest" eq_refl),
            (directory_at_lstat w' _ cp es' Hdir' "oldest" eq_refl).
    rewrite Hb in Hlinks'.
    destruct (backup_dirs strptime_ok es); destruct Hlinks as [-> _], Hlinks' as [-> _]; done.
  - unfold readlink.
    rewrite (directory_at_lstat w'' _ cp es'' Hdir'' "newest" eq_refl),
            (directory_at_lstat w' _ cp es' Hdir' "newest" eq_refl).
    rewrite Hb in Hlinks'.
    destruct (backup_dirs strptime_ok es); destruct Hlinks as [_ ->], Hlinks' as [_ ->]; done.
Qed.

Lemma update_symlinks_keeps_backups_witness :
  exists l w' w'',
    Backupset_list_backups strptime_accepts mysql None false sample_world =
      (Ok (Some l), sample_world) /\
    Backupset_update_symlinks strptime_accepts mysql true sample_world = (Ok tt, w') /\
    Backupset_list_backups strptime_accepts mysql None false w' = (Ok (Some l), w') /\
    Backupset_update_symlinks strptime_accepts mysql true w' = (Ok tt, w'') /\
    readlink w'' (path_join (backupset_path mysql) "oldest") =
      readlink w' (path_join (backupset_path mysql) "oldest") /\
    readlink w'' (path_join (backupset_path mysql) "newest") =
      readlink w' (path_join (backupset_path mysql) "newest").
Proof.
  apply (update_symlinks_keeps_backups strptime_accepts mysql sample_world mysql_loc
           mysql_entries sample_directory_at sample_entries_ok); reflexivity.
Defined.

(** After the generator of [purge(n)] has been consumed,
    [update_symlinks()] leaves no link when no backup was kept, and
    otherwise makes [oldest] point to the oldest backup that was kept and
    [newest] to the newest one. *)
Theorem purge_then_update_symlinks strptime_ok realpath self w cp es n :
  realpath_resolved realpath ->
  directory_at w (backupset_path self) cp es -> entries_ok es ->
  is_real_dir es "oldest" = false -> is_real_dir es "newest" = false ->
  (0 <= n)%Z ->
  let ds := backup_dirs strptime_ok es in
  exists removed w' w'',
    purge_list strptime_ok realpath self (Backupset_purge self n) w = (Ok removed, w') /\
    Backupset_update_symlinks strptime_ok self true w' = (Ok tt, w'') /\
    match drop (List.length ds - Z.to_nat n) ds with
    | [] =>
        lstat w'' (path_join (backupset_path self) "oldest") = inl ENOENT /\
        lstat w'' (path_join (backupset_path self) "newest") = inl ENOENT
    | first :: others =>
        readlink w'' (path_join (backupset_path self) "oldest") =
          Some (path_join (backupset_path self) first) /\
        readlink w'' (path_join (backupset_path self) "newest") =
          Some (path_join (backupset_path self) (List.last others first))
    end.
Proof.
  intros Hreal Hdir Hes Ho Hn Hn0 ds.
  set (old := take (List.length ds - Z.to_nat n) ds).
  pose proof (purge_list_entries strptime_ok realpath Hreal self w cp es n Hdir Hes Hn0)
    as Hpurge. cbv zeta in Hpurge. fold ds old in Hpurge.
  pose proof (directory_at_without w _ cp es old Hdir) as Hdir'.
  pose proof (entries_ok_filter (fun c => negb (mem c old)) es Hes) as Hes'.
  fold (without old es) in Hes'.
  assert (forall c, is_real_dir es c = false -> is_real_dir (without old es) c = false)
    as Hkeep.
  { intros c Hc. unfold is_real_dir, without in *.
    rewrite (lookup_entry_filter (fun c => negb (mem c old))).
    by destruct (negb (mem c old)). }
  destruct (update_symlinks_entries strptime_ok self _ cp (without old es) Hdir' Hes'
              (Hkeep _ Ho) (Hkeep _ Hn))
    as (w'' & es'' & Hup & Hdir'' & _ & _ & Hlinks).
  eexists _, _, w''. split; [exact Hpurge|]. split; [exact Hup|].
  rewrite backup_dirs_without in Hlinks. fold ds in Hlinks.
  unfold old in Hlinks.
  rewrite (filter_not_in_take ds _ (backup_dirs_NoDup strptime_ok es Hes)) in Hlinks.
  unfold readlink, lstat at 1 2.
  rewrite (directory_at_resolve_entry w'' _ cp es'' Hdir'' false "oldest" eq_refl
             (or_introl eq_refl)),
          (directory_at_resolve_entry w'' _ cp es'' Hdir'' false "newest" eq_refl
             (or_introl eq_refl)).
  rewrite (directory_at_lstat w'' _ cp es'' Hdir'' "oldest" eq_refl),
          (directory_at_lstat w'' _ cp es'' Hdir'' "newest" eq_refl).
  destruct (drop (List.length ds - Z.to_nat n) ds); destruct Hlinks as [-> ->]; done.
Qed.

Lemma purge_then_update_symlinks_witness :
  exists removed w' w'',
    purge_list strptime_accepts resolved_realpath mysql (Backupset_purge mysql 0)
      sample_world = (Ok removed, w') /\
    Backupset_update_symlinks strptime_accepts mysql true w' = (Ok tt, w'') /\
    lstat w'' (path_join (backupset_path mysql) "oldest") = inl ENOENT /\
    lstat w'' (path_join (backupset_path mysql) "newest") = inl ENOENT.
Proof.
  apply (purge_then_update_symlinks strptime_accepts resolved_realpath mysql sample_world
           mysql_loc mysql_entries 0 resolved_realpath_law sample_directory_at
           sample_entries_ok); (reflexivity || lia).
Defined.

(** ** Finding a backup again *)

Lemma lstrip_head s :
  lstrip s = "" \/ exists c r, lstrip s = String c r /\ is_space c = false.
Proof.
  induction s as [|c s IH]; simpl; [by left|].
  destruct (is_space c) eqn:E; [done|]. right. eauto.
Qed.

Lemma rstrip_head c s :
  is_space c = false -> exists r, rstrip (String c s) = String c r.
Proof. intros E. simpl. rewrite E. destruct (rstrip s); eauto. Qed.

Lemma rstrip_idemp s : rstrip (rstrip s) = rstrip s.
Proof.
  induction s as [|c s IH]; [done|]. simpl.
  destruct (rstrip s) as [|c' r] eqn:E.
  - destruct (is_space c) eqn:Ec; [done|]. simpl. by rewrite Ec.
  - simpl in IH |- *. by rewrite IH.
Qed.

Lemma strip_idemp s : strip (strip s) = strip s.
Proof.
  unfold strip. destruct (lstrip_head s) as [->|(c & r & -> & Hc)]; [done|].
  destruct (rstrip_head c r Hc) as [r' Hr]. rewrite Hr.
  cbn [lstrip]. rewrite Hc, <- Hr. apply rstrip_idemp.
Qed.

Lemma has_sep_lstrip s : has_sep s = false -> has_sep (lstrip s) = false.
Proof.
  induction s as [|c s IH]; simpl; [done|].
  intros [Hc Hs]%orb_false_iff. destruct (is_space c); [by apply IH|].
  simpl. by rewrite Hc, Hs.
Qed.

Lemma has_sep_rstrip s : has_sep s = false -> has_sep (rstrip s) = false.
Proof.
  induction s as [|c s IH]; simpl; [done|].
  intros [Hc Hs]%orb_false_iff. specialize (IH Hs).
  destruct (rstrip s); [destruct (is_space c)|]; simpl in *; by rewrite ?Hc, ?IH.
Qed.

Lemma has_sep_strip s : has_sep s = false -> has_sep (strip s) = false.
Proof. intros H. by apply has_sep_rstrip, has_sep_lstrip. Qed.

(** What [Spool.find_backup] does on a name of two parts. *)
Lemma find_backup_two_parts strptime_ok spool bs ts w :
  has_sep bs = false -> has_sep ts = false -> strip ts <> "" ->
  let path := path_join (path_join (spool_path spool) bs) (strip ts) in
  Spool_find_backup strptime_ok spool (bs +:+ "/" +:+ ts) w =
    (Ok (if path_exists w (path_join (spool_path spool) bs) && path_exists w path
         then Some (Backup_init path bs (strip ts)) else None), w).
Proof.
  intros Hbs Hts Hne path. unfold Spool_find_backup.
  rewrite (split_sep_two bs ts Hbs Hts). io_unfold. rewrite find_backupset_eq.
  destruct (path_exists w (path_join (spool_path spool) bs)) eqn:Hex; [|done].
  rewrite find_backup_of_list.
  rewrite (list_backups_named strptime_ok (Backupset_init bs _) (Some ts) false w Hex Hne).
  cbv zeta. change (or_empty (Some ts)) with ts.
  cbn [backupset_path backupset_name Backupset_init andb]. fold path.
  by destruct (path_exists w path).
Qed.

(** A backup that [Spool.find_backup] finds under a name
    [<backupset>/<timestamp>] whose timestamp part is not blank has the
    name [<backupset>/<stripped timestamp>], and looking that name up
    finds the same backup. *)
Theorem find_backup_round_trip strptime_ok spool bs ts w b :
  has_sep bs = false -> has_sep ts = false -> strip ts <> "" ->
  Spool_find_backup strptime_ok spool (bs +:+ "/" +:+ ts) w = (Ok (Some b), w) ->
  backup_name b = bs +:+ "/" +:+ strip ts /\
  backup_backupset b = bs /\
  Spool_find_backup strptime_ok spool (backup_name b) w = (Ok (Some b), w).
Proof.
  intros Hbs Hts Hne.
  rewrite (find_backup_two_parts strptime_ok spool bs ts w Hbs Hts Hne). cbv zeta.
  destruct (path_exists w (path_join (spool_path spool) bs) &&
            path_exists w (path_join (path_join (spool_path spool) bs) (strip ts)))
    eqn:Hex; [|done].
  intros [= <-]. cbn [backup_name backup_backupset Backup_init]. split_and!; [done..|].
  rewrite (find_backup_two_parts strptime_ok spool bs (strip ts) w Hbs
             (has_sep_strip ts Hts)); [|by rewrite strip_idemp].
  cbv zeta. by rewrite strip_idemp, Hex.
Qed.

Lemma find_backup_round_trip_witness :
  let b := make_backup mysql "20200102_000000" in
  backup_name b = "mysql/20200102_000000" /\
  backup_backupset b = "mysql" /\
  Spool_find_backup strptime_accepts sample_spool (backup_name b) sample_world =
    (Ok (Some b), sample_world).
Proof.
  apply (find_backup_round_trip strptime_accepts sample_spool "mysql"
           " 20200102_000000 " sample_world).
  - reflexivity.
  - reflexivity.
  - vm_compute. discriminate.
  - vm_compute. reflexivity.
Defined.

(** [Spool.find_backup] only reads the disk: the tree and the working
    directory are as before; the log grows, by the name, exactly when the
    name does not split into two parts, and then the result is [None];
    the only exception that can escape is the [OSError] of listing a
    backupset whose path is not a directory. *)
Theorem find_backup_reads_only strptime_ok spool name w r w' :
  Spool_find_backup strptime_ok spool name w = (r, w') ->
  tree w' = tree w /\ cwd w' = cwd w /\
  (if decide (List.length (split_sep name) = 2) then warnings w' = warnings w
   else warnings w' = warnings w ++ [name] /\ r = Ok None) /\
  (forall e, r = Raise e -> exists code, e = OSError (Some code)).
Proof.
  unfold Spool_find_backup.
  destruct (split_sep name) as [|bs [|ts [|c l]]] eqn:Hs; io_unfold;
    try (intros [= <- <-]; by cbn).
  rewrite find_backupset_eq.
  destruct (path_exists w (path_join (spool_path spool) bs)).
  2:{ intros [= <- <-]. by cbn. }
  rewrite find_backup_of_list.
  destruct (Backupset_list_backups strptime_ok _ (Some ts) false w)
    as [[[[|b0 l]|]|e] w1] eqn:E;
    pose proof (list_backups_world _ _ _ _ _ _ _ E) as ->;
    try (intros [= <- <-]; by cbn).
  destruct (list_backups_raise _ _ _ _ _ _ _ E) as [code ->].
  intros [= <- <-]. cbn. split_and!; try done. intros e [= <-]. eauto.
Qed.

Lemma find_backup_reads_only_witness :
  let r : res (option Backup) := Raise (OSError (Some ENOTDIR)) in
  tree sample_world = tree sample_world /\ cwd sample_world = cwd sample_world /\
  (if decide (List.length (split_sep "afile/") = 2)
   then warnings sample_world = warnings sample_world
   else warnings sample_world = warnings sample_world ++ ["afile/"] /\ r = Ok None) /\
  (forall e, r = Raise e -> exists code, e = OSError (Some code)).
Proof.
  apply (find_backup_reads_only strptime_accepts sample_spool "afile/" sample_world
           (Raise (OSError (Some ENOTDIR))) sample_world).
  vm_compute. reflexivity.
Defined.


(** ** Adding a backup *)

Lemma insert_by_snoc_max {A} (key : A -> string) x l m :
  String.leb (key x) (key m) = true ->
  insert_by key x (l ++ [m]) = insert_by key x l ++ [m].
Proof.
  intros Hx. induction l as [|y l IH]; simpl; [by rewrite Hx|].
  destruct (String.leb (key x) (key y)); [done|]. by rewrite IH.
Qed.

Lemma sort_by_snoc_max {A} (key : A -> string) l m :
  Forall (fun x => String.leb (key x) (key m) = true) l ->
  sort_by key (l ++ [m]) = sort_by key l ++ [m].
Proof.
  induction 1 as [|x l Hx Hl IH]; simpl; [done|].
  rewrite IH. by apply insert_by_snoc_max.
Qed.

(** A new directory with a timestamp name that is above all the others
    is the last backup of the directory. *)
Lemma backup_dirs_add_newest ok ts es :
  lookup_entry ts es = None -> ok ts = true ->
  Forall (fun d => String.leb d ts = true) (backup_dirs ok es) ->
  backup_dirs ok (add_entry ts (Dir []) es) = backup_dirs ok es ++ [ts].
Proof.
  intros Hnone Hok Hmax. unfold backup_dirs in *. unfold add_entry at 2.
  rewrite map_app, List.filter_app. cbn [map fst List.filter].
  assert (is_real_dir (add_entry ts (Dir []) es) ts = true) as ->.
  { unfold is_real_dir. by rewrite lookup_entry_add, Hnone, String.eqb_refl. }
  rewrite Hok. cbn [andb].
  rewrite (List.filter_ext_in (fun d => is_real_dir (add_entry ts (Dir []) es) d && ok d)
             (fun d => is_real_dir es d && ok d)).
  - apply (sort_by_snoc_max id). by rewrite (sort_by_perm id) in Hmax.
  - intros d Hd. f_equal. unfold is_real_dir. rewrite lookup_entry_add.
    destruct (lookup_entry d es) eqn:E; [done|].
    apply lookup_entry_None in E. by apply list_elem_of_In in Hd.
Qed.

Lemma string_length_S s : s <> "" -> exists n, String.length s = S n.
Proof. destruct s; [done|]. simpl. eauto. Qed.

(** [Backupset.add_backup] in a backupset directory, at a time whose
    timestamp is a file name: when an entry of that name is there, it
    raises the [OSError] of an existing file and changes nothing;
    otherwise it creates the directory of the backup, which is all that
    changes, and returns its handle; if the timestamp is above those of the
    backups so far, the listing afterwards is the old listing followed by
    the new backup. *)
Theorem add_backup_creates strptime_ok self ts w cp es :
  directory_at w (backupset_path self) cp es -> entries_ok es ->
  valid_name ts = true ->
  match lookup_entry ts es with
  | Some _ => Backupset_add_backup self ts w = (Raise (OSError (Some EEXIST)), w)
  | None =>
      exists w',
        Backupset_add_backup self ts w = (Ok (make_backup self ts), w') /\
        directory_at w' (backupset_path self) cp (add_entry ts (Dir []) es) /\
        Backup_exists (make_backup self ts) w' = (Ok true, w') /\
        (strptime_ok ts = true ->
         Forall (fun d => String.leb d ts = true) (backup_dirs strptime_ok es) ->
         Backupset_list_backups strptime_ok self None false w' =
           (Ok (Some (map (make_backup self) (backup_dirs strptime_ok es ++ [ts]))), w'))
  end.
Proof.
  intros Hdir Hes Hts.
  unfold Backupset_add_backup, Backup_prepare, os_makedirs. io_unfold.
  cbn [backup_path Backup_init].
  rewrite (directory_at_makedirs_fuel w _ cp es Hdir _ ts Hts).
  destruct (lookup_entry ts es) eqn:Hnone; [done|].
  pose proof (directory_at_update w _ cp es Hdir (add_entry ts (Dir []))) as Hdir'.
  eexists. split_and!; [done|done| |].
  - unfold Backup_exists. io_unfold. cbn [backup_path make_backup Backup_init].
    unfold path_exists.
    rewrite (directory_at_stat _ _ cp _ Hdir' ts Hts);
      by rewrite lookup_entry_add, Hnone, String.eqb_refl.
  - intros Hok Hmax.
    rewrite (list_backups_directory_at strptime_ok self _ cp _ false Hdir'
               (entries_ok_add ts (Dir []) es Hes Hts Hnone)).
    cbv zeta. by rewrite (backup_dirs_add_newest _ _ _ Hnone Hok Hmax).
Qed.

Lemma add_backup_creates_witness :
  Backupset_add_backup mysql "20200102_000000" sample_world =
    (Raise (OSError (Some EEXIST)), sample_world) /\
  exists w',
    Backupset_add_backup mysql "20200104_120000" sample_world =
      (Ok (make_backup mysql "20200104_120000"), w') /\
    Backupset_list_backups strptime_accepts mysql None false w' =
      (Ok (Some (map (make_backup mysql)
                   ["20200101_000000"; "20200102_000000"; "20200103_000000";
                    "20200104_120000"])), w').
Proof.
  split.
  - apply (add_backup_creates strptime_accepts mysql "20200102_000000" sample_world
             mysql_loc mysql_entries sample_directory_at sample_entries_ok eq_refl).
  - destruct (add_backup_creates strptime_accepts mysql "20200104_120000" sample_world
                mysql_loc mysql_entries sample_directory_at sample_entries_ok eq_refl)
      as (w' & H1 & _ & _ & H2).
    exists w'. split; [exact H1|]. apply H2.
    + vm_compute. reflexivity.
    + vm_compute. repeat constructor.
Defined.

(** [Spool.add_backup] for a backupset that is not yet in the spool
    directory: the directory of the backupset and, in it, the directory of
    the backup are created, the handle of the backup is returned, the
    backupset is found afterwards and the new backup is its only one. *)
Theorem spool_add_backup_creates strptime_ok spool bs ts w cp es :
  directory_at w (spool_path spool) cp es ->
  valid_name bs = true -> valid_name ts = true -> lookup_entry bs es = None ->
  let path := path_join (spool_path spool) bs in
  let backupset := Backupset_init bs path in
  exists w',
    Spool_add_backup spool bs ts w = (Ok (make_backup backupset ts), w') /\
    directory_at w' path (cp ++ [bs]) [(ts, Dir [])] /\
    Spool_find_backupset spool bs w' = (Ok (Some backupset), w') /\
    (strptime_ok ts = true ->
     Backupset_list_backups strptime_ok backupset None false w' =
       (Ok (Some [make_backup backupset ts]), w')).
Proof.
  intros Hdir Hbs Hts Hnone path backupset.
  set (w1 := set_tree w (update_dir (add_entry bs (Dir [])) (tree w) cp)).
  pose proof (directory_at_made w _ cp es Hdir bs Hbs Hnone) as Hdir1.
  fold w1 path in Hdir1.
  set (w2 := set_tree w1 (update_dir (add_entry ts (Dir [])) (tree w1) (cp ++ [bs]))).
  pose proof (directory_at_update w1 path (cp ++ [bs]) [] Hdir1 (add_entry ts (Dir [])))
    as Hdir2. fold w2 in Hdir2. change (add_entry ts (Dir []) []) with [(ts, Dir [])] in Hdir2.
  assert (path_exists w path = false) as Hmissing.
  { unfold path_exists, path.
    rewrite (directory_at_stat w _ cp es Hdir bs Hbs); by rewrite Hnone. }
  exists w2. split_and!; [|done| |].
  - unfold Spool_add_backup. unfold mbind, io_bind. rewrite find_backupset_eq. fold path.
    rewrite Hmissing. unfold Spool_add_backupset. io_unfold. fold path. rewrite Hmissing.
    unfold Backupset_add_backup, Backup_prepare, os_makedirs. io_unfold.
    cbn [backup_path Backup_init backupset_path backupset_name Backupset_init].
    cbn [os_makedirs_fuel]. rewrite (directory_at_path_split w1 path _ _ Hdir1 ts Hts).
    destruct (directory_at_join_no_trailing w1 path _ _ Hdir1 ts Hts) as [Hne _].
    destruct (string_length_S _ Hne) as [fuel ->].
    destruct (valid_name_eqb ts Hts) as (Hts0 & Hts1 & _). cbv beta iota zeta.
    rewrite Hts0. cbv beta iota zeta. rewrite Hts0, Hts1.
    assert (String.eqb path "" = false) as ->
      by apply (directory_at_nonempty w1 path _ _ Hdir1).
    cbn [negb andb]. io_unfold. cbv beta iota. rewrite Hmissing. cbn [negb].
    cbv beta iota.
    pose proof (directory_at_makedirs_fuel w _ cp es Hdir fuel bs Hbs) as Hmk.
    fold path in Hmk. rewrite Hmk, Hnone. fold w1. cbv beta iota.
    by rewrite (directory_at_os_mkdir w1 path _ _ Hdir1 ts Hts).
  - rewrite find_backupset_eq. fold path.
    by rewrite (directory_at_exists w2 path _ _ Hdir2).
  - intros Hok.
    rewrite (list_backups_directory_at strptime_ok backupset w2 (cp ++ [bs])
               [(ts, Dir [])] false Hdir2).
    + cbv zeta. unfold backup_dirs, is_real_dir. cbn [map fst List.filter lookup_entry].
      by rewrite String.eqb_refl, Hok.
    + split; cbn [map fst]; [apply NoDup_singleton|by repeat constructor].
Qed.

Lemma spool_add_backup_creates_witness :
  let pgsql := Backupset_init "pgsql" "/var/spool/holland/pgsql" in
  exists w',
    Spool_add_backup sample_spool "pgsql" "20200104_120000" sample_world =
      (Ok (make_backup pgsql "20200104_120000"), w') /\
    Spool_find_backupset sample_spool "pgsql" w' = (Ok (Some pgsql), w') /\
    Backupset_list_backups strptime_accepts pgsql None false w' =
      (Ok (Some [make_backup pgsql "20200104_120000"]), w').
Proof.
  intros pgsql.
  destruct (spool_add_backup_creates strptime_accepts sample_spool "pgsql"
              "20200104_120000" sample_world ["var"; "spool"; "holland"]
              [("mysql", Dir mysql_entries); ("empty", Dir []); ("afile", File)])
    as (w' & H1 & _ & H2 & H3).
  - repeat split. vm_compute. repeat constructor.
  - reflexivity.
  - reflexivity.
  - reflexivity.
  - exists w'. split; [exact H1|]. split; [exact H2|]. apply H3. vm_compute. reflexivity.
Defined.

(** ** Backups and their timestamps *)

(** A backup of the unnamed listing is found by its timestamp, as the
    same handle, when the timestamp has no blank at either end. *)
Theorem listed_backup_is_found strptime_ok self d reverse w l :
  Backupset_list_backups strptime_ok self None reverse w = (Ok (Some l), w) ->
  make_backup self d ∈ l -> d <> "" -> strip d = d ->
  Backupset_find_backup strptime_ok self d w = (Ok (Some (make_backup self d)), w).
Proof.
  intros Hl Hin Hd Hstrip.
  assert (path_exists w (backupset_path self) = true) as Hex.
  { destruct (path_exists w (backupset_path self)) eqn:E; [done|].
    by rewrite (list_backups_missing strptime_ok self None reverse w E) in Hl. }
  assert (path_exists w (path_join (backupset_path self) d) = true) as Hexd.
  { revert Hl. unfold Backupset_list_backups. io_unfold. rewrite Hex. cbn [negb].
    change (truthy (strip (or_empty None))) with false. cbv beta iota.
    destruct (listdir w (backupset_path self)) as [e|names]; [done|].
    intros [= <-].
    assert (make_backup self d ∈
              map (make_backup self)
                (List.filter (is_backup_dir strptime_ok w self) names)) as Hin'.
    { destruct reverse.
      - apply list_elem_of_In, in_rev, list_elem_of_In in Hin.
        by rewrite (sort_by_perm backup_name) in Hin.
      - by rewrite (sort_by_perm backup_name) in Hin. }
    apply list_elem_of_In, in_map_iff in Hin' as (d' & Heq & Hd').
    apply filter_In in Hd' as [_ Hd'].
    assert (d' = d) as ->.
    { unfold make_backup, Backup_init in Heq. injection Heq as _ Hname.
      by apply (inj (String.app _)), (inj (String.app _)) in Hname. }
    unfold is_backup_dir in Hd'. cbn zeta in Hd'.
    apply andb_true_iff in Hd' as [[Hd' _]%andb_true_iff _].
    by apply path_isdir_exists. }
  rewrite find_backup_of_list.
  rewrite (list_backups_named strptime_ok self (Some d) false w Hex);
    change (or_empty (Some d)) with d; rewrite Hstrip; [|done].
  cbv zeta. by rewrite Hexd.
Qed.

Lemma listed_backup_is_found_witness :
  Backupset_find_backup strptime_accepts mysql "20200102_000000" sample_world =
    (Ok (Some (make_backup mysql "20200102_000000")), sample_world).
Proof.
  apply (listed_backup_is_found strptime_accepts mysql "20200102_000000" false sample_world
           (map (make_backup mysql)
              ["20200101_000000"; "20200102_000000"; "20200103_000000"])).
  - vm_compute. reflexivity.
  - vm_compute. apply list_elem_of_further, list_elem_of_here.
  - discriminate.
  - vm_compute. reflexivity.
Defined.

(** ** Links that cannot be replaced *)

(** [update_symlinks()] removes the links with [os.remove], which refuses
    a directory: when [oldest] is a directory the call fails and nothing
    has changed; when only [newest] is a directory the call fails after
    the entry [oldest] has been removed, and no link has been made. *)
Theorem update_symlinks_refuses_directories strptime_ok self w cp es :
  directory_at w (backupset_path self) cp es -> entries_ok es ->
  (is_real_dir es "oldest" = true ->
     Backupset_update_symlinks strptime_ok self true w =
       (Raise (OSError (Some EISDIR)), w)) /\
  (is_real_dir es "oldest" = false -> is_real_dir es "newest" = true ->
     exists w',
       Backupset_update_symlinks strptime_ok self true w =
         (Raise (OSError (Some EISDIR)), w') /\
       directory_at w' (backupset_path self) cp (drop_entry "oldest" es)).
Proof.
  intros Hdir Hes.
  assert (forall w0 es0 d,
            directory_at w0 (backupset_path self) cp es0 -> valid_name d = true ->
            is_real_dir es0 d = true ->
            remove_link (path_join (backupset_path self) d) w0 =
              (Raise (OSError (Some EISDIR)), w0)) as Hisdir.
  { intros w0 es0 d Hdir0 Hd Hr. unfold remove_link, os_remove. io_unfold.
    rewrite (directory_at_resolve_entry w0 _ cp es0 Hdir0 false d Hd (or_introl eq_refl)).
    pose proof (directory_at_entry w0 _ cp es0 Hdir0 d) as Hk.
    unfold is_real_dir in Hr. destruct (lookup_entry d es0) as [[| |]|]; try done.
    by rewrite Hk. }
  unfold Backupset_update_symlinks. cbn [negb]. unfold mbind, io_bind, mret, io_ret.
  rewrite (list_backups_directory_at strptime_ok self w cp es false Hdir Hes).
  cbv zeta. split.
  - intros Ho. by rewrite (Hisdir w es "oldest" Hdir eq_refl Ho).
  - intros Ho Hn.
    destruct (remove_link_entry w _ cp es "oldest" Hdir eq_refl Ho) as (w1 & -> & Hdir1).
    exists w1. split; [|done].
    rewrite (Hisdir w1 _ "newest" Hdir1 eq_refl); [done|].
    unfold is_real_dir in *. by rewrite lookup_entry_drop_other.
Qed.

Lemma update_symlinks_refuses_directories_witness :
  let es := [("oldest", Dir []); ("20200101_000000", Dir [])] in
  let w := World (Dir [("b", Dir es)]) [] [] in
  Backupset_update_symlinks strptime_accepts (Backupset_init "b" "/b") true w =
    (Raise (OSError (Some EISDIR)), w).
Proof.
  intros es w.
  apply (update_symlinks_refuses_directories strptime_accepts (Backupset_init "b" "/b")
           w ["b"] es).
  - repeat split. vm_compute. repeat constructor.
  - split; [apply (bool_decide_unpack _); vm_compute; exact I|vm_compute; repeat constructor].
  - reflexivity.
Defined.

(** ** Adding a backup and purging *)

(** The listing after the generator of [purge] has been consumed. *)
Lemma purge_list_then_list strptime_ok realpath self w cp es n :
  realpath_resolved realpath ->
  directory_at w (backupset_path self) cp es -> entries_ok es -> (0 <= n)%Z ->
  let ds := backup_dirs strptime_ok es in
  let m := List.length ds - Z.to_nat n in
  exists w',
    purge_list strptime_ok realpath self (Backupset_purge self n) w =
      (Ok (map (make_backup self) (rev (take m ds))), w') /\
    Backupset_list_backups strptime_ok self None false w' =
      (Ok (Some (map (make_backup self) (drop m ds))), w').
Proof.
  intros Hreal Hdir Hes Hn ds m. set (old := take m ds).
  exists (set_tree w (update_dir (without old) (tree w) cp)). split.
  - apply (purge_list_entries strptime_ok realpath Hreal self w cp es n Hdir Hes Hn).
  - rewrite (list_backups_directory_at strptime_ok self _ cp (without old es) false
               (directory_at_without w _ cp es old Hdir)
               (entries_ok_filter (fun c => negb (mem c old)) es Hes)).
    cbv zeta. rewrite backup_dirs_without. fold ds. unfold old.
    by rewrite (filter_not_in_take ds _ (backup_dirs_NoDup strptime_ok es Hes)).
Qed.

(** A backup that has just been added, with a timestamp above all the
    others, survives a purge that keeps at least one backup: the purge
    removes only older backups, and the new backup is the last of the
    listing afterwards (the only one when one backup is kept). *)
Theorem add_backup_then_purge strptime_ok realpath self ts n w cp es :
  realpath_resolved realpath ->
  directory_at w (backupset_path self) cp es -> entries_ok es ->
  valid_name ts = true -> lookup_entry ts es = None -> strptime_ok ts = true ->
  Forall (fun d => String.leb d ts = true) (backup_dirs strptime_ok es) ->
  (1 <= n)%Z ->
  let ds := backup_dirs strptime_ok es in
  let m := S (List.length ds) - Z.to_nat n in
  exists w1 w2,
    Backupset_add_backup self ts w = (Ok (make_backup self ts), w1) /\
    purge_list strptime_ok realpath self (Backupset_purge self n) w1 =
      (Ok (map (make_backup self) (rev (take m ds))), w2) /\
    Backupset_list_backups strptime_ok self None false w2 =
      (Ok (Some (map (make_backup self) (drop m ds ++ [ts]))), w2).
Proof.
  intros Hreal Hdir Hes Hts Hnone Hok Hmax Hn ds m.
  pose proof (directory_at_update w _ cp es Hdir (add_entry ts (Dir []))) as Hdir1.
  pose proof (entries_ok_add ts (Dir []) es Hes Hts Hnone) as Hes1.
  destruct (purge_list_then_list strptime_ok realpath self _ cp _ n Hreal Hdir1 Hes1
              ltac:(lia)) as (w2 & Hpurge & Hlist).
  rewrite (backup_dirs_add_newest _ _ _ Hnone Hok Hmax) in Hpurge, Hlist.
  fold ds in Hpurge, Hlist. rewrite length_app in Hpurge, Hlist.
  cbn [List.length] in Hpurge, Hlist.
  replace (List.length ds + 1 - Z.to_nat n) with m in Hpurge, Hlist by lia.
  assert (m <= List.length ds) as Hm by lia.
  rewrite (take_app_le ds [ts] m Hm) in Hpurge.
  rewrite (drop_app_le ds [ts] m Hm) in Hlist.
  eexists _, w2. split_and!; [|exact Hpurge|exact Hlist].
  unfold Backupset_add_backup, Backup_prepare, os_makedirs. io_unfold.
  cbn [backup_path Backup_init].
  by rewrite (directory_at_makedirs_fuel w _ cp es Hdir _ ts Hts), Hnone.
Qed.

Lemma add_backup_then_purge_witness :
  exists w1 w2,
    Backupset_add_backup mysql "20200104_120000" sample_world =
      (Ok (make_backup mysql "20200104_120000"), w1) /\
    purge_list strptime_accepts resolved_realpath mysql (Backupset_purge mysql 1) w1 =
      (Ok (map (make_backup mysql)
             ["20200103_000000"; "20200102_000000"; "20200101_000000"]), w2) /\
    Backupset_list_backups strptime_accepts mysql None false w2 =
      (Ok (Some [make_backup mysql "20200104_120000"]), w2).
Proof.
  apply (add_backup_then_purge strptime_accepts resolved_realpath mysql
           "20200104_120000" 1 sample_world mysql_loc mysql_entries
           resolved_realpath_law sample_directory_at sample_entries_ok).
  - reflexivity.
  - reflexivity.
  - vm_compute. reflexivity.
  - vm_compute. repeat constructor.
  - lia.
Defined.

(** ** The depth of [os.makedirs] *)

Lemma rpartition_sep_length p :
  String.length (fst (rpartition_sep p)) + String.length (snd (rpartition_sep p)) =
    String.length p.
Proof.
  induction p as [|c p IH]; [done|]. cbn [rpartition_sep].
  destruct (rpartition_sep p) as [h t]. cbn [fst snd] in *.
  destruct (String.eqb_spec h "") as [->|Hh]; cbn [negb].
  - destruct (is_sep c); cbn [fst snd String.length] in *; lia.
  - cbn [fst snd String.length]. lia.
Qed.

Lemma rstrip_sep_length s : String.length (rstrip_sep s) <= String.length s.
Proof.
  induction s as [|c s IH]; [done|]. cbn [rstrip_sep].
  destruct (rstrip_sep s); [destruct (is_sep c)|]; cbn [String.length] in *; lia.
Qed.

Lemma path_split_length p :
  String.length (fst (path_split p)) + String.length (snd (path_split p)) <=
    String.length p.
Proof.
  unfold path_split. pose proof (rpartition_sep_length p) as H.
  destruct (rpartition_sep p) as [h t]. cbn [fst snd] in *.
  pose proof (rstrip_sep_length h).
  destruct (negb (String.eqb h "") && negb (all_sep h)); lia.
Qed.

(** The parent that [os.makedirs] recurses on is shorter than the name. *)
Lemma makedirs_parent_shorter name :
  let (head, tail) := path_split name in
  let (head, tail) := if String.eqb tail "" then path_split head else (head, tail) in
  tail <> "" -> String.length head < String.length name.
Proof.
  pose proof (path_split_length name) as H1.
  destruct (path_split name) as [h1 t1]. cbn [fst snd] in H1.
  destruct (String.eqb_spec t1 "") as [->|Ht1].
  - pose proof (path_split_length h1) as H2.
    destruct (path_split h1) as [h2 t2]. cbn [fst snd] in H2.
    intros Ht2. destruct t2; [done|]. cbn [String.length] in *. lia.
  - intros _. destruct t1; [done|]. cbn [String.length] in *. lia.
Qed.

(** The bound on the depth is never what ends [os.makedirs]: every
    bound above the length of the name gives the same outcome. *)
Lemma os_makedirs_fuel_enough fuel : forall name fuel' w,
  String.length name < fuel -> String.length name < fuel' ->
  os_makedirs_fuel fuel name w = os_makedirs_fuel fuel' name w.
Proof.
  induction fuel as [|fuel IH]; intros name fuel' w Hf Hf'; [lia|].
  destruct fuel' as [|fuel']; [lia|]. cbn [os_makedirs_fuel].
  pose proof (makedirs_parent_shorter name) as Hshort.
  destruct (path_split name) as [h1 t1].
  destruct (if String.eqb t1 "" then path_split h1 else (h1, t1)) as [head tail].
  destruct (String.eqb_spec tail "") as [->|Htail]; [by rewrite andb_false_r|].
  specialize (Hshort Htail).
  destruct (negb (String.eqb head "")); cbn [negb andb]; [|done].
  io_unfold. destruct (path_exists w head); cbn [negb]; [done|].
  by rewrite (IH head fuel' w) by lia.
Qed.
